(** * map_overlay_ros2: tile geometry, tile fetching and stitching

    A shallow embedding of the modules of the package,

      - [coordinate_utils.py]  (latitude/longitude <-> tile indices, zoom choice,
                                 padded tile rectangle, haversine distance),
      - [tile_fetcher.py]      (class [TileFetcher]: provider table, disk cache,
                                 cache paths and URLs, per-tile download, batch
                                 download),
      - [image_stitcher.py]    (class [ImageStitcher]: canvas, paste, resize,
                                 grid overlay),
      - [map_overlay_node.py]  (class [MapPublisherNode]: the GPS callback, the
                                 update decision, the fetch-and-publish
                                 pipeline, the timer),

    followed by the theorems that settle the specification's claims and by
    further properties of the code.

    Conventions of the embedding.

      - A Python [float] is a real number of [R] and the arithmetic is exact:
        [math.tan], [math.asinh], [math.atan], [math.sinh], [math.cos] and
        [math.log2] are the real functions, [math.pi] is [PI].  Rounding,
        overflow and NaN of IEEE-754 doubles are not part of this model.
      - The two tile conversions are embedded a second time, in module
        [Binary64], over the binary64 numbers of IEEE-754 with the C library's
        [tan], [asinh], [atan] and [sinh] as parameters.  That embedding
        shows where rounding departs from the exact identities.
      - [int(f)] truncates toward zero ([py_int]); [round(f)] rounds to the
        nearest integer, ties to the even one ([py_round]).
      - Python integers are [Z].
      - A call that can raise returns a [result]; the exception classes that
        the modelled code raises or lets through are the constructors of
        [exn].
      - The calls to [_log] only forward a message to the logger (or to
        [print]); they are left out. *)

From Stdlib Require Import Reals Lra Lia ZArith List Bool String Ascii FinFun.
From Stdlib Require Import Zfloor Permutation.
From Stdlib Require DecimalString DecimalZ DecimalFacts.
From Stdlib Require Floats.
Import ListNotations.

(** ** Exceptions and results *)

Inductive exn : Type :=
| ZeroDivisionError
| ValueError
| OverflowError
| OSError.

Inductive result (A : Type) : Type :=
| Ok (a : A)
| Raise (e : exn).

Arguments Ok {A} a.
Arguments Raise {A} e.

Definition bind {A B : Type} (m : result A) (k : A -> result B) : result B :=
  match m with
  | Ok a => k a
  | Raise e => Raise e
  end.

Notation "x <- m ;; k" := (bind m (fun x => k))
  (at level 61, m at next level, right associativity).

(** ** Numeric primitives of Python *)

Open Scope R_scope.

(** [int(r)] on a float: the integer part, truncated toward zero. *)
Definition py_int (r : R) : Z :=
  if Rle_dec 0 r then Zfloor r else Zceil r.

(** [round(r)] on a float: nearest integer, a tie goes to the even neighbour. *)
Definition py_round (r : R) : Z :=
  let f := Zfloor r in
  let d := r - IZR f in
  if Rlt_dec d (1 / 2) then f
  else if Rlt_dec (1 / 2) d then (f + 1)%Z
  else if Z.even f then f else (f + 1)%Z.

(** [a / b] on floats: a zero divisor raises [ZeroDivisionError]. *)
Definition py_div (a b : R) : result R :=
  if Req_dec_T b 0 then Raise ZeroDivisionError else Ok (a / b).

(** [math.log2(r)]: a non-positive argument raises [ValueError]. *)
Definition py_log2 (r : R) : result R :=
  if Rlt_dec 0 r then Ok (ln r / ln 2) else Raise ValueError.

(** [math.radians] and [math.degrees]. *)
Definition radians (d : R) : R := d * (PI / 180).
Definition degrees (r : R) : R := r * (180 / PI).

(** ** coordinate_utils.py *)

(** [lat_lon_to_tile(lat, lon, zoom)]; [2.0 ** zoom] is [powerRZ 2 zoom]. *)
Definition lat_lon_to_tile (lat lon : R) (zoom : Z) : Z * Z :=
  let lat_rad := radians lat in
  let n := powerRZ 2 zoom in
  let x := py_int ((lon + 180) / 360 * n) in
  let y := py_int ((1 - arcsinh (tan lat_rad) / PI) / 2 * n) in
  (x, y).

(** [tile_to_lat_lon(x, y, zoom)]: the top-left corner of a tile. *)
Definition tile_to_lat_lon (x y : Z) (zoom : Z) : R * R :=
  let n := powerRZ 2 zoom in
  let lon := IZR x / n * 360 - 180 in
  let lat_rad := atan (sinh (PI * (1 - 2 * IZR y / n))) in
  let lat := degrees lat_rad in
  (lat, lon).

(** [meters_to_lat_lon_offset(lat, dx_m, dy_m)], returning [(dlat, dlon)]. *)
Definition meters_to_lat_lon_offset (lat dx_m dy_m : R) : result (R * R) :=
  let R0 := 6378137 in
  let dlat_rad := dy_m / R0 in
  dlon_rad <- py_div dx_m (R0 * cos (radians lat)) ;;
  let dlat := degrees dlat_rad in
  let dlon := degrees dlon_rad in
  Ok (dlat, dlon).

(** The dictionary returned by [calculate_bounding_box]. *)
Record BoundingBox : Type := {
  min_lat : R;
  max_lat : R;
  min_lon : R;
  max_lon : R
}.

Definition calculate_bounding_box
  (center_lat center_lon width_m height_m : R) : result BoundingBox :=
  p <- meters_to_lat_lon_offset center_lat (width_m / 2) (height_m / 2) ;;
  let (dlat, dlon) := p in
  Ok {| min_lat := center_lat - dlat;
        max_lat := center_lat + dlat;
        min_lon := center_lon - dlon;
        max_lon := center_lon + dlon |}.

(** [calculate_optimal_zoom(width_m, image_size, lat)]. *)
Definition calculate_optimal_zoom (width_m image_size lat : R) : result Z :=
  let meters_per_pixel_zoom0 := 156543.03392 * cos (radians lat) in
  target_meters_per_pixel <- py_div width_m image_size ;;
  ratio <- py_div meters_per_pixel_zoom0 target_meters_per_pixel ;;
  zoom <- py_log2 ratio ;;
  Ok (Z.max 0 (Z.min 19 (py_round zoom))).

(** The dictionary returned by [get_tile_bounds] and read by [fetch_tiles]
    and [stitch_tiles]. *)
Record TileBounds : Type := {
  min_tile_x : Z;
  max_tile_x : Z;
  min_tile_y : Z;
  max_tile_y : Z;
  zoom : Z
}.

(** [get_tile_bounds(center_lat, center_lon, width_m, height_m, zoom, padding)]. *)
Definition get_tile_bounds
  (center_lat center_lon width_m height_m : R) (zoom padding : Z)
  : result TileBounds :=
  bbox <- calculate_bounding_box center_lat center_lon width_m height_m ;;
  let (min_x, max_y) := lat_lon_to_tile (min_lat bbox) (min_lon bbox) zoom in
  let (max_x, min_y) := lat_lon_to_tile (max_lat bbox) (max_lon bbox) zoom in
  Ok {| min_tile_x := min_x - padding;
        max_tile_x := max_x + padding;
        min_tile_y := min_y - padding;
        max_tile_y := max_y + padding;
        zoom := zoom |}.

(** [math.sqrt(r)]: a negative argument raises [ValueError]. *)
Definition py_sqrt (r : R) : result R :=
  if Rlt_dec r 0 then Raise ValueError else Ok (sqrt r).

(** [math.atan2(y, x)]: the angle of the point [(x, y)], in (-PI, PI]. *)
Definition py_atan2 (y x : R) : R :=
  if Rlt_dec 0 x then atan (y / x)
  else if Rlt_dec x 0 then
    if Rle_dec 0 y then atan (y / x) + PI else atan (y / x) - PI
  else if Rlt_dec 0 y then PI / 2
  else if Rlt_dec y 0 then - PI / 2
  else 0.

(** [haversine_distance(lat1, lon1, lat2, lon2)]. *)
Definition haversine_distance (lat1 lon1 lat2 lon2 : R) : result R :=
  let R0 := 6378137 in
  let lat1_rad := radians lat1 in
  let lat2_rad := radians lat2 in
  let dlat_rad := radians (lat2 - lat1) in
  let dlon_rad := radians (lon2 - lon1) in
  let a := sin (dlat_rad / 2) ^ 2 +
           cos lat1_rad * cos lat2_rad * sin (dlon_rad / 2) ^ 2 in
  sa <- py_sqrt a ;;
  sb <- py_sqrt (1 - a) ;;
  let c := 2 * py_atan2 sa sb in
  let distance := R0 * c in
  Ok distance.

(** ** coordinate_utils.py in binary64

    The two conversions between coordinates and tile indices once more, with
    a Python [float] as the IEEE-754 binary64 number it is.  Sums, products
    and quotients round to nearest, ties to even.  [math.tan], [math.asinh],
    [math.atan] and [math.sinh] forward to the C library, whose rounding the
    standard leaves open: they are the fields of [Libm], and a field returns a
    [result] because the wrappers of module [math] raise on a range or a
    domain error. *)

Module Binary64.
Import Floats.
Local Open Scope float_scope.

Record Libm : Type := {
  math_tan : float -> result float;
  math_asinh : float -> result float;
  math_atan : float -> result float;
  math_sinh : float -> result float
}.

(** [math.pi], the double next to the number pi. *)
Definition pi : float := 0x1.921fb54442d18p+1.

(** [math.radians] and [math.degrees] multiply by a constant that is itself
    a rounded quotient. *)
Definition radians (x : float) : float := x * (pi / 180).
Definition degrees (x : float) : float := x * (180 / pi).

(** The conversion of an [int] operand of a float operation: the nearest
    double, ties to even; an integer beyond the largest double raises
    [OverflowError]. *)
Definition float_of_int (x : Z) : result float :=
  let f := SF2Prim (binary_normalize prec emax x 0 false) in
  if is_infinity f then Raise OverflowError else Ok f.

(** [int(f)]: truncation toward zero; an infinity raises [OverflowError],
    a NaN raises [ValueError]. *)
Definition int (f : float) : result Z :=
  match Prim2SF f with
  | S754_zero _ => Ok 0%Z
  | S754_finite s m e =>
      let a := if (0 <=? e)%Z then (Z.pos m * 2 ^ e)%Z
               else (Z.pos m / 2 ^ (- e))%Z in
      Ok (if s then (- a)%Z else a)
  | S754_infinity _ => Raise OverflowError
  | S754_nan => Raise ValueError
  end.

(** [2.0 ** zoom]: the power of two itself while it is a double (a zoom
    below -1074 gives 0.0), [OverflowError] from 2.0 ** 1024 on. *)
Definition pow2 (zoom : Z) : result float :=
  if (zoom <? 1024)%Z then Ok (Z.ldexp 1 zoom) else Raise OverflowError.

(** [a / b]: a zero divisor raises [ZeroDivisionError]. *)
Definition truediv (a b : float) : result float :=
  if b =? 0 then Raise ZeroDivisionError else Ok (a / b).

(** [lat_lon_to_tile(lat, lon, zoom)]; the divisors 360.0, [math.pi] and 2.0
    are not zero. *)
Definition lat_lon_to_tile (m : Libm) (lat lon : float) (zoom : Z)
  : result (Z * Z) :=
  let lat_rad := radians lat in
  n <- pow2 zoom ;;
  x <- int ((lon + 180) / 360 * n) ;;
  t <- math_tan m lat_rad ;;
  a <- math_asinh m t ;;
  y <- int ((1 - a / pi) / 2 * n) ;;
  Ok (x, y).

(** [tile_to_lat_lon(x, y, zoom)] with integer [x] and [y]. *)
Definition tile_to_lat_lon (m : Libm) (x y : Z) (zoom : Z)
  : result (float * float) :=
  n <- pow2 zoom ;;
  xf <- float_of_int x ;;
  q <- truediv xf n ;;
  let lon := q * 360 - 180 in
  yf <- float_of_int (2 * y) ;;
  r <- truediv yf n ;;
  s <- math_sinh m (pi * (1 - r)) ;;
  lat_rad <- math_atan m s ;;
  let lat := degrees lat_rad in
  Ok (lat, lon).

(** Two sample longitudes, as the doubles that Python reads from the
    literals 86.15349337925545 and 179.99999999999997 (the last double below
    180). *)
Definition lon_86 : float := 0x1.589d2d5e5038p+6.
Definition lon_below_180 : float := 0x1.67fffffffffffp+7.

End Binary64.

(** ** PIL images

    A [PIL.Image] is its mode string, its size and its pixel data.  Pixel
    data is read lazily by PIL: [img_data = None] stands for an image whose
    header was parsed but whose pixel data cannot be loaded (every operation
    that calls [load()] raises on it).  A pixel is the list of its band
    values. *)

Open Scope Z_scope.

Definition Pixel : Type := list Z.

Record Image : Type := {
  img_mode : string;
  img_size : Z * Z;
  img_data : option (Z -> Z -> Pixel)
}.

(** Two images with the same mode, size and pixel values. *)
Definition pixel_identical (a b : Image) : Prop :=
  img_mode a = img_mode b /\
  img_size a = img_size b /\
  exists da db,
    img_data a = Some da /\ img_data b = Some db /\
    forall x y, 0 <= x < fst (img_size a) -> 0 <= y < snd (img_size a) ->
                da x y = db x y.

(** [Image.new(mode, size, color)]: a negative side raises [ValueError]. *)
Definition Image_new (mode : string) (size : Z * Z) (color : Pixel)
  : result Image :=
  if (fst size <? 0) || (snd size <? 0) then Raise ValueError
  else Ok {| img_mode := mode; img_size := size;
             img_data := Some (fun _ _ => color) |}.

(** [canvas.paste(im, (cx, cy))]: loads [im], copies it into the region of
    [canvas] whose upper left corner is [(cx, cy)]; the part of the region
    outside the canvas is clipped.  The model returns the updated canvas. *)
Definition paste (canvas im : Image) (box : Z * Z) : result Image :=
  match img_data im, img_data canvas with
  | Some src, Some dst =>
      let '(cx, cy) := box in
      let '(w, h) := img_size im in
      Ok {| img_mode := img_mode canvas;
            img_size := img_size canvas;
            img_data := Some (fun x y =>
              if (cx <=? x) && (x <? cx + w) && (cy <=? y) && (y <? cy + h)
              then src (x - cx) (y - cy)
              else dst x y) |}
  | _, _ => Raise OSError
  end.

(** The operations of PIL that the package uses as black boxes, over the
    type [blob] of encoded image bytes:
      - [image_open b]: [Image.open] on a file or byte buffer holding [b]
        ([None] when it raises);
      - [png_encode img]: the bytes [img.save(path, 'PNG')] writes ([None]
        when the encoder raises);
      - [convert_pixel img mode]: the map on pixel values that
        [img.convert(mode)] applies ([None] when PIL has no conversion from
        the mode of [img] to [mode]);
      - [resize img size]: [img.resize(size, LANCZOS)];
      - [alpha_composite a b]: [Image.alpha_composite(a, b)]. *)
Record Pil (blob : Type) : Type := {
  image_open : blob -> option Image;
  png_encode : Image -> option blob;
  convert_pixel : Image -> string -> option (Pixel -> Pixel);
  resize : Image -> Z * Z -> result Image;
  alpha_composite : Image -> Image -> result Image
}.

Arguments image_open {blob} _ _.
Arguments png_encode {blob} _ _.
Arguments convert_pixel {blob} _ _ _.
Arguments resize {blob} _ _ _.
Arguments alpha_composite {blob} _ _ _.

(** [img.convert(mode)]: loads the image and converts it pixel by pixel. *)
Definition convert {blob : Type} (p : Pil blob) (img : Image) (mode : string)
  : result Image :=
  match img_data img with
  | None => Raise OSError
  | Some d =>
      match convert_pixel p img mode with
      | None => Raise ValueError
      | Some g =>
          Ok {| img_mode := mode;
                img_size := img_size img;
                img_data := Some (fun x y => g (d x y)) |}
      end
  end.

(** ** tile_fetcher.py *)

(** One entry of the class attribute [PROVIDERS]. *)
Record ProviderConfig : Type := {
  name : string;
  url : string;
  max_zoom : Z;
  attribution : string;
  tile_size : Z
}.

Definition PROVIDERS : list (string * ProviderConfig) :=
  [ ("esri"%string,
     {| name := "Esri World Imagery";
        url := "https://server.arcgisonline.com/ArcGIS/rest/services/World_Imagery/MapServer/tile/{z}/{y}/{x}";
        max_zoom := 19;
        attribution := "Esri, DigitalGlobe, GeoEye, Earthstar Geographics, CNES/Airbus DS, USDA, USGS, AeroGRID, IGN, and the GIS User Community";
        tile_size := 256 |});
    ("osm"%string,
     {| name := "OpenStreetMap";
        url := "https://tile.openstreetmap.org/{z}/{x}/{y}.png";
        max_zoom := 19;
        attribution := "OpenStreetMap contributors";
        tile_size := 256 |});
    ("usgs"%string,
     {| name := "USGS Imagery";
        url := "https://basemap.nationalmap.gov/arcgis/rest/services/USGSImageryOnly/MapServer/tile/{z}/{y}/{x}";
        max_zoom := 16;
        attribution := "USGS";
        tile_size := 256 |}) ].

(** [PROVIDERS[provider]], and [provider in PROVIDERS] as its definedness. *)
Fixpoint providers_get (table : list (string * ProviderConfig)) (provider : string)
  : option ProviderConfig :=
  match table with
  | [] => None
  | (k, cfg) :: rest =>
      if String.eqb provider k then Some cfg else providers_get rest provider
  end.

(** A tile is addressed by [(z, x, y)]. *)
Definition TileKey : Type := (Z * Z * Z)%type.

Definition key_eqb (a b : TileKey) : bool :=
  let '(az, ax, ay) := a in
  let '(bz, bx, by_) := b in
  (az =? bz) && (ax =? bx) && (ay =? by_).

(** What [requests.get(url, timeout=10, ...)] does: it returns a response,
    raises [requests.exceptions.Timeout], or raises another exception. *)
Inductive HttpOutcome (blob : Type) : Type :=
| HttpResponse (status_code : Z) (content : blob)
| HttpTimeout
| HttpException.

Arguments HttpResponse {blob} status_code content.
Arguments HttpTimeout {blob}.
Arguments HttpException {blob}.

(** The world outside the process, as far as [TileFetcher] observes it.
      - [pil]: the image library;
      - [http_get template key]: the outcome of the GET request for the URL
        [template.format(z=z, x=x, y=y)]; the URL is identified with the
        template and the index it was built from;
      - [makedirs_root cache_dir]: whether [os.makedirs(cache_dir,
        exist_ok=True)] returns ([false]: it raises [OSError]);
      - [makedirs_tile z x]: the same for the tile directory
        [<cache_dir>/<provider>/<z>/<x>];
      - [write_ok key]: whether the file system lets the cache file of [key]
        be written completely;
      - [failed_write key]: what a failed [img.save] leaves at the cache
        path (nothing, or an incomplete file). *)
Record World (blob : Type) : Type := {
  pil : Pil blob;
  http_get : string -> TileKey -> HttpOutcome blob;
  makedirs_root : string -> bool;
  makedirs_tile : Z -> Z -> bool;
  write_ok : TileKey -> bool;
  failed_write : TileKey -> option blob
}.

Arguments pil {blob} _.
Arguments http_get {blob} _ _ _.
Arguments makedirs_root {blob} _ _.
Arguments makedirs_tile {blob} _ _ _.
Arguments write_ok {blob} _ _.
Arguments failed_write {blob} _ _.

(** The state the fetcher changes: the cache files below
    [<cache_dir>/<provider>/] (the file [<z>/<x>/<y>.png] is identified with
    the index [(z, x, y)]: [str] and [os.path.join] are injective on these
    components), and the log of the requests sent so far, oldest first. *)
Record State (blob : Type) : Type := {
  files : TileKey -> option blob;
  requests : list TileKey
}.

Arguments files {blob} _ _.
Arguments requests {blob} _.

Definition write_file {blob : Type} (st : State blob) (key : TileKey)
  (content : option blob) : State blob :=
  {| files := fun k => if key_eqb k key then content else files st k;
     requests := requests st |}.

Definition log_request {blob : Type} (st : State blob) (key : TileKey)
  : State blob :=
  {| files := files st; requests := requests st ++ [key] |}.

(** The fields [__init__] sets ([logger] apart). *)
Record TileFetcher : Type := {
  provider : string;
  provider_config : ProviderConfig;
  cache_dir : string
}.

(** [TileFetcher.__init__(provider, cache_dir)]. *)
Definition TileFetcher_init {blob : Type} (w : World blob)
  (provider cache_dir : string) : result TileFetcher :=
  match providers_get PROVIDERS provider with
  | None => Raise ValueError
  | Some cfg =>
      if makedirs_root w cache_dir
      then Ok {| provider := provider; provider_config := cfg;
                 cache_dir := cache_dir |}
      else Raise OSError
  end.

(** [_get_cache_path(z, x, y)]: creates the tile directory and returns the
    path of the cache file, here the index itself. *)
Definition _get_cache_path {blob : Type} (w : World blob) (z x y : Z)
  : result TileKey :=
  if makedirs_tile w z x then Ok (z, x, y) else Raise OSError.

(** [img.save(cache_path, 'PNG')] inside its [try]: the state afterwards. *)
Definition save_png {blob : Type} (w : World blob) (st : State blob)
  (cache_path : TileKey) (img : Image) : State blob :=
  match png_encode (pil w) img with
  | Some b =>
      if write_ok w cache_path then write_file st cache_path (Some b)
      else write_file st cache_path (failed_write w cache_path)
  | None => write_file st cache_path (failed_write w cache_path)
  end.

(** [Image.open(cache_path)] followed by [img.copy()], inside their [try]:
    [None] when either raises. *)
Definition load_cached {blob : Type} (w : World blob) (b : blob)
  : option Image :=
  match image_open (pil w) b with
  | Some img =>
      match img_data img with
      | Some _ => Some img
      | None => None
      end
  | None => None
  end.

(** The part of [fetch_tile] after the cache lookup: the download. *)
Definition fetch_from_provider {blob : Type} (w : World blob) (f : TileFetcher)
  (st : State blob) (cache_path : TileKey) (use_cache : bool)
  : State blob * result (option Image) :=
  let st1 := log_request st cache_path in
  match http_get w (url (provider_config f)) cache_path with
  | HttpResponse status_code content =>
      if status_code =? 200 then
        match image_open (pil w) content with
        | Some img =>
            let st2 := if use_cache then save_png w st1 cache_path img
                       else st1 in
            (st2, Ok (Some img))
        | None => (st1, Ok None)
        end
      else (st1, Ok None)
  | HttpTimeout => (st1, Ok None)
  | HttpException => (st1, Ok None)
  end.

(** [fetch_tile(z, x, y, use_cache)]. *)
Definition fetch_tile {blob : Type} (w : World blob) (f : TileFetcher)
  (st : State blob) (z x y : Z) (use_cache : bool)
  : State blob * result (option Image) :=
  match _get_cache_path w z x y with
  | Raise e => (st, Raise e)
  | Ok cache_path =>
      let cached :=
        if use_cache then
          match files st cache_path with
          | Some b => load_cached w b
          | None => None
          end
        else None in
      match cached with
      | Some img => (st, Ok (Some img))
      | None => fetch_from_provider w f st cache_path use_cache
      end
  end.

(** The dictionary [tiles]: keys [(x, y)] in insertion order. *)
Definition TileDict : Type := list ((Z * Z) * Image).

Definition xy_eqb (a b : Z * Z) : bool :=
  (fst a =? fst b) && (snd a =? snd b).

(** [tiles[k] = img]: an existing key keeps its place. *)
Fixpoint dict_set (tiles : TileDict) (k : Z * Z) (img : Image) : TileDict :=
  match tiles with
  | [] => [(k, img)]
  | (k', img') :: rest =>
      if xy_eqb k k' then (k, img) :: rest
      else (k', img') :: dict_set rest k img
  end.

(** [range(start, stop)]. *)
Definition py_range (start stop : Z) : list Z :=
  map (fun i => start + Z.of_nat i) (seq 0 (Z.to_nat (stop - start))).

(** The inner loop of [fetch_tiles]: [for y in range(min_y, max_y + 1)]. *)
Fixpoint fetch_ys {blob : Type} (w : World blob) (f : TileFetcher)
  (z x : Z) (ys : list Z) (st : State blob) (tiles : TileDict)
  : State blob * result TileDict :=
  match ys with
  | [] => (st, Ok tiles)
  | y :: rest =>
      match fetch_tile w f st z x y true with
      | (st1, Raise e) => (st1, Raise e)
      | (st1, Ok (Some img)) =>
          fetch_ys w f z x rest st1 (dict_set tiles (x, y) img)
      | (st1, Ok None) => fetch_ys w f z x rest st1 tiles
      end
  end.

(** The outer loop: [for x in range(min_x, max_x + 1)]. *)
Fixpoint fetch_xs {blob : Type} (w : World blob) (f : TileFetcher)
  (z : Z) (xs ys : list Z) (st : State blob) (tiles : TileDict)
  : State blob * result TileDict :=
  match xs with
  | [] => (st, Ok tiles)
  | x :: rest =>
      match fetch_ys w f z x ys st tiles with
      | (st1, Raise e) => (st1, Raise e)
      | (st1, Ok tiles1) => fetch_xs w f z rest ys st1 tiles1
      end
  end.

(** [fetch_tiles(tile_bounds)]. *)
Definition fetch_tiles {blob : Type} (w : World blob) (f : TileFetcher)
  (st : State blob) (tile_bounds : TileBounds)
  : State blob * result TileDict :=
  let z := zoom tile_bounds in
  let min_x := min_tile_x tile_bounds in
  let max_x := max_tile_x tile_bounds in
  let min_y := min_tile_y tile_bounds in
  let max_y := max_tile_y tile_bounds in
  fetch_xs w f z (py_range min_x (max_x + 1)) (py_range min_y (max_y + 1))
           st [].

(** [total_tiles] as [fetch_tiles] computes it for its log message. *)
Definition total_tiles (tile_bounds : TileBounds) : Z :=
  (max_tile_x tile_bounds - min_tile_x tile_bounds + 1) *
  (max_tile_y tile_bounds - min_tile_y tile_bounds + 1).

(** ** Paths and URLs as strings

    The strings behind the cache files and the requests.  [str(i)] of an
    [int] is its decimal numeral, with a minus sign for a negative number. *)

Definition py_str (i : Z) : string :=
  DecimalString.NilZero.string_of_int (Z.to_int i).

(** [s.endswith('/')]. *)
Fixpoint endswith_sep (s : string) : bool :=
  match s with
  | EmptyString => false
  | String c EmptyString => Ascii.eqb c "/"
  | String _ rest => endswith_sep rest
  end.

(** One step of [os.path.join] on POSIX: a component that starts with a
    slash replaces the path, otherwise it is appended, after a slash unless
    the path is empty or ends with one. *)
Definition path_join (path b : string) : string :=
  if String.prefix "/" b then b
  else if String.eqb path "" || endswith_sep path then (path ++ b)%string
  else (path ++ "/" ++ b)%string.

(** The string that [_get_cache_path(z, x, y)] returns. *)
Definition cache_path_string (self : TileFetcher) (z x y : Z) : string :=
  let zoom_dir :=
    path_join (path_join (path_join (cache_dir self) (provider self))
                         (py_str z))
              (py_str x) in
  path_join zoom_dir (py_str y ++ ".png")%string.

(** [template.format(z=z, x=x, y=y)] for a template whose replacement fields
    are plain names; [{{] and [}}] stand for a brace.  [None] when [format]
    raises (an unknown name, a single closing brace, a field that is not
    closed) and for fields with an index, an attribute, a conversion or a
    format specification, which the templates of [PROVIDERS] do not use.
    [field] holds the name read so far inside a replacement field. *)
Fixpoint format_zxy (template : string) (field : option string) (z x y : Z)
  : option string :=
  match field, template with
  | None, EmptyString => Some EmptyString
  | None, String "{" (String "{" rest) =>
      option_map (String "{") (format_zxy rest None z x y)
  | None, String "}" (String "}" rest) =>
      option_map (String "}") (format_zxy rest None z x y)
  | None, String "{" rest => format_zxy rest (Some EmptyString) z x y
  | None, String "}" _ => None
  | None, String c rest => option_map (String c) (format_zxy rest None z x y)
  | Some _, EmptyString => None
  | Some name, String "}" rest =>
      let value :=
        if String.eqb name "z" then Some (py_str z)
        else if String.eqb name "x" then Some (py_str x)
        else if String.eqb name "y" then Some (py_str y)
        else None in
      match value, format_zxy rest None z x y with
      | Some v, Some r => Some (v ++ r)%string
      | _, _ => None
      end
  | Some name, String c rest =>
      if existsb (Ascii.eqb c) ["{"; "!"; ":"; "."; "["]%char then None
      else format_zxy rest (Some (name ++ String c EmptyString)%string) z x y
  end.

(** [_get_tile_url(z, x, y)]. *)
Definition _get_tile_url (self : TileFetcher) (z x y : Z) : option string :=
  let url_template := url (provider_config self) in
  format_zxy url_template None z x y.

(** ** image_stitcher.py *)

(** [range(start, stop, step)]: a zero step raises [ValueError]. *)
Definition py_range_step (start stop step : Z) : result (list Z) :=
  if step =? 0 then Raise ValueError
  else
    let len :=
      if 0 <? step then (stop - start + step - 1) / step
      else (start - stop - step - 1) / (- step) in
    Ok (map (fun i => start + Z.of_nat i * step) (seq 0 (Z.to_nat len))).

(** [ImageDraw.Draw(im).line([(x, y0), (x, y1)], fill, width=1)] and the
    horizontal counterpart: both end points belong to the line. *)
Definition draw_vline (im : Image) (x y0 y1 : Z) (fill : Pixel) : Image :=
  {| img_mode := img_mode im;
     img_size := img_size im;
     img_data :=
       match img_data im with
       | Some d => Some (fun px py =>
           if (px =? x) && (y0 <=? py) && (py <=? y1) then fill else d px py)
       | None => None
       end |}.

Definition draw_hline (im : Image) (y x0 x1 : Z) (fill : Pixel) : Image :=
  {| img_mode := img_mode im;
     img_size := img_size im;
     img_data :=
       match img_data im with
       | Some d => Some (fun px py =>
           if (py =? y) && (x0 <=? px) && (px <=? x1) then fill else d px py)
       | None => None
       end |}.

Module ImageStitcher.

(** The field [__init__] sets ([logger] apart); [tile_size] defaults to 256. *)
Record t : Type := { tile_size : Z }.

Definition init : t := {| tile_size := 256 |}.

(** The canvas colour of [stitch_tiles]: [(200, 200, 200)]. *)
Definition fill_color : Pixel := [200; 200; 200].

(** [(canvas_width, canvas_height)] of [stitch_tiles]. *)
Definition canvas_size (self : t) (tile_bounds : TileBounds) : Z * Z :=
  let min_x := min_tile_x tile_bounds in
  let max_x := max_tile_x tile_bounds in
  let min_y := min_tile_y tile_bounds in
  let max_y := max_tile_y tile_bounds in
  let tiles_wide := max_x - min_x + 1 in
  let tiles_high := max_y - min_y + 1 in
  let canvas_width := tiles_wide * tile_size self in
  let canvas_height := tiles_high * tile_size self in
  (canvas_width, canvas_height).

(** The offset [(canvas_x, canvas_y)] at which the tile [(tile_x, tile_y)]
    is pasted. *)
Definition canvas_offset (self : t) (tile_bounds : TileBounds)
  (tile_xy : Z * Z) : Z * Z :=
  let canvas_x := (fst tile_xy - min_tile_x tile_bounds) * tile_size self in
  let canvas_y := (snd tile_xy - min_tile_y tile_bounds) * tile_size self in
  (canvas_x, canvas_y).

(** The first statement of the [try] block: a tile that is not in RGB mode
    is converted. *)
Definition tile_rgb {blob : Type} (p : Pil blob) (tile_img : Image)
  : result Image :=
  if negb (String.eqb (img_mode tile_img) "RGB")
  then convert p tile_img "RGB" else Ok tile_img.

(** The [try] block of the loop: convert to RGB when needed, then paste. *)
Definition try_paste {blob : Type} (p : Pil blob) (canvas tile_img : Image)
  (box : Z * Z) : result Image :=
  tile_img' <- tile_rgb p tile_img ;;
  paste canvas tile_img' box.

(** One iteration of [for (tile_x, tile_y), tile_img in tiles.items()]: an
    exception of the [try] block is logged and the canvas stays as it was. *)
Definition place_tile {blob : Type} (p : Pil blob) (self : t)
  (tile_bounds : TileBounds) (canvas : Image) (item : (Z * Z) * Image)
  : Image :=
  let '(tile_xy, tile_img) := item in
  match try_paste p canvas tile_img (canvas_offset self tile_bounds tile_xy) with
  | Ok canvas' => canvas'
  | Raise _ => canvas
  end.

(** [stitch_tiles] up to the end of its loop: the canvas before any resize. *)
Definition stitch_canvas {blob : Type} (p : Pil blob) (self : t)
  (tiles : TileDict) (tile_bounds : TileBounds) : result Image :=
  canvas <- Image_new "RGB" (canvas_size self tile_bounds) fill_color ;;
  Ok (fold_left (place_tile p self tile_bounds) tiles canvas).

Definition size_eqb (a b : Z * Z) : bool :=
  (fst a =? fst b) && (snd a =? snd b).

(** [stitch_tiles(tiles, tile_bounds, output_size)]. *)
Definition stitch_tiles {blob : Type} (p : Pil blob) (self : t)
  (tiles : TileDict) (tile_bounds : TileBounds) (output_size : Z * Z)
  : result Image :=
  canvas <- stitch_canvas p self tiles tile_bounds ;;
  if negb (size_eqb (canvas_size self tile_bounds) output_size)
  then resize p canvas output_size
  else Ok canvas.

(** [add_grid_overlay(image, grid_spacing_m, meters_per_pixel, color, alpha)]. *)
Definition add_grid_overlay {blob : Type} (p : Pil blob) (image : Image)
  (grid_spacing_m meters_per_pixel : R) (color : Pixel) (alpha : Z)
  : result Image :=
  overlay <- Image_new "RGBA" (img_size image) [0; 0; 0; 0] ;;
  let '(width, height) := img_size image in
  spacing <- py_div grid_spacing_m meters_per_pixel ;;
  let grid_spacing_px := py_int spacing in
  xs <- py_range_step 0 width grid_spacing_px ;;
  let overlay :=
    fold_left (fun o x => draw_vline o x 0 height (color ++ [alpha])) xs overlay in
  ys <- py_range_step 0 height grid_spacing_px ;;
  let overlay :=
    fold_left (fun o y => draw_hline o y 0 width (color ++ [alpha])) ys overlay in
  image <- (if negb (String.eqb (img_mode image) "RGBA")
            then convert p image "RGBA" else Ok image) ;;
  alpha_composite p image overlay.

End ImageStitcher.

(** [a == b] on floats. *)
Definition py_float_eq (a b : R) : bool :=
  if Req_dec_T a b then true else false.

(** ** map_overlay_node.py

    The node keeps the position of the last fix, the last image it published
    and whether the map of the origin was fetched.  Its callbacks change
    these fields, the tile cache and the request log of its [TileFetcher],
    and the messages published so far.  The ROS client library and the
    conversions to arrays and messages are black boxes:
      - [draw_center_marker img]: the image after the two [ImageDraw.line]
        calls of [add_center_marker];
      - [image_to_numpy img]: [np.array(img)];
      - [reverse_channels a]: the slice [a[:, :, ::-1]];
      - [cv2_to_imgmsg a]: [CvBridge.cv2_to_imgmsg(a, encoding='bgr8')]
        ([None] when it raises).
    [publish] is taken to deliver the message, and [json.dumps] of the
    metadata dictionary is identified with the dictionary. *)

Module MapPublisherNode.

Record NodeWorld (blob arr msg : Type) : Type := {
  world : World blob;
  draw_center_marker : Image -> result Image;
  image_to_numpy : Image -> result arr;
  reverse_channels : arr -> result arr;
  cv2_to_imgmsg : arr -> option msg
}.

Arguments world {blob arr msg} _.
Arguments draw_center_marker {blob arr msg} _ _.
Arguments image_to_numpy {blob arr msg} _ _.
Arguments reverse_channels {blob arr msg} _ _.
Arguments cv2_to_imgmsg {blob arr msg} _ _.

(** The parameters that the callbacks read, and the two helpers that
    [__init__] builds. *)
Record t : Type := {
  coverage_meters : R;
  image_size : Z;
  tile_provider : string;
  update_on_movement : bool;
  movement_threshold : R;
  add_center_marker : bool;
  fetch_once_at_origin : bool;
  tile_fetcher : TileFetcher;
  image_stitcher : ImageStitcher.t
}.

(** A [NavSatFix] message, as far as [gps_callback] reads it. *)
Record NavSatFix : Type := {
  status : Z;
  latitude : R;
  longitude : R
}.

(** The dictionary [map_metadata]. *)
Record Metadata : Type := {
  md_center_lat : R;
  md_center_lon : R;
  md_coverage_meters : R;
  md_image_size : Z;
  md_zoom : Z;
  md_bbox : BoundingBox;
  md_provider : string
}.

(** A message on [/map_overlay/satellite_image] or on
    [/map_overlay/map_metadata]. *)
Inductive Published (msg : Type) : Type :=
| ImageMsg (ros_image : msg)
| MetadataMsg (data : Metadata).

Arguments ImageMsg {msg} ros_image.
Arguments MetadataMsg {msg} data.

(** The state that the callbacks change. *)
Record NodeState (blob arr msg : Type) : Type := {
  fetcher_state : State blob;
  center_lat : option R;
  center_lon : option R;
  last_published_position : option (R * R);
  last_published_image : option arr;
  map_metadata : option Metadata;
  map_fetched : bool;
  published : list (Published msg)
}.

Arguments fetcher_state {blob arr msg} _.
Arguments center_lat {blob arr msg} _.
Arguments center_lon {blob arr msg} _.
Arguments last_published_position {blob arr msg} _.
Arguments last_published_image {blob arr msg} _.
Arguments map_metadata {blob arr msg} _.
Arguments map_fetched {blob arr msg} _.
Arguments published {blob arr msg} _.

Section Callbacks.
Context {blob arr msg : Type} (nw : NodeWorld blob arr msg) (self : t).

Definition with_fetcher_state (s : NodeState blob arr msg) (fs : State blob)
  : NodeState blob arr msg :=
  {| fetcher_state := fs;
     center_lat := center_lat s;
     center_lon := center_lon s;
     last_published_position := last_published_position s;
     last_published_image := last_published_image s;
     map_metadata := map_metadata s;
     map_fetched := map_fetched s;
     published := published s |}.

(** [self.center_lat = lat] and [self.center_lon = lon]. *)
Definition set_center (s : NodeState blob arr msg) (lat lon : R)
  : NodeState blob arr msg :=
  {| fetcher_state := fetcher_state s;
     center_lat := Some lat;
     center_lon := Some lon;
     last_published_position := last_published_position s;
     last_published_image := last_published_image s;
     map_metadata := map_metadata s;
     map_fetched := map_fetched s;
     published := published s |}.

(** The three assignments after the conversion: the image, the position and
    the flag. *)
Definition store_image (s : NodeState blob arr msg) (lat lon : R)
  (img_array_bgr : arr) : NodeState blob arr msg :=
  {| fetcher_state := fetcher_state s;
     center_lat := center_lat s;
     center_lon := center_lon s;
     last_published_position := Some (lat, lon);
     last_published_image := Some img_array_bgr;
     map_metadata := map_metadata s;
     map_fetched := true;
     published := published s |}.

(** [self.map_metadata = ...]. *)
Definition set_metadata (s : NodeState blob arr msg) (md : Metadata)
  : NodeState blob arr msg :=
  {| fetcher_state := fetcher_state s;
     center_lat := center_lat s;
     center_lon := center_lon s;
     last_published_position := last_published_position s;
     last_published_image := last_published_image s;
     map_metadata := Some md;
     map_fetched := map_fetched s;
     published := published s |}.

(** [publisher.publish(m)]. *)
Definition publish (s : NodeState blob arr msg) (m : Published msg)
  : NodeState blob arr msg :=
  {| fetcher_state := fetcher_state s;
     center_lat := center_lat s;
     center_lon := center_lon s;
     last_published_position := last_published_position s;
     last_published_image := last_published_image s;
     map_metadata := map_metadata s;
     map_fetched := map_fetched s;
     published := published s ++ [m] |}.

(** [publish_image_and_metadata()]: an exception of the conversion is
    caught and logged. *)
Definition publish_image_and_metadata (s : NodeState blob arr msg)
  : NodeState blob arr msg :=
  match last_published_image s with
  | None => s
  | Some img =>
      match cv2_to_imgmsg nw img with
      | None => s
      | Some ros_image =>
          let s1 := publish s (ImageMsg ros_image) in
          match map_metadata s1 with
          | Some md => publish s1 (MetadataMsg md)
          | None => s1
          end
      end
  end.

(** [publish_timer_callback()]. *)
Definition publish_timer_callback (s : NodeState blob arr msg)
  : NodeState blob arr msg :=
  match last_published_image s with
  | Some _ => publish_image_and_metadata s
  | None => s
  end.

(** [should_update_map(lat, lon)]. *)
Definition should_update_map (s : NodeState blob arr msg) (lat lon : R)
  : result bool :=
  if fetch_once_at_origin self then
    if map_fetched s then Ok false else Ok true
  else
    match last_published_position s with
    | None => Ok true
    | Some (last_lat, last_lon) =>
        if negb (update_on_movement self) then Ok false
        else
          dist <- haversine_distance last_lat last_lon lat lon ;;
          if Rlt_dec (movement_threshold self) dist then Ok true
          else Ok false
    end.

(** The statements of [fetch_and_publish_map] after the conversion to an
    array: the assignments, the metadata, the publication.  An exception
    leaves the fields that were already assigned. *)
Definition store_and_publish (s : NodeState blob arr msg) (lat lon : R)
  (zoom : Z) (img_array_bgr : arr) : NodeState blob arr msg :=
  let s1 := store_image s lat lon img_array_bgr in
  match calculate_bounding_box lat lon (coverage_meters self)
          (coverage_meters self) with
  | Raise _ => s1
  | Ok bbox =>
      publish_image_and_metadata
        (set_metadata s1
           {| md_center_lat := lat;
              md_center_lon := lon;
              md_coverage_meters := coverage_meters self;
              md_image_size := image_size self;
              md_zoom := zoom;
              md_bbox := bbox;
              md_provider := tile_provider self |})
  end.

(** The statements between the stitching and the assignments: the marker
    and the conversion to a BGR array. *)
Definition to_bgr_array (stitched_image : Image) : result arr :=
  stitched_image <-
    (if add_center_marker self then draw_center_marker nw stitched_image
     else Ok stitched_image) ;;
  img_array <- image_to_numpy nw stitched_image ;;
  reverse_channels nw img_array.

(** [fetch_and_publish_map(lat, lon)]: every exception of the body is caught
    and logged, and the state is what the body had reached. *)
Definition fetch_and_publish_map (s : NodeState blob arr msg) (lat lon : R)
  : NodeState blob arr msg :=
  match calculate_optimal_zoom (coverage_meters self)
          (IZR (image_size self)) lat with
  | Raise _ => s
  | Ok zoom =>
      match get_tile_bounds lat lon (coverage_meters self)
              (coverage_meters self) zoom 1 with
      | Raise _ => s
      | Ok tile_bounds =>
          let (fs, r) := fetch_tiles (world nw) (tile_fetcher self)
                           (fetcher_state s) tile_bounds in
          let s1 := with_fetcher_state s fs in
          match r with
          | Raise _ => s1
          | Ok [] => s1
          | Ok tiles =>
              match
                (stitched_image <-
                   ImageStitcher.stitch_tiles (pil (world nw))
                     (image_stitcher self) tiles tile_bounds
                     (image_size self, image_size self) ;;
                 to_bgr_array stitched_image)
              with
              | Raise _ => s1
              | Ok img_array_bgr =>
                  store_and_publish s1 lat lon zoom img_array_bgr
              end
          end
      end
  end.

(** [gps_callback(msg)]: the state afterwards, and the exception that leaves
    the callback, if any ([should_update_map] is called outside any
    [try]). *)
Definition gps_callback (s : NodeState blob arr msg) (m : NavSatFix)
  : NodeState blob arr msg * result unit :=
  if status m <? 0 then (s, Ok tt)
  else
    let lat := latitude m in
    let lon := longitude m in
    if py_float_eq lat 0 && py_float_eq lon 0 then (s, Ok tt)
    else
      let s1 := set_center s lat lon in
      match should_update_map s1 lat lon with
      | Raise e => (s1, Raise e)
      | Ok true => (fetch_and_publish_map s1 lat lon, Ok tt)
      | Ok false => (s1, Ok tt)
      end.

(** What [rclpy.spin] hands to the node: a fix on the GPS topic or a tick of
    the publish timer.  The callbacks run one after the other, and an exception
    that leaves a callback ends the loop. *)
Inductive Event : Type :=
| GpsFix (m : NavSatFix)
| TimerTick.

Definition handle (s : NodeState blob arr msg) (e : Event)
  : NodeState blob arr msg * result unit :=
  match e with
  | GpsFix m => gps_callback s m
  | TimerTick => (publish_timer_callback s, Ok tt)
  end.

Fixpoint spin (s : NodeState blob arr msg) (events : list Event)
  : NodeState blob arr msg * result unit :=
  match events with
  | [] => (s, Ok tt)
  | e :: rest =>
      match handle s e with
      | (s1, Ok _) => spin s1 rest
      | (s1, Raise x) => (s1, Raise x)
      end
  end.

End Callbacks.

End MapPublisherNode.

(** ** Notions used to state the properties *)

(** The names the constructor accepts. *)
Definition provider_names : list string :=
  ["esri"%string; "osm"%string; "usgs"%string].

(** PNG is a lossless format: what [png_encode] produced is opened again as
    an image with the same mode, size and pixels. *)
Definition png_lossless {blob : Type} (p : Pil blob) : Prop :=
  forall img b,
    png_encode p img = Some b ->
    exists img', image_open p b = Some img' /\ pixel_identical img img'.

(** The contract of [resize]: a loaded image with positive sides, resized to
    a size with positive sides, comes back with exactly that size. *)
Definition resize_contract {blob : Type} (p : Pil blob) : Prop :=
  forall img size,
    img_data img <> None ->
    0 < fst (img_size img) -> 0 < snd (img_size img) ->
    0 < fst size -> 0 < snd size ->
    exists r, resize p img size = Ok r /\ img_size r = size.

(** The indices [(x, y)] of a rectangle, in the order [fetch_tiles] visits
    them. *)
Definition rect_keys (tile_bounds : TileBounds) : list (Z * Z) :=
  flat_map
    (fun x => map (fun y => (x, y))
                  (py_range (min_tile_y tile_bounds) (max_tile_y tile_bounds + 1)))
    (py_range (min_tile_x tile_bounds) (max_tile_x tile_bounds + 1)).

(** Whether [fetch_tile(z, x, y)], called in state [st], returns an image. *)
Definition fetch_succeeds {blob : Type} (w : World blob) (f : TileFetcher)
  (st : State blob) (z : Z) (xy : Z * Z) : bool :=
  match snd (fetch_tile w f st z (fst xy) (snd xy) true) with
  | Ok (Some _) => true
  | _ => false
  end.

(** The pixel [(px, py)] lies in the square of side [tile_size] whose upper
    left corner is the offset of the tile [tile_xy]. *)
Definition in_tile_region (self : ImageStitcher.t) (tile_bounds : TileBounds)
  (tile_xy : Z * Z) (px py : Z) : Prop :=
  let '(ox, oy) := ImageStitcher.canvas_offset self tile_bounds tile_xy in
  ox <= px < ox + ImageStitcher.tile_size self /\
  oy <= py < oy + ImageStitcher.tile_size self.

(** The pixels that the [try] block of [stitch_tiles] pastes for a tile:
    those of the tile in RGB mode, [None] when the conversion or the paste
    raises. *)
Definition pasted_pixels {blob : Type} (p : Pil blob) (tile_img : Image)
  : option (Z -> Z -> Pixel) :=
  match ImageStitcher.tile_rgb p tile_img with
  | Ok rgb => img_data rgb
  | Raise _ => None
  end.

(** The number of entries of a dictionary, [len(tiles)]. *)
Definition dict_len (tiles : TileDict) : Z := Z.of_nat (List.length tiles).

(** Whether [fetch_tile(z, x, y)], called in state [st], finds the tile in
    the cache: the cache file exists and can be opened and copied. *)
Definition served_from_cache {blob : Type} (w : World blob) (st : State blob)
  (z : Z) (xy : Z * Z) : bool :=
  match files st (z, fst xy, snd xy) with
  | Some b =>
      match load_cached w b with
      | Some _ => true
      | None => false
      end
  | None => false
  end.

(** The cache path of the tile [xy] at zoom [z]. *)
Definition tile_key (z : Z) (xy : Z * Z) : TileKey := (z, fst xy, snd xy).

(** The cache can keep every tile of a rectangle: each cache file can be
    written, and each image that a download of the rectangle yields can be
    encoded as PNG. *)
Definition cache_writable {blob : Type} (w : World blob) (f : TileFetcher)
  (tb : TileBounds) : Prop :=
  forall xy, In xy (rect_keys tb) ->
    write_ok w (tile_key (zoom tb) xy) = true /\
    forall code content img,
      http_get w (url (provider_config f)) (tile_key (zoom tb) xy)
        = HttpResponse code content ->
      image_open (pil w) content = Some img ->
      png_encode (pil w) img <> None.

(** Whether the character [c] occurs in [s]. *)
Fixpoint occurs (c : ascii) (s : string) : bool :=
  match s with
  | EmptyString => false
  | String d rest => Ascii.eqb d c || occurs c rest
  end.

(** ** Concrete worlds for the examples

    Encoded bytes are identified with the image they decode to. *)

Definition plain_pil : Pil Image :=
  {| image_open := fun b => Some b;
     png_encode := fun img =>
       match img_data img with Some _ => Some img | None => None end;
     convert_pixel := fun _ _ => Some (fun px => px);
     resize := fun img size =>
       Ok {| img_mode := img_mode img; img_size := size;
             img_data := img_data img |};
     alpha_composite := fun a _ => Ok a |}.

Definition sample_tile : Image :=
  {| img_mode := "RGB"; img_size := (256, 256);
     img_data := Some (fun _ _ => [10; 20; 30]) |}.

(** Every request is answered with status 200 and a tile; the cache
    directory is writable. *)
Definition online_world : World Image :=
  {| pil := plain_pil;
     http_get := fun _ _ => HttpResponse 200 sample_tile;
     makedirs_root := fun _ => true;
     makedirs_tile := fun _ _ => true;
     write_ok := fun _ => true;
     failed_write := fun _ => None |}.

(** The same network, but the cache directory exists and is not writable
    (it belongs to another user): [os.makedirs(cache_dir, exist_ok=True)]
    returns, creating a directory below it raises [PermissionError]. *)
Definition readonly_cache_world : World Image :=
  {| pil := plain_pil;
     http_get := fun _ _ => HttpResponse 200 sample_tile;
     makedirs_root := fun _ => true;
     makedirs_tile := fun _ _ => false;
     write_ok := fun _ => false;
     failed_write := fun _ => None |}.

(** The cache directory itself cannot be created. *)
Definition no_cache_dir_world : World Image :=
  {| pil := plain_pil;
     http_get := fun _ _ => HttpResponse 200 sample_tile;
     makedirs_root := fun _ => false;
     makedirs_tile := fun _ _ => false;
     write_ok := fun _ => false;
     failed_write := fun _ => None |}.

Definition empty_cache : State Image :=
  {| files := fun _ => None; requests := [] |}.

Definition esri_fetcher : TileFetcher :=
  {| provider := "esri";
     provider_config :=
       {| name := "Esri World Imagery";
          url := "https://server.arcgisonline.com/ArcGIS/rest/services/World_Imagery/MapServer/tile/{z}/{y}/{x}";
          max_zoom := 19;
          attribution := "Esri, DigitalGlobe, GeoEye, Earthstar Geographics, CNES/Airbus DS, USDA, USGS, AeroGRID, IGN, and the GIS User Community";
          tile_size := 256 |};
     cache_dir := "/tmp/map_tiles" |}.

Definition one_tile : TileBounds :=
  {| min_tile_x := 5; max_tile_x := 5; min_tile_y := 7; max_tile_y := 7;
     zoom := 4 |}.

Definition three_by_three : TileBounds :=
  {| min_tile_x := 4; max_tile_x := 6; min_tile_y := 6; max_tile_y := 8;
     zoom := 4 |}.

(** No request is answered in time; the cache directory is writable. *)
Definition offline_world : World Image :=
  {| pil := plain_pil;
     http_get := fun _ _ => HttpTimeout;
     makedirs_root := fun _ => true;
     makedirs_tile := fun _ _ => true;
     write_ok := fun _ => true;
     failed_write := fun _ => None |}.

(** A node with the default parameters, and one that follows the movement.
    Arrays and messages are identified with the image they come from. *)
Definition default_node : MapPublisherNode.t :=
  {| MapPublisherNode.coverage_meters := 500;
     MapPublisherNode.image_size := 1024;
     MapPublisherNode.tile_provider := "esri";
     MapPublisherNode.update_on_movement := false;
     MapPublisherNode.movement_threshold := 100;
     MapPublisherNode.add_center_marker := true;
     MapPublisherNode.fetch_once_at_origin := true;
     MapPublisherNode.tile_fetcher := esri_fetcher;
     MapPublisherNode.image_stitcher := ImageStitcher.init |}.

Definition moving_node : MapPublisherNode.t :=
  {| MapPublisherNode.coverage_meters := 500;
     MapPublisherNode.image_size := 1024;
     MapPublisherNode.tile_provider := "esri";
     MapPublisherNode.update_on_movement := true;
     MapPublisherNode.movement_threshold := 100;
     MapPublisherNode.add_center_marker := true;
     MapPublisherNode.fetch_once_at_origin := false;
     MapPublisherNode.tile_fetcher := esri_fetcher;
     MapPublisherNode.image_stitcher := ImageStitcher.init |}.

Definition online_node_world : MapPublisherNode.NodeWorld Image Image Image :=
  {| MapPublisherNode.world := online_world;
     MapPublisherNode.draw_center_marker := fun img => Ok img;
     MapPublisherNode.image_to_numpy := fun img => Ok img;
     MapPublisherNode.reverse_channels := fun a => Ok a;
     MapPublisherNode.cv2_to_imgmsg := fun a => Some a |}.

Definition offline_node_world : MapPublisherNode.NodeWorld Image Image Image :=
  {| MapPublisherNode.world := offline_world;
     MapPublisherNode.draw_center_marker := fun img => Ok img;
     MapPublisherNode.image_to_numpy := fun img => Ok img;
     MapPublisherNode.reverse_channels := fun a => Ok a;
     MapPublisherNode.cv2_to_imgmsg := fun a => Some a |}.

(** The state after [__init__], and a state in which a map was stored. *)
Definition initial_state : MapPublisherNode.NodeState Image Image Image :=
  {| MapPublisherNode.fetcher_state := empty_cache;
     MapPublisherNode.center_lat := None;
     MapPublisherNode.center_lon := None;
     MapPublisherNode.last_published_position := None;
     MapPublisherNode.last_published_image := None;
     MapPublisherNode.map_metadata := None;
     MapPublisherNode.map_fetched := false;
     MapPublisherNode.published := [] |}.

Definition fetched_state : MapPublisherNode.NodeState Image Image Image :=
  MapPublisherNode.store_image initial_state 37.7749 (-122.4194) sample_tile.

(** A fix at San Francisco, a message without a fix. *)
Definition sf_fix : MapPublisherNode.NavSatFix :=
  {| MapPublisherNode.status := 0;
     MapPublisherNode.latitude := 37.7749;
     MapPublisherNode.longitude := -122.4194 |}.

Definition no_fix : MapPublisherNode.NavSatFix :=
  {| MapPublisherNode.status := -1;
     MapPublisherNode.latitude := 37.7749;
     MapPublisherNode.longitude := -122.4194 |}.

(** * Properties

    The theorems below settle the claims of the specification against the
    embedding above.  A theorem that decides a claim carries the claim's
    identifier in its comment. *)

(** ** Coordinates *)

Section CoordinateProperties.
Local Open Scope R_scope.

(** *** [int] and [round] *)

Lemma py_int_IZR (z : Z) : py_int (IZR z) = z.
Proof.
  unfold py_int. destruct (Rle_dec 0 (IZR z)).
  - apply ZfloorZ.
  - unfold Zceil. rewrite ZfloorNZ. lia.
Qed.

Lemma py_int_le (r1 r2 : R) : r1 <= r2 -> (py_int r1 <= py_int r2)%Z.
Proof.
  intros H. unfold py_int.
  destruct (Rle_dec 0 r1) as [H1|H1], (Rle_dec 0 r2) as [H2|H2].
  - now apply Zfloor_le.
  - lra.
  - apply Z.le_trans with 0%Z.
    + assert (Zceil r1 <= Zceil 0)%Z by (apply Zceil_le; lra).
      replace (Zceil 0) with 0%Z in H0; [assumption|].
      symmetry. apply Zceil_eq. simpl. lra.
    + apply Zfloor_lub. simpl. lra.
  - now apply Zceil_le.
Qed.

Lemma py_int_nonneg (r : R) :
  0 <= r -> (0 <= py_int r)%Z /\ IZR (py_int r) <= r < IZR (py_int r) + 1.
Proof.
  intros H. unfold py_int. destruct (Rle_dec 0 r); [|lra].
  split; [apply Zfloor_lub; simpl; lra | apply Zfloor_bound].
Qed.

Lemma py_int_lt_bound (r : R) (k : Z) : 0 <= r -> r < IZR k -> (0 <= py_int r < k)%Z.
Proof.
  intros H0 Hk. destruct (py_int_nonneg r H0) as [Hn [Hl Hu]].
  split; [assumption|]. apply lt_IZR. lra.
Qed.

Lemma py_int_ge (r : R) (k : Z) : IZR k <= r -> (k <= py_int r)%Z.
Proof.
  intros H. rewrite <- (py_int_IZR k). now apply py_int_le.
Qed.

Lemma py_int_lt (r : R) (k : Z) : (0 < k)%Z -> r < IZR k -> (py_int r < k)%Z.
Proof.
  intros Hk H. unfold py_int. destruct (Rle_dec 0 r).
  - apply lt_IZR. generalize (Zfloor_bound r). lra.
  - assert (Zceil r <= 0)%Z; [|lia].
    apply le_IZR. generalize (Zceil_bound r). intros. 
    assert (IZR (Zceil r) - 1 < 0) by lra.
    assert (IZR (Zceil r) < 1) by lra. apply lt_IZR in H2. apply IZR_le. lia.
Qed.

Lemma py_round_cases (r : R) : py_round r = Zfloor r \/ py_round r = (Zfloor r + 1)%Z.
Proof.
  unfold py_round. cbv zeta.
  destruct (Rlt_dec _ _); [now left|].
  destruct (Rlt_dec _ _); [now right|].
  destruct (Z.even _); [now left | now right].
Qed.

Lemma py_round_le (r1 r2 : R) : r1 <= r2 -> (py_round r1 <= py_round r2)%Z.
Proof.
  intros H.
  assert (Hf : (Zfloor r1 <= Zfloor r2)%Z) by now apply Zfloor_le.
  destruct (Z.eq_dec (Zfloor r1) (Zfloor r2)) as [E|E].
  - unfold py_round. cbv zeta. rewrite E.
    destruct (Rlt_dec (r1 - IZR (Zfloor r2)) (1 / 2)),
             (Rlt_dec (r2 - IZR (Zfloor r2)) (1 / 2));
    destruct (Rlt_dec (1 / 2) (r1 - IZR (Zfloor r2))),
             (Rlt_dec (1 / 2) (r2 - IZR (Zfloor r2)));
    destruct (Z.even (Zfloor r2)); try lia; lra.
  - destruct (py_round_cases r1) as [-> | ->], (py_round_cases r2) as [-> | ->]; lia.
Qed.

(** *** Angles and powers of two *)

Lemma radians_degrees (r : R) : radians (degrees r) = r.
Proof. unfold radians, degrees. field. apply PI_neq0. Qed.

Lemma pow2_pos (z : Z) : 0 < powerRZ 2 z.
Proof. apply powerRZ_lt; lra. Qed.

Lemma cos_radians_pos (lat : R) : Rabs lat < 90 -> 0 < cos (radians lat).
Proof.
  intros H. apply Rabs_def2 in H. destruct H as [H1 H2].
  assert (Hpi := PI_RGT_0).
  apply cos_gt_0; unfold radians; nra.
Qed.

Lemma ln2_pos : 0 < ln 2.
Proof. rewrite <- ln_1. apply ln_increasing; lra. Qed.

Lemma PI_gt_3 : 3 < PI.
Proof. generalize PI2_3_2. lra. Qed.

Lemma powerRZ_2_IZR (z : Z) : (0 <= z)%Z -> powerRZ 2 z = IZR (2 ^ z).
Proof.
  intros Hz. rewrite <- (Z2Nat.id z) by assumption.
  rewrite <- pow_powerRZ, <- pow_IZR. reflexivity.
Qed.

Lemma degrees_nonneg (r : R) : 0 <= r -> 0 <= degrees r.
Proof.
  intros H. unfold degrees. assert (Hpi := PI_RGT_0).
  apply Rmult_le_pos; [assumption|]. left. apply Rdiv_lt_0_compat; lra.
Qed.

Lemma degrees_le (r : R) : 0 <= r -> 0 <= degrees r <= 60 * r.
Proof.
  intros H. assert (Hpi := PI_gt_3). unfold degrees. split.
  - apply Rmult_le_pos; [assumption|]. left. apply Rdiv_lt_0_compat; lra.
  - rewrite (Rmult_comm 60). apply Rmult_le_compat_l; [assumption|].
    apply Rmult_le_reg_r with PI; [lra|].
    unfold Rdiv. rewrite Rmult_assoc, Rinv_l by lra. lra.
Qed.

(** *** Round trip through a tile corner *)

(** C4, as amended.  In exact arithmetic the two conversions are inverse on
    tile corners: for every point and every zoom, the top-left corner that
    [tile_to_lat_lon] returns for the tile of the point maps back to the
    index of that tile.  The corner lies on the boundary of its tile, so the
    identity does not carry over to the rounded arithmetic of doubles
    (section [Binary64Properties] below). *)
Theorem tile_roundtrip (lat lon : R) (z : Z) :
  let '(x, y) := lat_lon_to_tile lat lon z in
  let '(lat', lon') := tile_to_lat_lon x y z in
  lat_lon_to_tile lat' lon' z = (x, y).
Proof.
  unfold lat_lon_to_tile, tile_to_lat_lon. cbv beta zeta.
  set (n := powerRZ 2 z).
  assert (Hn : n <> 0) by (apply Rgt_not_eq, pow2_pos).
  set (x := py_int ((lon + 180) / 360 * n)).
  set (y := py_int ((1 - arcsinh (tan (radians lat)) / PI) / 2 * n)).
  rewrite radians_degrees, tan_atan, arcsinh_sinh.
  f_equal.
  - replace ((IZR x / n * 360 - 180 + 180) / 360 * n) with (IZR x)
      by (field; assumption).
    apply py_int_IZR.
  - replace ((1 - PI * (1 - 2 * IZR y / n) / PI) / 2 * n) with (IZR y)
      by (field; split; [assumption | apply PI_neq0]).
    apply py_int_IZR.
Qed.

(** *** Zoom selection *)

Lemma calculate_optimal_zoom_ok (w s lat : R) :
  0 < w -> 0 < s -> Rabs lat < 90 ->
  calculate_optimal_zoom w s lat =
  Ok (Z.max 0 (Z.min 19 (py_round
        (ln (156543.03392 * cos (radians lat) / (w / s)) / ln 2)))).
Proof.
  intros Hw Hs Hlat. unfold calculate_optimal_zoom, py_div, py_log2. cbv zeta.
  assert (Hc := cos_radians_pos lat Hlat).
  destruct (Req_dec_T s 0) as [E|_]; [lra|]. cbn [bind].
  assert (Ht : 0 < w / s) by (apply Rdiv_lt_0_compat; assumption).
  destruct (Req_dec_T (w / s) 0) as [E|_]; [lra|]. cbn [bind].
  assert (Hr : 0 < 156543.03392 * cos (radians lat) / (w / s)).
  { apply Rdiv_lt_0_compat; [|assumption]. apply Rmult_lt_0_compat; [lra|assumption]. }
  destruct (Rlt_dec 0 _) as [_|N]; [|contradiction]. reflexivity.
Qed.

(** C5.  For a positive image size and a latitude strictly between the
    poles, [calculate_optimal_zoom] returns a zoom for every positive width;
    the zoom lies in [0, 19], and a larger width never gets a larger
    zoom. *)
Theorem optimal_zoom_monotone (s lat w1 w2 : R) :
  0 < s -> Rabs lat < 90 -> 0 < w1 -> w1 <= w2 ->
  exists z1 z2 : Z,
    calculate_optimal_zoom w1 s lat = Ok z1 /\
    calculate_optimal_zoom w2 s lat = Ok z2 /\
    (z2 <= z1)%Z /\ (0 <= z1 <= 19)%Z /\ (0 <= z2 <= 19)%Z.
Proof.
  intros Hs Hlat Hw1 Hw.
  assert (Hw2 : 0 < w2) by lra.
  rewrite (calculate_optimal_zoom_ok w1 s lat Hw1 Hs Hlat).
  rewrite (calculate_optimal_zoom_ok w2 s lat Hw2 Hs Hlat).
  eexists. eexists. split; [reflexivity|]. split; [reflexivity|].
  split; [|lia].
  assert (Hc := cos_radians_pos lat Hlat).
  set (m := 156543.03392 * cos (radians lat)).
  assert (Hm : 0 < m) by (apply Rmult_lt_0_compat; [lra|assumption]).
  assert (Ht1 : 0 < w1 / s) by (apply Rdiv_lt_0_compat; assumption).
  assert (Ht2 : 0 < w2 / s) by (apply Rdiv_lt_0_compat; assumption).
  assert (Hratio : m / (w2 / s) <= m / (w1 / s)).
  { unfold Rdiv at 1 3. apply Rmult_le_compat_l; [lra|].
    apply Rinv_le_contravar; [assumption|].
    unfold Rdiv. apply Rmult_le_compat_r; [|assumption].
    left. now apply Rinv_0_lt_compat. }
  assert (Hln : ln (m / (w2 / s)) <= ln (m / (w1 / s))).
  { destruct Hratio as [L|E].
    - left. apply ln_increasing; [|assumption]. now apply Rdiv_lt_0_compat.
    - rewrite E. right. reflexivity. }
  assert (Hq : ln (m / (w2 / s)) / ln 2 <= ln (m / (w1 / s)) / ln 2).
  { unfold Rdiv at 1 3. apply Rmult_le_compat_r; [|assumption].
    left. apply Rinv_0_lt_compat, ln2_pos. }
  apply py_round_le in Hq. lia.
Qed.

(** The theorem at 500 m and 1000 m, 1024 pixels, latitude 37.7749. *)
Lemma optimal_zoom_monotone_example :
  exists z1 z2 : Z,
    calculate_optimal_zoom 500 1024 37.7749 = Ok z1 /\
    calculate_optimal_zoom 1000 1024 37.7749 = Ok z2 /\
    (z2 <= z1)%Z /\ (0 <= z1 <= 19)%Z /\ (0 <= z2 <= 19)%Z.
Proof.
  apply (optimal_zoom_monotone 1024 37.7749 500 1000).
  - lra.
  - rewrite Rabs_pos_eq; lra.
  - lra.
  - lra.
Defined.

(** *** The padded tile rectangle *)

Lemma lat_lon_to_tile_fst (lat lon : R) (z : Z) :
  fst (lat_lon_to_tile lat lon z) = py_int ((lon + 180) / 360 * powerRZ 2 z).
Proof. reflexivity. Qed.

Lemma lat_lon_to_tile_snd (lat lon : R) (z : Z) :
  snd (lat_lon_to_tile lat lon z) =
  py_int ((1 - arcsinh (tan (radians lat)) / PI) / 2 * powerRZ 2 z).
Proof. reflexivity. Qed.

Lemma tile_x_mono (lat1 lat2 lon1 lon2 : R) (z : Z) :
  lon1 <= lon2 ->
  (fst (lat_lon_to_tile lat1 lon1 z) <= fst (lat_lon_to_tile lat2 lon2 z))%Z.
Proof.
  intros H. rewrite !lat_lon_to_tile_fst. apply py_int_le.
  assert (Hn := pow2_pos z). nra.
Qed.

Lemma mercator_mono (a b : R) :
  - PI / 2 < a -> a <= b -> b < PI / 2 -> arcsinh (tan a) <= arcsinh (tan b).
Proof.
  intros Ha [Hab | ->] Hb; [|right; reflexivity].
  left. apply arcsinh_lt. now apply tan_increasing.
Qed.

Lemma tile_y_antimono (lat1 lat2 lon1 lon2 : R) (z : Z) :
  -90 < lat1 -> lat1 <= lat2 -> lat2 < 90 ->
  (snd (lat_lon_to_tile lat2 lon2 z) <= snd (lat_lon_to_tile lat1 lon1 z))%Z.
Proof.
  intros H1 H12 H2. rewrite !lat_lon_to_tile_snd. apply py_int_le.
  assert (Hn := pow2_pos z). assert (Hpi := PI_RGT_0).
  assert (Hm : arcsinh (tan (radians lat1)) <= arcsinh (tan (radians lat2))).
  { apply mercator_mono; unfold radians; nra. }
  apply Rmult_le_compat_r; [lra|].
  apply Rmult_le_compat_r; [lra|].
  apply Rplus_le_compat_l, Ropp_le_contravar.
  apply Rmult_le_compat_r; [|assumption].
  left. now apply Rinv_0_lt_compat.
Qed.

Lemma get_tile_bounds_ok (clat clon w h : R) (z p : Z) :
  Rabs clat < 90 ->
  let dlat := degrees (h / 2 / 6378137) in
  let dlon := degrees (w / 2 / (6378137 * cos (radians clat))) in
  calculate_bounding_box clat clon w h =
    Ok {| min_lat := clat - dlat; max_lat := clat + dlat;
          min_lon := clon - dlon; max_lon := clon + dlon |} /\
  get_tile_bounds clat clon w h z p =
    Ok {| min_tile_x := fst (lat_lon_to_tile (clat - dlat) (clon - dlon) z) - p;
          max_tile_x := fst (lat_lon_to_tile (clat + dlat) (clon + dlon) z) + p;
          min_tile_y := snd (lat_lon_to_tile (clat + dlat) (clon + dlon) z) - p;
          max_tile_y := snd (lat_lon_to_tile (clat - dlat) (clon - dlon) z) + p;
          zoom := z |}.
Proof.
  intros Hlat dlat dlon.
  assert (Hc := cos_radians_pos clat Hlat).
  assert (E : calculate_bounding_box clat clon w h =
    Ok {| min_lat := clat - dlat; max_lat := clat + dlat;
          min_lon := clon - dlon; max_lon := clon + dlon |}).
  { unfold calculate_bounding_box, meters_to_lat_lon_offset, py_div. cbv zeta.
    destruct (Req_dec_T _ 0) as [E|_]; [nra|]. reflexivity. }
  split; [exact E|].
  unfold get_tile_bounds. rewrite E. reflexivity.
Qed.

(** C1, as amended.  When the bounding box stays strictly between the poles
    (its southern edge above -90 degrees and its northern edge below 90),
    [get_tile_bounds] returns a rectangle that spans at least [1 + 2 * padding]
    tiles on each axis and contains the tile of each of the four corners of
    the bounding box. *)
Theorem get_tile_bounds_padded (clat clon w h : R) (z p : Z) :
  Rabs clat < 90 -> 0 <= w -> 0 <= h -> (0 <= p)%Z ->
  -90 < clat - degrees (h / 2 / 6378137) ->
  clat + degrees (h / 2 / 6378137) < 90 ->
  exists tb bbox,
    get_tile_bounds clat clon w h z p = Ok tb /\
    calculate_bounding_box clat clon w h = Ok bbox /\
    (max_tile_x tb - min_tile_x tb + 1 >= 1 + 2 * p)%Z /\
    (max_tile_y tb - min_tile_y tb + 1 >= 1 + 2 * p)%Z /\
    forall lat lon,
      In lat [min_lat bbox; max_lat bbox] ->
      In lon [min_lon bbox; max_lon bbox] ->
      (min_tile_x tb <= fst (lat_lon_to_tile lat lon z) <= max_tile_x tb)%Z /\
      (min_tile_y tb <= snd (lat_lon_to_tile lat lon z) <= max_tile_y tb)%Z.
Proof.
  intros Hlat Hw Hh Hp Hlo Hhi.
  destruct (get_tile_bounds_ok clat clon w h z p Hlat) as [Eb Et].
  cbv zeta in Eb, Et.
  set (dlat := degrees (h / 2 / 6378137)) in *.
  set (dlon := degrees (w / 2 / (6378137 * cos (radians clat)))) in *.
  assert (Hc := cos_radians_pos clat Hlat).
  assert (Hdlat : 0 <= dlat) by (apply degrees_nonneg; lra).
  assert (Hdlon : 0 <= dlon).
  { apply degrees_nonneg. apply Rmult_le_pos; [lra|].
    left. apply Rinv_0_lt_compat. nra. }
  eexists. eexists. split; [exact Et|]. split; [exact Eb|].
  cbn [min_tile_x max_tile_x min_tile_y max_tile_y min_lat max_lat min_lon max_lon].
  assert (Hx : forall a b, (fst (lat_lon_to_tile a (clon - dlon) z)
                            <= fst (lat_lon_to_tile b (clon + dlon) z))%Z).
  { intros a b. apply tile_x_mono. lra. }
  assert (Hy : forall a b, (snd (lat_lon_to_tile (clat + dlat) a z)
                            <= snd (lat_lon_to_tile (clat - dlat) b z))%Z).
  { intros a b. apply tile_y_antimono; lra. }
  assert (Hxx : forall a b l, fst (lat_lon_to_tile a l z) = fst (lat_lon_to_tile b l z))
    by reflexivity.
  assert (Hyy : forall a b l, snd (lat_lon_to_tile l a z) = snd (lat_lon_to_tile l b z))
    by reflexivity.
  split; [specialize (Hx (clat - dlat) (clat + dlat)); lia|].
  split; [specialize (Hy (clon + dlon) (clon - dlon)); lia|].
  intros lat lon Hlat' Hlon'.
  assert (Bx : (fst (lat_lon_to_tile (clat - dlat) (clon - dlon) z)
                <= fst (lat_lon_to_tile lat lon z)
                <= fst (lat_lon_to_tile (clat + dlat) (clon + dlon) z))%Z).
  { destruct Hlon' as [<- | [<- | []]].
    - rewrite (Hxx lat (clat - dlat)). split; [lia | apply Hx].
    - rewrite (Hxx lat (clat + dlat)). split; [apply Hx | lia]. }
  assert (By : (snd (lat_lon_to_tile (clat + dlat) (clon + dlon) z)
                <= snd (lat_lon_to_tile lat lon z)
                <= snd (lat_lon_to_tile (clat - dlat) (clon - dlon) z))%Z).
  { destruct Hlat' as [<- | [<- | []]].
    - rewrite (Hyy lon (clon - dlon)). split; [apply Hy | lia].
    - rewrite (Hyy lon (clon + dlon)). split; [lia | apply Hy]. }
  lia.
Qed.

(** The theorem at San Francisco: 500 m around (37.7749, -122.4194), zoom 17,
    padding 1. *)
Lemma get_tile_bounds_padded_example :
  exists tb bbox,
    get_tile_bounds 37.7749 (-122.4194) 500 500 17 1 = Ok tb /\
    calculate_bounding_box 37.7749 (-122.4194) 500 500 = Ok bbox /\
    (max_tile_x tb - min_tile_x tb + 1 >= 1 + 2 * 1)%Z /\
    (max_tile_y tb - min_tile_y tb + 1 >= 1 + 2 * 1)%Z /\
    forall lat lon,
      In lat [min_lat bbox; max_lat bbox] ->
      In lon [min_lon bbox; max_lon bbox] ->
      (min_tile_x tb <= fst (lat_lon_to_tile lat lon 17) <= max_tile_x tb)%Z /\
      (min_tile_y tb <= snd (lat_lon_to_tile lat lon 17) <= max_tile_y tb)%Z.
Proof.
  assert (D := degrees_le (500 / 2 / 6378137) ltac:(lra)).
  apply (get_tile_bounds_padded 37.7749 (-122.4194) 500 500 17 1).
  - rewrite Rabs_pos_eq; lra.
  - lra.
  - lra.
  - lia.
  - lra.
  - lra.
Defined.

(** Past the pole the tangent changes sign: a latitude in the first quadrant
    lands in the upper half of the grid, one between 90 and 180 degrees in the
    lower half. *)
Lemma tan_neg_second_quadrant (x : R) : PI / 2 < x -> x < PI -> tan x < 0.
Proof.
  intros H1 H2. unfold tan.
  assert (Hs : 0 < sin x) by (apply sin_gt_0; lra).
  assert (Hc : cos x < 0) by (apply cos_lt_0; lra).
  unfold Rdiv. rewrite <- (Rmult_0_r (sin x)).
  apply Rmult_lt_compat_l; [assumption|].
  now apply Rinv_lt_0_compat.
Qed.

Lemma tile_y_north (lat lon : R) (z : Z) :
  (1 <= z)%Z -> 0 < radians lat < PI / 2 ->
  (snd (lat_lon_to_tile lat lon z) < 2 ^ (z - 1))%Z.
Proof.
  intros Hz [H1 H2]. rewrite lat_lon_to_tile_snd.
  assert (Hpi := PI_RGT_0).
  assert (Ht : 0 < arcsinh (tan (radians lat))).
  { rewrite <- arcsinh_0. apply arcsinh_lt. now apply tan_gt_0. }
  assert (Hn : powerRZ 2 z = 2 * IZR (2 ^ (z - 1))).
  { replace z with (1 + (z - 1))%Z at 1 by lia.
    rewrite powerRZ_add by lra. rewrite powerRZ_1.
    f_equal. rewrite <- (Z2Nat.id (z - 1)) by lia.
    rewrite <- pow_powerRZ, <- pow_IZR. reflexivity. }
  assert (Hk : (0 < 2 ^ (z - 1))%Z) by (apply Z.pow_pos_nonneg; lia).
  apply py_int_lt; [assumption|].
  rewrite Hn. apply IZR_lt in Hk.
  assert (0 < arcsinh (tan (radians lat)) / PI) by (apply Rdiv_lt_0_compat; assumption).
  nra.
Qed.

Lemma tile_y_beyond_pole (lat lon : R) (z : Z) :
  (1 <= z)%Z -> PI / 2 < radians lat < PI ->
  (2 ^ (z - 1) <= snd (lat_lon_to_tile lat lon z))%Z.
Proof.
  intros Hz [H1 H2]. rewrite lat_lon_to_tile_snd.
  assert (Hpi := PI_RGT_0).
  assert (Ht : arcsinh (tan (radians lat)) < 0).
  { rewrite <- arcsinh_0. apply arcsinh_lt. now apply tan_neg_second_quadrant. }
  assert (Hn : powerRZ 2 z = 2 * IZR (2 ^ (z - 1))).
  { replace z with (1 + (z - 1))%Z at 1 by lia.
    rewrite powerRZ_add by lra. rewrite powerRZ_1.
    f_equal. rewrite <- (Z2Nat.id (z - 1)) by lia.
    rewrite <- pow_powerRZ, <- pow_IZR. reflexivity. }
  assert (Hk : (0 < 2 ^ (z - 1))%Z) by (apply Z.pow_pos_nonneg; lia).
  apply py_int_ge.
  rewrite Hn. apply IZR_lt in Hk.
  assert (0 < - arcsinh (tan (radians lat)) / PI) by (apply Rdiv_lt_0_compat; lra).
  nra.
Qed.

(** C1, counterexample.  5 km around latitude 89.99: the northern edge of
    the bounding box lies past the pole, its row index is larger than the one
    of the southern edge, and the returned rectangle is one tile high, not
    three. *)
Lemma get_tile_bounds_across_pole :
  Rabs 89.99 < 90 /\ 0 <= 5000 /\ (0 <= 1)%Z /\
  exists tb,
    get_tile_bounds 89.99 0 5000 5000 1 1 = Ok tb /\
    ~ (max_tile_y tb - min_tile_y tb + 1 >= 1 + 2 * 1)%Z.
Proof.
  assert (Hlat : Rabs 89.99 < 90) by (rewrite Rabs_pos_eq; lra).
  split; [exact Hlat|]. split; [lra|]. split; [lia|].
  destruct (get_tile_bounds_ok 89.99 0 5000 5000 1 1 Hlat) as [_ Et].
  cbv zeta in Et. eexists. split; [exact Et|].
  cbn [max_tile_y min_tile_y].
  assert (Hpi3 := PI_gt_3). assert (Hpi4 := PI_4).
  set (dlat := degrees (5000 / 2 / 6378137)).
  assert (Hd : radians dlat = 2500 / 6378137).
  { unfold dlat. rewrite radians_degrees. lra. }
  assert (Hrad : forall a b, radians (a + b) = radians a + radians b)
    by (intros; unfold radians; ring).
  assert (Hradm : forall a b, radians (a - b) = radians a - radians b)
    by (intros; unfold radians; ring).
  assert (Hc : radians 89.99 = 89.99 * PI / 180) by (unfold radians; field).
  assert (N := tile_y_north (89.99 - dlat)
                 (0 - degrees (5000 / 2 / (6378137 * cos (radians 89.99)))) 1).
  assert (S := tile_y_beyond_pole (89.99 + dlat)
                 (0 + degrees (5000 / 2 / (6378137 * cos (radians 89.99)))) 1).
  rewrite Hradm, Hd in N. rewrite Hrad, Hd in S.
  assert (B1 : 0 < radians 89.99 - 2500 / 6378137 < PI / 2) by (rewrite Hc; split; lra).
  assert (B2 : PI / 2 < radians 89.99 + 2500 / 6378137 < PI) by (rewrite Hc; split; lra).
  specialize (N (Z.le_refl 1) B1). specialize (S (Z.le_refl 1) B2).
  change (2 ^ (1 - 1))%Z with 1%Z in N, S. lia.
Qed.

(** *** The range of the tile index

    The latitude 85.05 lies just below the limit of the Mercator square,
    [atan (sinh PI)] (85.0511... degrees).  The bound needs numbers: [PI] from
    Machin's series, [exp PI] from sixteen squarings of [1 + x <= exp x], and
    the Taylor bounds of sine and cosine. *)

Lemma PI_lower : 3.14159 < PI.
Proof.
  destruct (PI_2_3_7_ineq 2) as [H _].
  unfold sum_f_R0, tg_alt, PI_2_3_7_tg, Ratan_seq in H.
  simpl in H.
  lra.
Qed.

Lemma exp_PI_lower : 23.1388 < exp PI.
Proof.
  assert (Hstep : forall y b c, 0 <= b -> b <= exp y -> c <= b * b -> c <= exp (2 * y)).
  { intros y b c Hb Hy Hc. replace (2 * y) with (y + y) by ring.
    rewrite exp_plus. apply Rle_trans with (1 := Hc).
    apply Rmult_le_compat; assumption. }
  assert (H0 : 1 + 3.14159 / 65536 <= exp (3.14159 / 65536)).
  { left. apply exp_ineq1. lra. }
  assert (H1 : 1.000095876016 <= exp (3.14159 / 32768)).
  { replace (3.14159 / 32768) with (2 * (3.14159 / 65536)) by field.
    apply Hstep with (2 := H0); lra. }
  assert (H2 : 1.000191761224 <= exp (3.14159 / 16384)).
  { replace (3.14159 / 16384) with (2 * (3.14159 / 32768)) by field.
    apply Hstep with (2 := H1); lra. }
  assert (H3 : 1.000383559220 <= exp (3.14159 / 8192)).
  { replace (3.14159 / 8192) with (2 * (3.14159 / 16384)) by field.
    apply Hstep with (2 := H2); lra. }
  assert (H4 : 1.000767265557 <= exp (3.14159 / 4096)).
  { replace (3.14159 / 4096) with (2 * (3.14159 / 8192)) by field.
    apply Hstep with (2 := H3); lra. }
  assert (H5 : 1.001535119810 <= exp (3.14159 / 2048)).
  { replace (3.14159 / 2048) with (2 * (3.14159 / 4096)) by field.
    apply Hstep with (2 := H4); lra. }
  assert (H6 : 1.003072596212 <= exp (3.14159 / 1024)).
  { replace (3.14159 / 1024) with (2 * (3.14159 / 2048)) by field.
    apply Hstep with (2 := H5); lra. }
  assert (H7 : 1.006154633271 <= exp (3.14159 / 512)).
  { replace (3.14159 / 512) with (2 * (3.14159 / 1024)) by field.
    apply Hstep with (2 := H6); lra. }
  assert (H8 : 1.012347146052 <= exp (3.14159 / 256)).
  { replace (3.14159 / 256) with (2 * (3.14159 / 512)) by field.
    apply Hstep with (2 := H7); lra. }
  assert (H9 : 1.024846744119 <= exp (3.14159 / 128)).
  { replace (3.14159 / 128) with (2 * (3.14159 / 256)) by field.
    apply Hstep with (2 := H8); lra. }
  assert (H10 : 1.050310848931 <= exp (3.14159 / 64)).
  { replace (3.14159 / 64) with (2 * (3.14159 / 128)) by field.
    apply Hstep with (2 := H9); lra. }
  assert (H11 : 1.103152879382 <= exp (3.14159 / 32)).
  { replace (3.14159 / 32) with (2 * (3.14159 / 64)) by field.
    apply Hstep with (2 := H10); lra. }
  assert (H12 : 1.216946275288 <= exp (3.14159 / 16)).
  { replace (3.14159 / 16) with (2 * (3.14159 / 32)) by field.
    apply Hstep with (2 := H11); lra. }
  assert (H13 : 1.480958236937 <= exp (3.14159 / 8)).
  { replace (3.14159 / 8) with (2 * (3.14159 / 16)) by field.
    apply Hstep with (2 := H12); lra. }
  assert (H14 : 2.193237299551 <= exp (3.14159 / 4)).
  { replace (3.14159 / 4) with (2 * (3.14159 / 8)) by field.
    apply Hstep with (2 := H13); lra. }
  assert (H15 : 4.810289852141 <= exp (3.14159 / 2)).
  { replace (3.14159 / 2) with (2 * (3.14159 / 4)) by field.
    apply Hstep with (2 := H14); lra. }
  assert (H16 : 23.138888461610 <= exp (3.14159)).
  { replace (3.14159) with (2 * (3.14159 / 2)) by field.
    apply Hstep with (2 := H15); lra. }
  assert (Hpi := PI_lower).
  assert (Hm : exp 3.14159 < exp PI) by (apply exp_increasing; assumption).
  lra.
Qed.

Lemma sinh_PI_lower : 11.5476 < sinh PI.
Proof.
  unfold sinh. rewrite exp_Ropp.
  assert (H := exp_PI_lower).
  assert (Hi : / exp PI < / 23).
  { apply Rinv_lt_contravar; [|lra]. apply Rmult_lt_0_compat; lra. }
  lra.
Qed.

Lemma tan_complement (t : R) : tan (PI / 2 - t) = cos t / sin t.
Proof.
  unfold tan. rewrite (cos_shift t), (sin_shift t). reflexivity.
Qed.

Lemma mercator_limit : tan (85.05 * (PI / 180)) < sinh PI.
Proof.
  assert (Hpi := PI_lower). assert (Hpi4 := PI_4).
  replace (85.05 * (PI / 180)) with (PI / 2 - 11 * PI / 400) by lra.
  rewrite tan_complement.
  set (t := 11 * PI / 400). set (t0 := 11 * 3.14159 / 400).
  assert (Ht0 : t0 < t) by (unfold t, t0; lra).
  assert (Hs : 0.0862862 < sin t).
  { apply Rlt_trans with (sin t0).
    - apply Rlt_le_trans with (sin_approx t0 (2 * 0 + 1)).
      + unfold sin_approx, sin_term, sum_f_R0, t0. simpl. lra.
      + apply pre_sin_bound; unfold t0; lra.
    - apply sin_increasing_1; unfold t, t0 in *; lra. }
  assert (Hc : cos t < 0.9962704).
  { apply Rlt_trans with (cos t0).
    - apply cos_decreasing_1; unfold t, t0 in *; lra.
    - apply Rle_lt_trans with (cos_approx t0 (2 * (0 + 1))).
      + apply pre_cos_bound; unfold t0; lra.
      + unfold cos_approx, cos_term, sum_f_R0, t0. simpl. lra. }
  assert (Hsh := sinh_PI_lower).
  apply Rlt_trans with 11.5476; [|assumption].
  apply Rmult_lt_reg_r with (sin t); [lra|].
  unfold Rdiv. rewrite Rmult_assoc, Rinv_l by lra. lra.
Qed.

Lemma sinh_opp (x : R) : sinh (- x) = - sinh x.
Proof. unfold sinh. rewrite Ropp_involutive. lra. Qed.

Lemma arcsinh_opp (x : R) : arcsinh (- x) = - arcsinh x.
Proof.
  rewrite <- (sinh_arcsinh x) at 1. rewrite <- sinh_opp. apply arcsinh_sinh.
Qed.

Lemma mercator_range (lat : R) :
  -85.05 <= lat <= 85.05 -> - PI < arcsinh (tan (radians lat)) < PI.
Proof.
  intros [Hlo Hhi].
  assert (Hpi := PI_RGT_0).
  assert (Hlim : arcsinh (tan (radians 85.05)) < PI).
  { apply Rlt_le_trans with (arcsinh (sinh PI)); [|right; apply arcsinh_sinh].
    apply arcsinh_lt. exact mercator_limit. }
  assert (Hup : forall l, -85.05 <= l <= 85.05 ->
                 arcsinh (tan (radians l)) <= arcsinh (tan (radians 85.05))).
  { intros l [Hl1 Hl2]. apply mercator_mono; unfold radians; nra. }
  split.
  - assert (H := Hup (- lat) ltac:(lra)).
    replace (radians (- lat)) with (- radians lat) in H by (unfold radians; ring).
    rewrite tan_neg, arcsinh_opp in H. lra.
  - assert (H := Hup lat ltac:(lra)). lra.
Qed.

(** C2, as amended.  For a zoom [z >= 0], a latitude in [-85.05, 85.05] and
    a longitude in [-180, 180], the row index lies in [0, 2^z) and the column
    index in [0, 2^z]; the column index is below [2^z] for every longitude
    below 180, and it is [2^z] itself at longitude 180. *)
Theorem lat_lon_to_tile_range (lat lon : R) (z : Z) :
  (0 <= z)%Z -> -85.05 <= lat <= 85.05 -> -180 <= lon <= 180 ->
  let '(x, y) := lat_lon_to_tile lat lon z in
  (0 <= y < 2 ^ z)%Z /\ (0 <= x <= 2 ^ z)%Z /\
  (lon < 180 -> (x < 2 ^ z)%Z) /\ (lon = 180 -> x = (2 ^ z)%Z).
Proof.
  intros Hz Hlat [Hlo Hhi].
  unfold lat_lon_to_tile. cbv zeta.
  rewrite (powerRZ_2_IZR z Hz).
  assert (Hk : (0 < 2 ^ z)%Z) by (apply Z.pow_pos_nonneg; lia).
  assert (Hn : 0 < IZR (2 ^ z)) by (apply IZR_lt; assumption).
  assert (Hpi := PI_RGT_0).
  destruct (mercator_range lat Hlat) as [Ha1 Ha2].
  set (a := arcsinh (tan (radians lat))) in *.
  assert (Hq : -1 < a / PI < 1).
  { split.
    - apply Rmult_lt_reg_r with PI; [assumption|].
      unfold Rdiv. rewrite Rmult_assoc, Rinv_l by lra. lra.
    - apply Rmult_lt_reg_r with PI; [assumption|].
      unfold Rdiv. rewrite Rmult_assoc, Rinv_l by lra. lra. }
  split; [apply py_int_lt_bound; nra|].
  assert (Hx : 0 <= (lon + 180) / 360 * IZR (2 ^ z) <= IZR (2 ^ z)) by (split; nra).
  split; [|split].
  - split; [apply py_int_nonneg; lra|].
    rewrite <- (py_int_IZR (2 ^ z)) at 2. apply py_int_le. lra.
  - intros Hlt. apply py_int_lt_bound; nra.
  - intros ->. replace ((180 + 180) / 360 * IZR (2 ^ z)) with (IZR (2 ^ z)) by field.
    apply py_int_IZR.
Qed.

(** The theorem at the corner (85.05, -180), zoom 19. *)
Lemma lat_lon_to_tile_range_example :
  let '(x, y) := lat_lon_to_tile 85.05 (-180) 19 in
  (0 <= y < 2 ^ 19)%Z /\ (0 <= x <= 2 ^ 19)%Z /\
  (-180 < 180 -> (x < 2 ^ 19)%Z) /\ (-180 = 180 -> x = (2 ^ 19)%Z).
Proof.
  apply (lat_lon_to_tile_range 85.05 (-180) 19).
  - lia.
  - lra.
  - lra.
Defined.

(** C2, counterexample.  At longitude 180 and zoom 0 the column index is 1,
    outside [0, 2^0). *)
Lemma lat_lon_to_tile_antimeridian :
  ~ (forall (z : Z) (lat lon : R),
       (0 <= z)%Z -> -85.05 <= lat <= 85.05 -> -180 <= lon <= 180 ->
       (0 <= fst (lat_lon_to_tile lat lon z) < 2 ^ z)%Z /\
       (0 <= snd (lat_lon_to_tile lat lon z) < 2 ^ z)%Z).
Proof.
  intros H.
  destruct (H 0%Z 85.05 180 ltac:(lia) ltac:(lra) ltac:(lra)) as [[_ Hx] _].
  rewrite lat_lon_to_tile_fst in Hx.
  replace ((180 + 180) / 360 * powerRZ 2 0) with (IZR 1) in Hx by (simpl; lra).
  rewrite py_int_IZR in Hx. simpl in Hx. lia.
Qed.

End CoordinateProperties.

(** ** Coordinates in binary64

    What the exact identities become when a [float] is a double.  The
    statements hold for every C library: they only use the column index, which
    is computed with sums, products and quotients alone. *)

Section Binary64Properties.
Import Floats.

Lemma bind_Ok {A B : Type} (m : result A) (k : A -> result B) (b : B) :
  (x <- m ;; k x) = Ok b -> exists a, m = Ok a /\ k a = Ok b.
Proof.
  destruct m as [a | e]; cbn; [eauto | discriminate].
Qed.

(** The column index depends on the longitude and the zoom alone. *)
Lemma lat_lon_to_tile_b64_column (m : Binary64.Libm) (lat lon : float)
  (zoom x y : Z) :
  Binary64.lat_lon_to_tile m lat lon zoom = Ok (x, y) ->
  exists n, Binary64.pow2 zoom = Ok n /\
            Binary64.int ((lon + 180) / 360 * n)%float = Ok x.
Proof.
  unfold Binary64.lat_lon_to_tile. intros H.
  apply bind_Ok in H as (n & Hn & H).
  apply bind_Ok in H as (x0 & Hx & H).
  apply bind_Ok in H as (t & _ & H).
  apply bind_Ok in H as (a & _ & H).
  apply bind_Ok in H as (y0 & _ & H).
  injection H as <- <-. eauto.
Qed.

(** The longitude of a tile corner depends on the column and the zoom
    alone. *)
Lemma tile_to_lat_lon_b64_lon (m : Binary64.Libm) (x y zoom : Z)
  (lat lon : float) :
  Binary64.tile_to_lat_lon m x y zoom = Ok (lat, lon) ->
  exists n xf q, Binary64.pow2 zoom = Ok n /\
                 Binary64.float_of_int x = Ok xf /\
                 Binary64.truediv xf n = Ok q /\
                 lon = (q * 360 - 180)%float.
Proof.
  unfold Binary64.tile_to_lat_lon. intros H.
  apply bind_Ok in H as (n & Hn & H).
  apply bind_Ok in H as (xf & Hx & H).
  apply bind_Ok in H as (q & Hq & H).
  apply bind_Ok in H as (yf & _ & H).
  apply bind_Ok in H as (r & _ & H).
  apply bind_Ok in H as (s & _ & H).
  apply bind_Ok in H as (l & _ & H).
  injection H as _ <-. eauto 10.
Qed.

(** C4, counterexample.  The point (0, 86.15349337925545) at zoom 48 lies in
    column 208098745417737.  The longitude of that column's corner is
    rounded to 86.1534933792542, which lies in column 208098745417736: with
    no C library does the corner of the tile map back to the index of the
    tile. *)
Lemma tile_roundtrip_binary64 :
  ~ exists (m : Binary64.Libm) (x y : Z) (lat' lon' : float),
      Binary64.lat_lon_to_tile m 0 Binary64.lon_86 48 = Ok (x, y) /\
      Binary64.tile_to_lat_lon m x y 48 = Ok (lat', lon') /\
      Binary64.lat_lon_to_tile m lat' lon' 48 = Ok (x, y).
Proof.
  intros (m & x & y & lat' & lon' & H1 & H2 & H3).
  apply lat_lon_to_tile_b64_column in H1 as (n & Hn & Hx).
  vm_compute in Hn. injection Hn as <-.
  vm_compute in Hx. injection Hx as <-.
  apply tile_to_lat_lon_b64_lon in H2 as (n & xf & q & Hn & Hxf & Hq & ->).
  vm_compute in Hn. injection Hn as <-.
  vm_compute in Hxf. injection Hxf as <-.
  vm_compute in Hq. injection Hq as <-.
  apply lat_lon_to_tile_b64_column in H3 as (n & Hn & Hx).
  vm_compute in Hn. injection Hn as <-.
  vm_compute in Hx. discriminate Hx.
Qed.

(** A check of the column index of a longitude, run over a list of zooms,
    carries over to every call of [lat_lon_to_tile] at one of these zooms. *)
Lemma column_at_b64 (m : Binary64.Libm) (lat lon : float) (zs : list Z)
  (zoom x y : Z) :
  forallb (fun z =>
             match Binary64.pow2 z with
             | Ok n =>
                 match Binary64.int ((lon + 180) / 360 * n)%float with
                 | Ok c => (c =? 2 ^ z)%Z
                 | Raise _ => false
                 end
             | Raise _ => false
             end) zs = true ->
  In zoom zs ->
  Binary64.lat_lon_to_tile m lat lon zoom = Ok (x, y) ->
  x = (2 ^ zoom)%Z.
Proof.
  intros Hall Hin H.
  rewrite forallb_forall in Hall. specialize (Hall zoom Hin).
  apply lat_lon_to_tile_b64_column in H as (n & Hn & Hx).
  rewrite Hn, Hx in Hall. lia.
Qed.

(** The antimeridian in binary64: at longitude 180 the column index is
    [2^zoom] at every zoom from 0 to 19, with every C library and at every
    latitude. *)
Lemma lat_lon_to_tile_b64_antimeridian (m : Binary64.Libm) (lat : float)
  (zoom x y : Z) :
  (0 <= zoom <= 19)%Z ->
  Binary64.lat_lon_to_tile m lat 180 zoom = Ok (x, y) ->
  x = (2 ^ zoom)%Z.
Proof.
  intros Hz.
  apply (column_at_b64 m lat 180%float (map Z.of_nat (seq 0 20))).
  - vm_compute. reflexivity.
  - apply in_map_iff. exists (Z.to_nat zoom). split; [lia |].
    apply in_seq. lia.
Qed.

(** The last double below 180 shares that column: the quotient
    [(lon + 180.0) / 360.0] rounds to 1.0. *)
Lemma lat_lon_to_tile_b64_below_antimeridian (m : Binary64.Libm)
  (lat : float) (zoom x y : Z) :
  (0 <= zoom <= 19)%Z ->
  Binary64.lat_lon_to_tile m lat Binary64.lon_below_180 zoom = Ok (x, y) ->
  x = (2 ^ zoom)%Z.
Proof.
  intros Hz.
  apply (column_at_b64 m lat Binary64.lon_below_180
           (map Z.of_nat (seq 0 20))).
  - vm_compute. reflexivity.
  - apply in_map_iff. exists (Z.to_nat zoom). split; [lia |].
    apply in_seq. lia.
Qed.

End Binary64Properties.

(** ** The tile fetcher *)

(** *** Construction *)

Lemma providers_get_known (p : string) :
  In p provider_names -> exists cfg, providers_get PROVIDERS p = Some cfg.
Proof.
  intros [<- | [<- | [<- | []]]]; eexists; reflexivity.
Qed.

Lemma providers_get_unknown (p : string) :
  ~ In p provider_names -> providers_get PROVIDERS p = None.
Proof.
  intros H. unfold PROVIDERS. cbn [providers_get].
  destruct (String.eqb_spec p "esri") as [->|_]; [exfalso; apply H; cbn; tauto|].
  destruct (String.eqb_spec p "osm") as [->|_]; [exfalso; apply H; cbn; tauto|].
  destruct (String.eqb_spec p "usgs") as [->|_]; [exfalso; apply H; cbn; tauto|].
  reflexivity.
Qed.

(** C9, as amended.  A provider name outside the table makes the constructor
    raise [ValueError], whatever the cache directory.  A name of the table
    never does: the constructor then returns the fetcher when the cache
    directory can be created, and lets the error of [os.makedirs] through
    when it cannot. *)
Theorem TileFetcher_init_spec {blob : Type} (w : World blob) (p dir : string) :
  (~ In p provider_names -> TileFetcher_init w p dir = Raise ValueError) /\
  (In p provider_names ->
     TileFetcher_init w p dir <> Raise ValueError /\
     (makedirs_root w dir = true ->
        exists f, TileFetcher_init w p dir = Ok f /\
                  provider f = p /\ cache_dir f = dir /\
                  providers_get PROVIDERS p = Some (provider_config f)) /\
     (makedirs_root w dir = false -> TileFetcher_init w p dir = Raise OSError)).
Proof.
  split.
  - intros H. unfold TileFetcher_init. now rewrite (providers_get_unknown p H).
  - intros H. destruct (providers_get_known p H) as [cfg E].
    unfold TileFetcher_init. rewrite E.
    destruct (makedirs_root w dir); repeat split; try discriminate.
    intros _. eexists. repeat split.
Qed.

(** C9, counterexample.  The provider 'esri' with a cache directory that
    cannot be created: the constructor raises. *)
Lemma TileFetcher_init_no_cache_dir :
  In "esri"%string provider_names /\
  TileFetcher_init no_cache_dir_world "esri" "/proc/map_tiles" = Raise OSError.
Proof. split; [cbn; tauto | reflexivity]. Qed.

(** *** One tile *)

Lemma key_eqb_eq (a b : TileKey) : key_eqb a b = true <-> a = b.
Proof.
  destruct a as [[az ax] ay], b as [[bz bx] by_]. unfold key_eqb.
  rewrite !andb_true_iff, !Z.eqb_eq. split.
  - intros [[-> ->] ->]. reflexivity.
  - intros [= -> -> ->]. auto.
Qed.

Lemma key_eqb_refl (a : TileKey) : key_eqb a a = true.
Proof. now apply key_eqb_eq. Qed.

Lemma key_eqb_neq (a b : TileKey) : a <> b -> key_eqb a b = false.
Proof.
  intros H. destruct (key_eqb a b) eqn:E; [|reflexivity].
  apply key_eqb_eq in E. contradiction.
Qed.

(** C6.  With a lossless PNG codec: when a first call of [fetch_tile] with
    caching sends one request, returns the image it received and writes it
    to the cache, a second call for the same index returns a pixel-identical
    image from the cache file, leaves the state as it is and so sends no
    request: one request in total. *)
Theorem fetch_tile_twice {blob : Type} (w : World blob) (f : TileFetcher)
  (st st1 : State blob) (z x y : Z) (img1 : Image) (b : blob) :
  png_lossless (pil w) ->
  fetch_tile w f st z x y true = (st1, Ok (Some img1)) ->
  requests st1 = requests st ++ [(z, x, y)] ->
  png_encode (pil w) img1 = Some b -> write_ok w (z, x, y) = true ->
  exists img2 st2,
    fetch_tile w f st1 z x y true = (st2, Ok (Some img2)) /\
    pixel_identical img1 img2 /\
    files st1 (z, x, y) = Some b /\
    image_open (pil w) b = Some img2 /\
    requests st2 = requests st1 /\
    (List.length (requests st2) <= List.length (requests st) + 1)%nat.
Proof.
  intros Hpng H1 Hreq Henc Hw.
  unfold fetch_tile, _get_cache_path in H1 |- *.
  destruct (makedirs_tile w z x); [|discriminate].
  cbv zeta in H1.
  assert (Hnet : fetch_from_provider w f st (z, x, y) true = (st1, Ok (Some img1))).
  { destruct (match files st (z, x, y) with Some b0 => load_cached w b0 | None => None end)
      as [img|] eqn:Ec; [|assumption].
    injection H1 as <- _. exfalso.
    apply (f_equal (@List.length _)) in Hreq. rewrite length_app in Hreq.
    cbn in Hreq. lia. }
  clear H1.
  unfold fetch_from_provider in Hnet.
  destruct (http_get w (url (provider_config f)) (z, x, y))
    as [code content| |]; try discriminate.
  destruct (code =? 200); [|discriminate].
  destruct (image_open (pil w) content) as [img|]; [|discriminate].
  injection Hnet as <- <-.
  assert (Hfile : files (save_png w (log_request st (z, x, y)) (z, x, y) img) (z, x, y)
                  = Some b).
  { unfold save_png. rewrite Henc, Hw. unfold write_file. cbn [files].
    now rewrite key_eqb_refl. }
  destruct (Hpng img b Henc) as [img2 [Hopen Hid]].
  exists img2. eexists. rewrite Hfile. cbv zeta. unfold load_cached. rewrite Hopen.
  destruct Hid as [Hm [Hs [da [db [Ha [Hb Hpx]]]]]].
  rewrite Hb. split; [reflexivity|]. split.
  - repeat split; try assumption. exists da, db. auto.
  - split; [reflexivity|]. split; [reflexivity|]. split; [reflexivity|].
    rewrite Hreq, length_app. cbn. lia.
Qed.

Lemma plain_pil_lossless : png_lossless plain_pil.
Proof.
  intros img b. cbn. destruct (img_data img) as [d|] eqn:E; [|discriminate].
  intros [= <-]. exists img. split; [reflexivity|].
  repeat split. exists d, d. auto.
Qed.

(** The theorem for tile 4/5/7 of the provider 'esri', empty cache. *)
Lemma fetch_tile_twice_example :
  let st1 := fst (fetch_tile online_world esri_fetcher empty_cache 4 5 7 true) in
  exists img2 st2,
    fetch_tile online_world esri_fetcher st1 4 5 7 true = (st2, Ok (Some img2)) /\
    pixel_identical sample_tile img2 /\
    files st1 (4, 5, 7) = Some sample_tile /\
    image_open plain_pil sample_tile = Some img2 /\
    requests st2 = requests st1 /\
    (List.length (requests st2) <= List.length (requests empty_cache) + 1)%nat.
Proof.
  apply (fetch_tile_twice online_world esri_fetcher empty_cache _ 4 5 7
           sample_tile sample_tile).
  - exact plain_pil_lossless.
  - reflexivity.
  - reflexivity.
  - reflexivity.
  - reflexivity.
Defined.

(** *** What one call changes and what it depends on *)

Section Batch.
Context {blob : Type} (w : World blob) (f : TileFetcher).

Lemma fetch_from_provider_frame (st st' : State blob) (key : TileKey)
  (c : bool) (r : result (option Image)) :
  fetch_from_provider w f st key c = (st', r) ->
  (exists o, r = Ok o) /\ forall k, k <> key -> files st' k = files st k.
Proof.
  unfold fetch_from_provider.
  destruct (http_get w (url (provider_config f)) key) as [code content| |].
  - destruct (code =? 200).
    + destruct (image_open (pil w) content) as [img|].
      * intros [= <- <-]. split; [eexists; reflexivity|].
        intros k Hk. destruct c; [|reflexivity].
        unfold save_png.
        destruct (png_encode (pil w) img); [destruct (write_ok w key)|];
          unfold write_file; cbn [files]; now rewrite (key_eqb_neq k key Hk).
      * intros [= <- <-]. split; [eexists|]; reflexivity.
    + intros [= <- <-]. split; [eexists|]; reflexivity.
  - intros [= <- <-]. split; [eexists|]; reflexivity.
  - intros [= <- <-]. split; [eexists|]; reflexivity.
Qed.

Lemma fetch_from_provider_local (st1 st2 : State blob) (key : TileKey) (c : bool) :
  snd (fetch_from_provider w f st1 key c) = snd (fetch_from_provider w f st2 key c).
Proof.
  unfold fetch_from_provider.
  destruct (http_get w (url (provider_config f)) key) as [code content| |];
    try reflexivity.
  destruct (code =? 200); [|reflexivity].
  destruct (image_open (pil w) content); reflexivity.
Qed.

Lemma fetch_tile_frame (st st' : State blob) (z x y : Z) (c : bool)
  (r : result (option Image)) :
  fetch_tile w f st z x y c = (st', r) ->
  forall k, k <> (z, x, y) -> files st' k = files st k.
Proof.
  unfold fetch_tile, _get_cache_path.
  destruct (makedirs_tile w z x); [|intros [= <- _]; reflexivity].
  cbv zeta.
  destruct (if c then _ else _) as [img|].
  - intros [= <- _]. reflexivity.
  - intros H. now apply fetch_from_provider_frame in H.
Qed.

Lemma fetch_tile_returns (st : State blob) (z x y : Z) (c : bool) :
  makedirs_tile w z x = true ->
  exists o, snd (fetch_tile w f st z x y c) = Ok o.
Proof.
  intros Hd. unfold fetch_tile, _get_cache_path. rewrite Hd. cbv zeta.
  destruct (if c then _ else _) as [img|].
  - eexists. reflexivity.
  - destruct (fetch_from_provider w f st (z, x, y) c) as [st' r] eqn:E.
    apply fetch_from_provider_frame in E. destruct E as [[o ->] _].
    eexists. reflexivity.
Qed.

Lemma fetch_tile_raises (st : State blob) (z x y : Z) (c : bool) :
  makedirs_tile w z x = false ->
  fetch_tile w f st z x y c = (st, Raise OSError).
Proof.
  intros Hd. unfold fetch_tile, _get_cache_path. now rewrite Hd.
Qed.

Lemma fetch_tile_local (st1 st2 : State blob) (z x y : Z) (c : bool) :
  files st1 (z, x, y) = files st2 (z, x, y) ->
  snd (fetch_tile w f st1 z x y c) = snd (fetch_tile w f st2 z x y c).
Proof.
  intros E. unfold fetch_tile, _get_cache_path.
  destruct (makedirs_tile w z x); [|reflexivity].
  cbv zeta. rewrite E.
  destruct (if c then _ else _) as [img|]; [reflexivity|].
  apply fetch_from_provider_local.
Qed.

Lemma fetch_succeeds_local (st1 st2 : State blob) (z : Z) (xy : Z * Z) :
  files st1 (z, fst xy, snd xy) = files st2 (z, fst xy, snd xy) ->
  fetch_succeeds w f st1 z xy = fetch_succeeds w f st2 z xy.
Proof.
  intros E. unfold fetch_succeeds. now rewrite (fetch_tile_local st1 st2).
Qed.

End Batch.

(** *** The dictionary *)

Lemma xy_eqb_eq (a b : Z * Z) : xy_eqb a b = true <-> a = b.
Proof.
  destruct a, b. unfold xy_eqb. cbn. rewrite andb_true_iff, !Z.eqb_eq.
  split; [intros [-> ->]; reflexivity | intros [= -> ->]; auto].
Qed.

Lemma dict_set_fresh (tiles : TileDict) (k : Z * Z) (img : Image) :
  ~ In k (map fst tiles) -> dict_set tiles k img = tiles ++ [(k, img)].
Proof.
  induction tiles as [|[k' img'] rest IH]; intros H; [reflexivity|].
  cbn [dict_set]. destruct (xy_eqb k k') eqn:E.
  - apply xy_eqb_eq in E. subst. exfalso. apply H. now left.
  - cbn. f_equal. apply IH. intros Hin. apply H. now right.
Qed.

(** *** The ranges *)

Lemma py_range_length (a b : Z) : List.length (py_range a b) = Z.to_nat (b - a).
Proof. unfold py_range. now rewrite length_map, length_seq. Qed.

Lemma py_range_In (a b v : Z) : In v (py_range a b) <-> a <= v < b.
Proof.
  unfold py_range. rewrite in_map_iff. split.
  - intros [i [<- Hi]]. apply in_seq in Hi. lia.
  - intros H. exists (Z.to_nat (v - a)). split; [lia|]. apply in_seq. lia.
Qed.

Lemma py_range_NoDup (a b : Z) : NoDup (py_range a b).
Proof.
  unfold py_range. apply Injective_map_NoDup; [|apply seq_NoDup].
  intros i j H. lia.
Qed.

(** *** The loops of [fetch_tiles] *)

Section Loops.
Context {blob : Type} (w : World blob) (f : TileFetcher) (z : Z)
        (st0 : State blob).

Lemma fetch_ys_spec (x : Z) (ys : list Z) :
  forall (st : State blob) (tiles : TileDict),
    NoDup ys -> makedirs_tile w z x = true ->
    (forall y, In y ys -> ~ In (x, y) (map fst tiles)) ->
    (forall y, In y ys -> files st (z, x, y) = files st0 (z, x, y)) ->
    exists st' tiles',
      fetch_ys w f z x ys st tiles = (st', Ok tiles') /\
      map fst tiles' =
        map fst tiles ++ filter (fetch_succeeds w f st0 z) (map (pair x) ys) /\
      (forall k, (forall y, In y ys -> k <> (z, x, y)) -> files st' k = files st k).
Proof.
  induction ys as [|y rest IH]; intros st tiles Hnd Hdir Hfresh Hfiles.
  - exists st, tiles. cbn. rewrite app_nil_r. auto.
  - inversion Hnd as [|? ? Hy Hrest]; subst.
    cbn [fetch_ys map filter].
    destruct (fetch_tile w f st z x y true) as [st1 r] eqn:E.
    assert (Hframe := fetch_tile_frame w f st st1 z x y true r E).
    destruct (fetch_tile_returns w f st z x y true Hdir) as [o Ho].
    rewrite E in Ho. cbn in Ho. subst r.
    assert (Hs : fetch_succeeds w f st0 z (x, y) =
                 match o with Some _ => true | None => false end).
    { rewrite <- (fetch_succeeds_local w f st st0 z (x, y))
        by (apply Hfiles; now left).
      unfold fetch_succeeds. cbn [fst snd]. rewrite E. reflexivity. }
    assert (Hfiles1 : forall y', In y' rest ->
                        files st1 (z, x, y') = files st0 (z, x, y')).
    { intros y' Hy'. rewrite Hframe.
      - apply Hfiles. now right.
      - intros [= ->]. contradiction. }
    destruct o as [img|].
    + rewrite dict_set_fresh by (apply Hfresh; now left).
      destruct (IH st1 (tiles ++ [((x, y), img)]) Hrest Hdir) as
        [st' [tiles' [Hrun [Hkeys Hfr]]]]; [|assumption|].
      { intros y' Hy'. rewrite map_app, in_app_iff. cbn.
        intros [Hin | [[= ->] | []]]; [|contradiction].
        revert Hin. apply Hfresh. now right. }
      exists st', tiles'. split; [exact Hrun|]. split.
      * rewrite Hkeys, Hs, map_app. cbn. now rewrite <- app_assoc.
      * intros k Hk. rewrite Hfr by (intros; apply Hk; now right).
        apply Hframe, Hk. now left.
    + destruct (IH st1 tiles Hrest Hdir) as
        [st' [tiles' [Hrun [Hkeys Hfr]]]]; [|assumption|].
      { intros y' Hy'. apply Hfresh. now right. }
      exists st', tiles'. split; [exact Hrun|]. split.
      * now rewrite Hkeys, Hs.
      * intros k Hk. rewrite Hfr by (intros; apply Hk; now right).
        apply Hframe, Hk. now left.
Qed.

Lemma fetch_xs_spec (ys : list Z) (Hys : NoDup ys) (xs : list Z) :
  forall (st : State blob) (tiles : TileDict),
    NoDup xs ->
    (forall x, In x xs -> makedirs_tile w z x = true) ->
    (forall x y, In x xs -> In y ys -> ~ In (x, y) (map fst tiles)) ->
    (forall x y, In x xs -> In y ys -> files st (z, x, y) = files st0 (z, x, y)) ->
    exists st' tiles',
      fetch_xs w f z xs ys st tiles = (st', Ok tiles') /\
      map fst tiles' =
        map fst tiles ++
        filter (fetch_succeeds w f st0 z)
               (flat_map (fun x => map (pair x) ys) xs).
Proof.
  induction xs as [|x rest IH]; intros st tiles Hnd Hdir Hfresh Hfiles.
  - exists st, tiles. cbn. rewrite app_nil_r. auto.
  - inversion Hnd as [|? ? Hx Hrest]; subst.
    cbn [fetch_xs flat_map].
    destruct (fetch_ys_spec x ys st tiles Hys) as [st1 [tiles1 [Hrun [Hkeys Hfr]]]].
    + apply Hdir. now left.
    + intros y Hy. apply Hfresh; [now left | assumption].
    + intros y Hy. apply Hfiles; [now left | assumption].
    + rewrite Hrun.
      destruct (IH st1 tiles1 Hrest) as [st' [tiles' [Hrun' Hkeys']]].
      * intros x' Hx'. apply Hdir. now right.
      * intros x' y Hx' Hy. rewrite Hkeys, in_app_iff.
        intros [Hin | Hin].
        -- revert Hin. apply Hfresh; [now right | assumption].
        -- apply filter_In in Hin. destruct Hin as [Hin _].
           apply in_map_iff in Hin. destruct Hin as [y' [[= -> ->] _]].
           contradiction.
      * intros x' y Hx' Hy. rewrite Hfr.
        -- apply Hfiles; [now right | assumption].
        -- intros y' _ [= ->]. contradiction.
      * exists st', tiles'. split; [exact Hrun'|].
        rewrite Hkeys', Hkeys, filter_app. now rewrite <- app_assoc.
Qed.

End Loops.

Lemma rect_keys_length (tb : TileBounds) :
  min_tile_x tb <= max_tile_x tb -> min_tile_y tb <= max_tile_y tb ->
  Z.of_nat (List.length (rect_keys tb)) = total_tiles tb.
Proof.
  intros Hx Hy. unfold rect_keys, total_tiles.
  rewrite (flat_map_constant_length (c := Z.to_nat (max_tile_y tb + 1 - min_tile_y tb))).
  - rewrite py_range_length. lia.
  - intros x _. now rewrite length_map, py_range_length.
Qed.

Lemma rect_keys_In (tb : TileBounds) (x y : Z) :
  In (x, y) (rect_keys tb) <->
  min_tile_x tb <= x <= max_tile_x tb /\ min_tile_y tb <= y <= max_tile_y tb.
Proof.
  unfold rect_keys. rewrite in_flat_map. split.
  - intros [x' [Hx' Hin]]. apply in_map_iff in Hin.
    destruct Hin as [y' [[= -> ->] Hy']].
    apply py_range_In in Hx', Hy'. lia.
  - intros [Hx Hy]. exists x. split; [apply py_range_In; lia|].
    apply in_map. apply py_range_In. lia.
Qed.

(** X1.  When the tile directories can be created, [fetch_tiles] returns a
    dictionary whose keys are the indices of the rectangle whose download
    succeeds, in the order of the loops; it has [N - M] entries, [N] the
    number of tiles of the rectangle and [M] the number of those whose
    download fails. *)
Theorem fetch_tiles_partial {blob : Type} (w : World blob) (f : TileFetcher)
  (st : State blob) (tb : TileBounds) :
  min_tile_x tb <= max_tile_x tb -> min_tile_y tb <= max_tile_y tb ->
  (forall x, min_tile_x tb <= x <= max_tile_x tb ->
             makedirs_tile w (zoom tb) x = true) ->
  exists st' tiles,
    fetch_tiles w f st tb = (st', Ok tiles) /\
    map fst tiles = filter (fetch_succeeds w f st (zoom tb)) (rect_keys tb) /\
    dict_len tiles =
      total_tiles tb -
      Z.of_nat (List.length
        (filter (fun k => negb (fetch_succeeds w f st (zoom tb) k)) (rect_keys tb))).
Proof.
  intros Hx Hy Hdir. unfold fetch_tiles. cbv zeta.
  destruct (fetch_xs_spec w f (zoom tb) st
              (py_range (min_tile_y tb) (max_tile_y tb + 1))
              (py_range_NoDup _ _)
              (py_range (min_tile_x tb) (max_tile_x tb + 1)) st [])
    as [st' [tiles [Hrun Hkeys]]].
  - apply py_range_NoDup.
  - intros x Hin. apply Hdir. apply py_range_In in Hin. lia.
  - intros x y _ _ [].
  - reflexivity.
  - exists st', tiles. split; [exact Hrun|]. cbn [map app] in Hkeys.
    assert (Hkeys' : map fst tiles
                     = filter (fetch_succeeds w f st (zoom tb)) (rect_keys tb))
      by exact Hkeys.
    split; [exact Hkeys'|].
    unfold dict_len. rewrite <- (length_map fst tiles), Hkeys'.
    assert (N := rect_keys_length tb Hx Hy).
    assert (L := filter_length (fetch_succeeds w f st (zoom tb)) (rect_keys tb)).
    lia.
Qed.

(** The theorem for a rectangle of three by three tiles. *)
Lemma fetch_tiles_partial_example :
  exists st' tiles,
    fetch_tiles online_world esri_fetcher empty_cache three_by_three
      = (st', Ok tiles) /\
    map fst tiles =
      filter (fetch_succeeds online_world esri_fetcher empty_cache 4)
             (rect_keys three_by_three) /\
    dict_len tiles =
      total_tiles three_by_three -
      Z.of_nat (List.length
        (filter (fun k => negb (fetch_succeeds online_world esri_fetcher
                                  empty_cache 4 k))
                (rect_keys three_by_three))).
Proof.
  apply (fetch_tiles_partial online_world esri_fetcher empty_cache three_by_three).
  - cbn. lia.
  - cbn. lia.
  - reflexivity.
Defined.

(** C3, failing input.  The cache directory exists and is not writable.
    The server would deliver the tile, yet [fetch_tiles] raises [OSError] for
    the whole batch: [_get_cache_path] creates the tile directory outside
    every [try] block of [fetch_tile]. *)
Theorem fetch_tiles_readonly_cache :
  TileFetcher_init readonly_cache_world "esri" "/tmp/map_tiles" = Ok esri_fetcher /\
  total_tiles one_tile = 1 /\
  snd (fetch_from_provider readonly_cache_world esri_fetcher empty_cache
         (4, 5, 7) true) = Ok (Some sample_tile) /\
  fetch_tiles readonly_cache_world esri_fetcher empty_cache one_tile
    = (empty_cache, Raise OSError).
Proof. repeat split. Qed.

(** ** The stitcher *)

Import ImageStitcher.

(** *** Size of the canvas *)

Section Stitch.
Context {blob : Type} (p : Pil blob).

Lemma paste_ok (canvas im : Image) (box : Z * Z) (src dst : Z -> Z -> Pixel) :
  img_data im = Some src -> img_data canvas = Some dst ->
  exists c,
    paste canvas im box = Ok c /\
    img_mode c = img_mode canvas /\ img_size c = img_size canvas /\
    img_data c = Some (fun x y =>
      if (fst box <=? x) && (x <? fst box + fst (img_size im)) &&
         (snd box <=? y) && (y <? snd box + snd (img_size im))
      then src (x - fst box) (y - snd box) else dst x y).
Proof.
  intros Hs Hd. unfold paste. rewrite Hs, Hd.
  destruct box as [cx cy], (img_size im) as [w h]. eexists. repeat split.
Qed.

Lemma paste_raises (canvas im : Image) (box : Z * Z) :
  img_data im = None -> paste canvas im box = Raise OSError.
Proof. intros H. unfold paste. now rewrite H. Qed.

Lemma tile_rgb_size (img rgb : Image) :
  tile_rgb p img = Ok rgb -> img_size rgb = img_size img.
Proof.
  unfold tile_rgb, convert.
  destruct (negb _); [|now intros [= ->]].
  destruct (img_data img); [|discriminate].
  destruct (convert_pixel p img "RGB"); [|discriminate].
  now intros [= <-].
Qed.

(** One iteration leaves the canvas loaded, with its mode and size. *)
Lemma place_tile_shape (self : t) (tb : TileBounds) (canvas : Image)
  (item : (Z * Z) * Image) (dst : Z -> Z -> Pixel) :
  img_data canvas = Some dst ->
  let c := place_tile p self tb canvas item in
  img_mode c = img_mode canvas /\ img_size c = img_size canvas /\
  exists d, img_data c = Some d.
Proof.
  intros Hd. destruct item as [k img]. cbn. unfold try_paste.
  destruct (tile_rgb p img) as [rgb|e]; cbn [bind]; [|eauto].
  destruct (img_data rgb) as [src|] eqn:Es.
  - destruct (paste_ok canvas rgb (canvas_offset self tb k) src dst Es Hd)
      as [c [-> [Hm [Hsz Hdata]]]]. eauto.
  - rewrite (paste_raises _ _ _ Es). eauto.
Qed.

Lemma fold_place_tile_shape (self : t) (tb : TileBounds) (tiles : TileDict) :
  forall (canvas : Image) (dst : Z -> Z -> Pixel),
    img_data canvas = Some dst ->
    let c := fold_left (place_tile p self tb) tiles canvas in
    img_mode c = img_mode canvas /\ img_size c = img_size canvas /\
    exists d, img_data c = Some d.
Proof.
  induction tiles as [|item rest IH]; intros canvas dst Hd; cbn.
  - eauto.
  - destruct (place_tile_shape self tb canvas item dst Hd) as [Hm [Hs [d1 Hd1]]].
    destruct (IH _ d1 Hd1) as [Hm' [Hs' Hd']].
    cbv zeta in *. rewrite Hm', Hs', Hm, Hs. auto.
Qed.

Lemma canvas_size_pos (self : t) (tb : TileBounds) :
  0 < tile_size self ->
  min_tile_x tb <= max_tile_x tb -> min_tile_y tb <= max_tile_y tb ->
  0 < fst (canvas_size self tb) /\ 0 < snd (canvas_size self tb).
Proof. intros Ht Hx Hy. unfold canvas_size. cbn. nia. Qed.

Lemma Image_new_ok (mode : string) (size : Z * Z) (color : Pixel) :
  0 <= fst size -> 0 <= snd size ->
  Image_new mode size color =
    Ok {| img_mode := mode; img_size := size;
          img_data := Some (fun _ _ => color) |}.
Proof.
  intros H1 H2. unfold Image_new.
  destruct (fst size <? 0) eqn:E1; [lia|].
  destruct (snd size <? 0) eqn:E2; [lia|]. reflexivity.
Qed.

Lemma stitch_canvas_shape (self : t) (tiles : TileDict) (tb : TileBounds) :
  0 < tile_size self ->
  min_tile_x tb <= max_tile_x tb -> min_tile_y tb <= max_tile_y tb ->
  exists canvas d,
    stitch_canvas p self tiles tb = Ok canvas /\
    img_mode canvas = "RGB"%string /\
    img_size canvas = canvas_size self tb /\
    img_data canvas = Some d.
Proof.
  intros Ht Hx Hy. unfold stitch_canvas.
  destruct (canvas_size_pos self tb Ht Hx Hy) as [Hw Hh].
  rewrite Image_new_ok by lia. cbn [bind].
  set (blank := {| img_mode := "RGB"; img_size := canvas_size self tb;
                   img_data := Some (fun _ _ => fill_color) |}).
  destruct (fold_place_tile_shape self tb tiles blank _ eq_refl)
    as [Hm [Hs [d Hd]]].
  eexists. exists d. repeat split; assumption.
Qed.
(** C7.  With a [resize] that honours its contract, a stitcher with a
    positive tile size, a rectangle with [min <= max] on both axes and an
    output size with positive sides: [stitch_tiles] returns an image, for
    every dictionary of tiles, and its size is the output size. *)
Theorem stitch_tiles_output_size (self : t) (tiles : TileDict)
  (tb : TileBounds) (out_w out_h : Z) :
  resize_contract p ->
  0 < tile_size self ->
  min_tile_x tb <= max_tile_x tb -> min_tile_y tb <= max_tile_y tb ->
  0 < out_w -> 0 < out_h ->
  exists img,
    stitch_tiles p self tiles tb (out_w, out_h) = Ok img /\
    img_size img = (out_w, out_h).
Proof.
  intros Hres Ht Hx Hy Hw Hh. unfold stitch_tiles.
  destruct (stitch_canvas_shape self tiles tb Ht Hx Hy)
    as [canvas [d [-> [Hm [Hs Hd]]]]].
  cbn [bind].
  destruct (size_eqb (canvas_size self tb) (out_w, out_h)) eqn:E; cbn [negb].
  - exists canvas. split; [reflexivity|]. rewrite Hs.
    unfold size_eqb in E. apply andb_true_iff in E. cbn [fst snd] in E.
    rewrite !Z.eqb_eq in E. destruct (canvas_size self tb). cbn in E.
    destruct E as [-> ->]. reflexivity.
  - destruct (canvas_size_pos self tb Ht Hx Hy) as [Cw Ch].
    apply Hres; cbn [fst snd]; try assumption; rewrite ?Hs; try assumption.
    rewrite Hd. discriminate.
Qed.

End Stitch.

Lemma plain_pil_resize : resize_contract plain_pil.
Proof.
  intros img size _ _ _ _ _. eexists. split; reflexivity.
Qed.

(** The theorem for one tile out of nine and an output of 1024 by 1024. *)
Lemma stitch_tiles_output_size_example :
  exists img,
    ImageStitcher.stitch_tiles plain_pil ImageStitcher.init
      [((5, 7), sample_tile)] three_by_three (1024, 1024) = Ok img /\
    img_size img = (1024, 1024).
Proof.
  apply (stitch_tiles_output_size plain_pil ImageStitcher.init
           [((5, 7), sample_tile)] three_by_three 1024 1024).
  - exact plain_pil_resize.
  - reflexivity.
  - cbn. lia.
  - cbn. lia.
  - lia.
  - lia.
Defined.

(** *** Pixels of the canvas *)

Section Placement.
Context {blob : Type} (p : Pil blob) (self : t) (tb : TileBounds).
Hypothesis tile_size_256 : tile_size self = 256.

Lemma in_tile_region_offset (k : Z * Z) (i j : Z) :
  0 <= i < 256 -> 0 <= j < 256 ->
  in_tile_region self tb k (fst (canvas_offset self tb k) + i)
                           (snd (canvas_offset self tb k) + j).
Proof.
  intros Hi Hj. unfold in_tile_region, canvas_offset. cbn [fst snd].
  rewrite tile_size_256. lia.
Qed.

Lemma in_tile_region_disjoint (k k' : Z * Z) (x y : Z) :
  k <> k' -> in_tile_region self tb k x y -> ~ in_tile_region self tb k' x y.
Proof.
  destruct k as [a b], k' as [a' b'].
  unfold in_tile_region, canvas_offset. cbn [fst snd]. rewrite tile_size_256.
  intros Hne [H1 H2] [H3 H4]. apply Hne. f_equal; lia.
Qed.

Lemma place_tile_data (canvas : Image) (k : Z * Z) (img : Image)
  (dst : Z -> Z -> Pixel) :
  img_data canvas = Some dst -> img_size img = (256, 256) ->
  exists d1,
    img_data (place_tile p self tb canvas (k, img)) = Some d1 /\
    (forall x y, ~ in_tile_region self tb k x y -> d1 x y = dst x y) /\
    (forall rgb src,
       tile_rgb p img = Ok rgb -> img_data rgb = Some src ->
       forall i j, 0 <= i < 256 -> 0 <= j < 256 ->
         d1 (fst (canvas_offset self tb k) + i)
            (snd (canvas_offset self tb k) + j) = src i j).
Proof.
  intros Hd Hsz. cbn [place_tile]. unfold try_paste.
  destruct (tile_rgb p img) as [rgb|e] eqn:Ergb; cbn [bind].
  - assert (Hrsz := tile_rgb_size p img rgb Ergb). rewrite Hsz in Hrsz.
    destruct (img_data rgb) as [src|] eqn:Es.
    + destruct (paste_ok canvas rgb (canvas_offset self tb k) src dst Es Hd)
        as [c [-> [_ [_ Hdata]]]].
      eexists. split; [exact Hdata|]. rewrite Hrsz. cbn [fst snd]. split.
      * intros x y Hout.
        destruct (_ && _) eqn:E; [|reflexivity].
        exfalso. apply Hout. unfold in_tile_region.
        destruct (canvas_offset self tb k) as [ox oy]. cbn [fst snd] in E.
        rewrite tile_size_256. rewrite !andb_true_iff in E. lia.
      * intros rgb' src' [= <-] Hs' i j Hi Hj.
        rewrite Es in Hs'. injection Hs' as <-.
        destruct (_ && _) eqn:E.
        -- f_equal; lia.
        -- exfalso. rewrite !andb_false_iff in E. lia.
    + rewrite (paste_raises _ _ _ Es). exists dst. split; [assumption|].
      split; [reflexivity|]. intros rgb' src' [= <-]. congruence.
  - exists dst. split; [assumption|]. split; [reflexivity|]. discriminate.
Qed.

Lemma fold_place_tile_pixels (tiles : TileDict) :
  forall (canvas : Image) (d0 : Z -> Z -> Pixel),
    img_data canvas = Some d0 ->
    NoDup (map fst tiles) ->
    (forall k img, In (k, img) tiles -> img_size img = (256, 256)) ->
    exists d,
      img_data (fold_left (place_tile p self tb) tiles canvas) = Some d /\
      (forall k img rgb src,
         In (k, img) tiles ->
         tile_rgb p img = Ok rgb -> img_data rgb = Some src ->
         forall i j, 0 <= i < 256 -> 0 <= j < 256 ->
           d (fst (canvas_offset self tb k) + i)
             (snd (canvas_offset self tb k) + j) = src i j) /\
      (forall x y,
         (forall k img, In (k, img) tiles -> ~ in_tile_region self tb k x y) ->
         d x y = d0 x y).
Proof.
  induction tiles as [|[k0 img0] rest IH]; intros canvas d0 Hd Hnd Hsz.
  - exists d0. cbn. split; [assumption|]. split; [intros ? ? ? ? []|reflexivity].
  - cbn [map fst] in Hnd. inversion Hnd as [|? ? Hk0 Hrest]; subst.
    cbn [fold_left].
    destruct (place_tile_data canvas k0 img0 d0 Hd) as [d1 [Hd1 [Hout Hin]]].
    { apply (Hsz k0 img0). now left. }
    destruct (IH _ d1 Hd1 Hrest) as [d [Hdata [Hpix Hframe]]].
    { intros k img Hi. apply (Hsz k img). now right. }
    exists d. split; [exact Hdata|]. split.
    + intros k img rgb src [[= <- <-] | Hmem] Hrgb Hsrc i j Hi Hj.
      * rewrite Hframe; [now apply (Hin rgb src)|].
        intros k' img' Hmem'. apply in_tile_region_disjoint with (k := k0).
        -- intros ->. apply Hk0. apply in_map_iff. now exists (k', img').
        -- now apply in_tile_region_offset.
      * now apply (Hpix k img rgb src).
    + intros x y Hall. rewrite Hframe.
      * apply Hout. apply (Hall k0 img0). now left.
      * intros k img Hmem. apply (Hall k img). now right.
Qed.

End Placement.
(** C8.  For a stitcher with tile size 256 and a rectangle of [W] by [H]
    tiles: the canvas of an empty dictionary is [W * 256] by [H * 256] pixels
    and every pixel has the fill colour; and for a dictionary of tiles of
    256 by 256 pixels, the canvas before the resize shows each tile that can
    be pasted at the offset [((x - min_x) * 256, (y - min_y) * 256)], and the
    fill colour outside the squares of the tiles of the dictionary. *)
Theorem stitch_canvas_placement {blob : Type} (p : Pil blob) (self : t)
  (tb : TileBounds) :
  tile_size self = 256 ->
  min_tile_x tb <= max_tile_x tb -> min_tile_y tb <= max_tile_y tb ->
  let W := max_tile_x tb - min_tile_x tb + 1 in
  let H := max_tile_y tb - min_tile_y tb + 1 in
  (exists blank d,
     stitch_canvas p self [] tb = Ok blank /\
     img_size blank = (W * 256, H * 256) /\
     img_data blank = Some d /\ forall x y, d x y = fill_color) /\
  (forall tiles : TileDict,
     NoDup (map fst tiles) ->
     (forall k img, In (k, img) tiles -> img_size img = (256, 256)) ->
     exists canvas d,
       stitch_canvas p self tiles tb = Ok canvas /\
       img_size canvas = (W * 256, H * 256) /\
       img_data canvas = Some d /\
       (forall tile_x tile_y img rgb src,
          In ((tile_x, tile_y), img) tiles ->
          tile_rgb p img = Ok rgb -> img_data rgb = Some src ->
          forall i j, 0 <= i < 256 -> 0 <= j < 256 ->
            d ((tile_x - min_tile_x tb) * 256 + i)
              ((tile_y - min_tile_y tb) * 256 + j) = src i j) /\
       (forall x y,
          (forall k img, In (k, img) tiles -> ~ in_tile_region self tb k x y) ->
          d x y = fill_color)).
Proof.
  intros Hts Hx Hy W H.
  assert (Hcs : canvas_size self tb = (W * 256, H * 256)).
  { unfold canvas_size. cbv zeta. now rewrite Hts. }
  assert (Hnew : Image_new "RGB" (canvas_size self tb) fill_color =
                 Ok {| img_mode := "RGB"; img_size := canvas_size self tb;
                       img_data := Some (fun _ _ => fill_color) |}).
  { apply Image_new_ok; rewrite Hcs; cbn [fst snd]; subst W H; lia. }
  split.
  - unfold stitch_canvas. rewrite Hnew. cbn [bind fold_left].
    eexists. eexists. split; [reflexivity|]. cbn [img_size img_data].
    split; [exact Hcs|]. split; reflexivity.
  - intros tiles Hnd Hsz.
    unfold stitch_canvas. rewrite Hnew. cbn [bind].
    set (blank := {| img_mode := "RGB"; img_size := canvas_size self tb;
                     img_data := Some (fun _ _ => fill_color) |}).
    destruct (fold_place_tile_pixels p self tb Hts tiles blank _ eq_refl Hnd Hsz)
      as [d [Hdata [Hpix Hframe]]].
    destruct (fold_place_tile_shape p self tb tiles blank _ eq_refl)
      as [_ [Hsize _]].
    eexists. exists d. split; [reflexivity|].
    split; [rewrite Hsize; exact Hcs|]. split; [exact Hdata|]. split.
    + intros tx ty img rgb src Hmem Hrgb Hsrc i j Hi Hj.
      specialize (Hpix (tx, ty) img rgb src Hmem Hrgb Hsrc i j Hi Hj).
      unfold canvas_offset in Hpix. cbn [fst snd] in Hpix.
      now rewrite Hts in Hpix.
    + intros x y Hall. now rewrite Hframe.
Qed.

(** The theorem for the default stitcher and a rectangle of three by three
    tiles. *)
Lemma stitch_canvas_placement_example :
  (exists blank d,
     stitch_canvas plain_pil init [] three_by_three = Ok blank /\
     img_size blank = ((6 - 4 + 1) * 256, (8 - 6 + 1) * 256) /\
     img_data blank = Some d /\ forall x y, d x y = fill_color) /\
  (forall tiles : TileDict,
     NoDup (map fst tiles) ->
     (forall k img, In (k, img) tiles -> img_size img = (256, 256)) ->
     exists canvas d,
       stitch_canvas plain_pil init tiles three_by_three = Ok canvas /\
       img_size canvas = ((6 - 4 + 1) * 256, (8 - 6 + 1) * 256) /\
       img_data canvas = Some d /\
       (forall tile_x tile_y img rgb src,
          In ((tile_x, tile_y), img) tiles ->
          tile_rgb plain_pil img = Ok rgb -> img_data rgb = Some src ->
          forall i j, 0 <= i < 256 -> 0 <= j < 256 ->
            d ((tile_x - 4) * 256 + i) ((tile_y - 6) * 256 + j) = src i j) /\
       (forall x y,
          (forall k img, In (k, img) tiles ->
                         ~ in_tile_region init three_by_three k x y) ->
          d x y = fill_color)).
Proof.
  apply (stitch_canvas_placement plain_pil init three_by_three).
  - reflexivity.
  - cbn. lia.
  - cbn. lia.
Defined.

(** *** The grid overlay *)

Lemma Image_new_raises (mode : string) (size : Z * Z) (color : Pixel) (e : exn) :
  Image_new mode size color = Raise e -> e = ValueError.
Proof.
  unfold Image_new. destruct (_ || _); [|discriminate]. now intros [= <-].
Qed.

Lemma py_div_ok (a b : R) : b <> 0%R -> py_div a b = Ok (a / b)%R.
Proof.
  intros H. unfold py_div. destruct (Req_dec_T b 0); [contradiction|reflexivity].
Qed.

Lemma py_int_unit_interval (r : R) : (0 <= r < 1)%R -> py_int r = 0.
Proof.
  intros [H0 H1]. unfold py_int. destruct (Rle_dec 0 r); [|contradiction].
  apply Zfloor_eq. simpl. lra.
Qed.

Lemma quotient_below_one (g m : R) : (0 < g)%R -> (g < m)%R -> (0 < g / m < 1)%R.
Proof.
  intros Hg Hm. split.
  - apply Rdiv_lt_0_compat; lra.
  - apply Rmult_lt_reg_r with m; [lra|].
    unfold Rdiv. rewrite Rmult_assoc, Rinv_l by lra. lra.
Qed.

(** C10.  For positive [grid_spacing_m] and [meters_per_pixel],
    [add_grid_overlay] returns an image only when the spacing in pixels,
    [int(grid_spacing_m / meters_per_pixel)], is at least 1; when
    [grid_spacing_m < meters_per_pixel] the spacing is 0 and the call raises
    [ValueError] (the zero step of [range]). *)
Theorem add_grid_overlay_spacing {blob : Type} (p : Pil blob) (image : Image)
  (grid_spacing_m meters_per_pixel : R) (color : Pixel) (alpha : Z) :
  (0 < grid_spacing_m)%R -> (0 < meters_per_pixel)%R ->
  let grid_spacing_px := py_int (grid_spacing_m / meters_per_pixel) in
  (forall out,
     add_grid_overlay p image grid_spacing_m meters_per_pixel color alpha = Ok out ->
     1 <= grid_spacing_px) /\
  ((grid_spacing_m < meters_per_pixel)%R ->
     grid_spacing_px = 0 /\
     add_grid_overlay p image grid_spacing_m meters_per_pixel color alpha
       = Raise ValueError).
Proof.
  intros Hg Hm px.
  assert (Hq : (0 < grid_spacing_m / meters_per_pixel)%R)
    by (apply Rdiv_lt_0_compat; assumption).
  assert (Hnn : 0 <= px) by (apply py_int_nonneg; lra).
  assert (Hrun : add_grid_overlay p image grid_spacing_m meters_per_pixel color alpha
          = (overlay <- Image_new "RGBA" (img_size image) [0; 0; 0; 0] ;;
             xs <- py_range_step 0 (fst (img_size image)) px ;;
             let overlay :=
               fold_left (fun o x => draw_vline o x 0 (snd (img_size image))
                                       (color ++ [alpha])) xs overlay in
             ys <- py_range_step 0 (snd (img_size image)) px ;;
             let overlay :=
               fold_left (fun o y => draw_hline o y 0 (fst (img_size image))
                                       (color ++ [alpha])) ys overlay in
             image' <- (if negb (String.eqb (img_mode image) "RGBA")
                        then convert p image "RGBA" else Ok image) ;;
             alpha_composite p image' overlay)).
  { unfold add_grid_overlay. destruct (Image_new _ _ _); [|reflexivity].
    cbn [bind]. destruct (img_size image) as [width height].
    rewrite py_div_ok by lra. reflexivity. }
  rewrite Hrun. clear Hrun. split.
  - intros out Hout.
    destruct (Z.eq_dec px 0) as [E|E]; [|lia].
    exfalso. destruct (Image_new _ _ _); [|discriminate].
    cbn [bind] in Hout. unfold py_range_step in Hout at 1.
    rewrite E in Hout. discriminate.
  - intros Hlt.
    assert (E : px = 0).
    { apply py_int_unit_interval. destruct (quotient_below_one _ _ Hg Hlt). lra. }
    split; [exact E|].
    destruct (Image_new _ _ _) as [overlay|e] eqn:En.
    + cbn [bind]. unfold py_range_step at 1. rewrite E. reflexivity.
    + apply Image_new_raises in En. subst e. reflexivity.
Qed.

(** The theorem for a grid of half a metre on an image of two metres per
    pixel. *)
Lemma add_grid_overlay_spacing_example :
  (forall out,
     add_grid_overlay plain_pil sample_tile (1 / 2)%R 2%R [255; 0; 0] 128
       = Ok out ->
     1 <= py_int ((1 / 2) / 2)%R) /\
  (((1 / 2) < 2)%R ->
     py_int ((1 / 2) / 2)%R = 0 /\
     add_grid_overlay plain_pil sample_tile (1 / 2)%R 2%R [255; 0; 0] 128
       = Raise ValueError).
Proof.
  apply (add_grid_overlay_spacing plain_pil sample_tile (1 / 2)%R 2%R
           [255; 0; 0] 128); lra.
Defined.

(** * Further properties

    Properties of the code beyond the claims of the specification: the
    remaining functions of the modules, and the way their functions
    compose.  A theorem recorded as an additional property carries its
    identifier (X2, X3, ...) in its comment. *)

(** ** Distances *)

Section Haversine.
Local Open Scope R_scope.

Lemma radians_opp (d : R) : radians (- d) = - radians d.
Proof. unfold radians. lra. Qed.

Lemma py_sqrt_ok (r : R) : 0 <= r -> py_sqrt r = Ok (sqrt r).
Proof.
  intros H. unfold py_sqrt. destruct (Rlt_dec r 0); [lra | reflexivity].
Qed.

(** On the quarter circle [atan2] gives the angle back. *)
Lemma py_atan2_sin_cos (t : R) :
  0 <= t <= PI / 2 -> py_atan2 (sin t) (cos t) = t.
Proof.
  intros [H0 H1]. unfold py_atan2.
  destruct (Req_dec t (PI / 2)) as [-> | Hne].
  - rewrite cos_PI2, sin_PI2.
    destruct (Rlt_dec 0 0); [lra |].
    destruct (Rlt_dec 0 0); [lra |].
    destruct (Rlt_dec 0 1); [reflexivity | lra].
  - assert (Hc : 0 < cos t) by (apply cos_gt_0; lra).
    destruct (Rlt_dec 0 (cos t)); [| lra].
    change (sin t / cos t) with (tan t).
    apply atan_tan. lra.
Qed.

(** The distance along a meridian. *)
Lemma haversine_meridian (lat1 lat2 lon : R) :
  Rabs (lat2 - lat1) <= 180 ->
  haversine_distance lat1 lon lat2 lon =
    Ok (6378137 * radians (Rabs (lat2 - lat1))).
Proof.
  intros H. unfold haversine_distance. cbv zeta.
  set (d := radians (lat2 - lat1)).
  replace (radians (lon - lon)) with 0 by (unfold radians; lra).
  replace (0 / 2) with 0 by lra. rewrite sin_0.
  set (t := Rabs d / 2).
  assert (Hd : radians (Rabs (lat2 - lat1)) = Rabs d).
  { unfold d, radians. rewrite Rabs_mult.
    rewrite (Rabs_pos_eq (PI / 180)); [reflexivity |].
    pose proof PI_RGT_0. lra. }
  assert (Ht : 0 <= t <= PI / 2).
  { unfold t. rewrite <- Hd. unfold radians.
    pose proof (Rabs_pos (lat2 - lat1)). pose proof PI_RGT_0.
    split; nra. }
  assert (Hs2 : sin (d / 2) ^ 2 = sin t ^ 2).
  { unfold t, Rabs. destruct (Rcase_abs d); [| reflexivity].
    replace (- d / 2) with (- (d / 2)) by lra. rewrite sin_neg. ring. }
  assert (Hc2 : 1 - sin t ^ 2 = cos t ^ 2).
  { pose proof (sin2_cos2 t) as E. unfold Rsqr in E. lra. }
  replace (sin (d / 2) ^ 2 + cos (radians lat1) * cos (radians lat2) * 0 ^ 2)
    with (sin t ^ 2) by (rewrite Hs2; ring).
  rewrite Hc2.
  assert (Hsin : 0 <= sin t) by (apply sin_ge_0; pose proof PI_RGT_0; lra).
  assert (Hcos : 0 <= cos t) by (apply cos_ge_0; pose proof PI_RGT_0; lra).
  rewrite !py_sqrt_ok by (apply pow2_ge_0).
  cbn [bind].
  replace (sin t ^ 2) with (Rsqr (sin t)) by (unfold Rsqr; ring).
  replace (cos t ^ 2) with (Rsqr (cos t)) by (unfold Rsqr; ring).
  rewrite !sqrt_Rsqr by assumption.
  rewrite py_atan2_sin_cos by assumption.
  rewrite Hd. unfold t. f_equal. lra.
Qed.

(** X9.  The distance from a point to itself is 0, and the distance does not
    depend on the order of the two points. *)
Theorem haversine_distance_symmetric (lat1 lon1 lat2 lon2 : R) :
  haversine_distance lat1 lon1 lat1 lon1 = Ok 0 /\
  haversine_distance lat1 lon1 lat2 lon2 =
  haversine_distance lat2 lon2 lat1 lon1.
Proof.
  split.
  - rewrite haversine_meridian.
    + replace (lat1 - lat1) with 0 by lra. rewrite Rabs_R0.
      unfold radians. f_equal. lra.
    + replace (lat1 - lat1) with 0 by lra. rewrite Rabs_R0. lra.
  - unfold haversine_distance. cbv zeta.
    replace (lat1 - lat2) with (- (lat2 - lat1)) by lra.
    replace (lon1 - lon2) with (- (lon2 - lon1)) by lra.
    rewrite !radians_opp.
    replace (- radians (lat2 - lat1) / 2) with (- (radians (lat2 - lat1) / 2))
      by lra.
    replace (- radians (lon2 - lon1) / 2) with (- (radians (lon2 - lon1) / 2))
      by lra.
    rewrite !sin_neg.
    replace ((- sin (radians (lat2 - lat1) / 2)) ^ 2)
      with (sin (radians (lat2 - lat1) / 2) ^ 2) by ring.
    replace ((- sin (radians (lon2 - lon1) / 2)) ^ 2)
      with (sin (radians (lon2 - lon1) / 2) ^ 2) by ring.
    rewrite (Rmult_comm (cos (radians lat2)) (cos (radians lat1))).
    reflexivity.
Qed.

End Haversine.

(** ** The tile grid *)

Section TileGrid.
Local Open Scope R_scope.

Lemma degrees_radians (d : R) : degrees (radians d) = d.
Proof.
  unfold degrees, radians. pose proof PI_RGT_0. field. lra.
Qed.

Lemma degrees_lt (a b : R) : a < b -> degrees a < degrees b.
Proof.
  intros H. unfold degrees. pose proof PI_RGT_0.
  apply Rmult_lt_compat_r; [| assumption].
  apply Rdiv_lt_0_compat; lra.
Qed.

(** The row coordinate before truncation, and the latitude of the northern
    edge of a row. *)
Lemma tile_to_lat_lon_fst (x y z : Z) :
  fst (tile_to_lat_lon x y z) =
  degrees (atan (sinh (PI * (1 - 2 * IZR y / powerRZ 2 z)))).
Proof. reflexivity. Qed.

Lemma tile_to_lat_lon_snd (x y z : Z) :
  snd (tile_to_lat_lon x y z) = IZR x / powerRZ 2 z * 360 - 180.
Proof. reflexivity. Qed.

(** The western edge of column [k] lies west of a longitude exactly when [k]
    is at most the column coordinate of the longitude. *)
Lemma column_edge_le (lon : R) (k y z : Z) :
  IZR k <= (lon + 180) / 360 * powerRZ 2 z <->
  snd (tile_to_lat_lon k y z) <= lon.
Proof.
  rewrite tile_to_lat_lon_snd. pose proof (pow2_pos z) as Hn.
  split; intros H.
  - apply Rmult_le_reg_r with (powerRZ 2 z / 360); [lra |].
    replace ((IZR k / powerRZ 2 z * 360 - 180) * (powerRZ 2 z / 360))
      with (IZR k - 180 / 360 * powerRZ 2 z) by (field; lra).
    lra.
  - replace (IZR k) with
      ((IZR k / powerRZ 2 z * 360 - 180 + 180) / 360 * powerRZ 2 z)
      by (field; lra).
    apply Rmult_le_compat_r; lra.
Qed.

(** The northern edge of row [k] lies north of a latitude exactly when [k] is
    at most the row coordinate of the latitude. *)
Lemma row_edge_ge (lat : R) (x k z : Z) :
  -90 < lat < 90 ->
  IZR k <= (1 - arcsinh (tan (radians lat)) / PI) / 2 * powerRZ 2 z <->
  lat <= fst (tile_to_lat_lon x k z).
Proof.
  intros Hlat. rewrite tile_to_lat_lon_fst.
  pose proof (pow2_pos z) as Hn. pose proof PI_RGT_0 as Hpi.
  set (u := arcsinh (tan (radians lat))).
  set (v := PI * (1 - 2 * IZR k / powerRZ 2 z)).
  assert (Hr : - (PI / 2) < radians lat < PI / 2) by (unfold radians; split; nra).
  assert (Hk : IZR k <= (1 - u / PI) / 2 * powerRZ 2 z <-> u <= v).
  { unfold v. split; intros H.
    - apply Rmult_le_reg_r with (powerRZ 2 z / (2 * PI)).
      { apply Rdiv_lt_0_compat; lra. }
      replace (PI * (1 - 2 * IZR k / powerRZ 2 z) * (powerRZ 2 z / (2 * PI)))
        with (powerRZ 2 z / 2 - IZR k) by (field; lra).
      replace (u * (powerRZ 2 z / (2 * PI)))
        with (powerRZ 2 z / 2 - (1 - u / PI) / 2 * powerRZ 2 z)
        by (field; lra).
      lra.
    - replace (IZR k) with ((1 - v / PI) / 2 * powerRZ 2 z)
        by (unfold v; field; lra).
      apply Rmult_le_compat_r; [lra |].
      apply Rmult_le_compat_r; [lra |].
      apply Rplus_le_compat_l, Ropp_le_contravar.
      apply Rmult_le_compat_r; [| assumption].
      left. now apply Rinv_0_lt_compat. }
  rewrite Hk. clear Hk.
  assert (Hu : tan (radians lat) = sinh u) by (unfold u; now rewrite sinh_arcsinh).
  split; intros H.
  - rewrite <- (degrees_radians lat) at 1.
    destruct H as [H | H].
    + left. apply degrees_lt.
      rewrite <- (atan_tan (radians lat)) at 1 by assumption.
      apply atan_increasing. rewrite Hu. now apply sinh_lt.
    + right. f_equal. rewrite <- H, <- Hu. symmetry. now apply atan_tan.
  - destruct (Rle_lt_dec u v) as [Hle | Hlt]; [assumption | exfalso].
    apply sinh_lt in Hlt. rewrite <- Hu in Hlt.
    apply atan_increasing in Hlt. rewrite atan_tan in Hlt by assumption.
    apply degrees_lt in Hlt. rewrite degrees_radians in Hlt. lra.
Qed.

(** South of the Mercator limit the row coordinate is not negative. *)
Lemma row_coordinate_nonneg (lat : R) (z : Z) :
  -90 < lat <= 85.05 ->
  0 <= (1 - arcsinh (tan (radians lat)) / PI) / 2 * powerRZ 2 z.
Proof.
  intros [Hlo Hhi]. pose proof (pow2_pos z) as Hn. pose proof PI_RGT_0 as Hpi.
  assert (H1 : arcsinh (tan (radians lat)) <= arcsinh (tan (radians 85.05))).
  { apply mercator_mono; unfold radians; nra. }
  assert (H2 := mercator_range 85.05 ltac:(lra)).
  assert (H3 : arcsinh (tan (radians lat)) / PI <= 1).
  { apply Rmult_le_reg_r with PI; [lra |].
    replace (arcsinh (tan (radians lat)) / PI * PI)
      with (arcsinh (tan (radians lat))) by (field; lra).
    lra. }
  apply Rmult_le_pos; lra.
Qed.

Lemma column_coordinate_nonneg (lon : R) (z : Z) :
  -180 <= lon -> 0 <= (lon + 180) / 360 * powerRZ 2 z.
Proof.
  intros H. pose proof (pow2_pos z). apply Rmult_le_pos; lra.
Qed.

(** X2.  The tile of a point contains the point. *)
Theorem tile_contains_point (lat lon : R) (z : Z) :
  -90 < lat <= 85.05 -> -180 <= lon ->
  let '(x, y) := lat_lon_to_tile lat lon z in
  let '(lat_n, lon_w) := tile_to_lat_lon x y z in
  let '(lat_s, lon_e) := tile_to_lat_lon (x + 1) (y + 1) z in
  lon_w <= lon < lon_e /\ lat_s < lat <= lat_n.
Proof.
  intros Hlat Hlon.
  destruct (lat_lon_to_tile lat lon z) as [x y] eqn:E.
  assert (Ex : x = fst (lat_lon_to_tile lat lon z)) by now rewrite E.
  assert (Ey : y = snd (lat_lon_to_tile lat lon z)) by now rewrite E.
  rewrite lat_lon_to_tile_fst in Ex. rewrite lat_lon_to_tile_snd in Ey.
  destruct (py_int_nonneg _ (column_coordinate_nonneg lon z Hlon))
    as [_ [Hx1 Hx2]].
  destruct (py_int_nonneg _ (row_coordinate_nonneg lat z Hlat))
    as [_ [Hy1 Hy2]].
  rewrite <- Ex in Hx1, Hx2. rewrite <- Ey in Hy1, Hy2.
  destruct (tile_to_lat_lon x y z) as [lat_n lon_w] eqn:E1.
  destruct (tile_to_lat_lon (x + 1) (y + 1) z) as [lat_s lon_e] eqn:E2.
  assert (Hw : lon_w = snd (tile_to_lat_lon x y z)) by now rewrite E1.
  assert (Hn : lat_n = fst (tile_to_lat_lon x y z)) by now rewrite E1.
  assert (He : lon_e = snd (tile_to_lat_lon (x + 1) (y + 1) z)) by now rewrite E2.
  assert (Hs : lat_s = fst (tile_to_lat_lon (x + 1) (y + 1) z)) by now rewrite E2.
  assert (Hlat' : -90 < lat < 90) by lra.
  repeat split.
  - rewrite Hw. now apply column_edge_le.
  - rewrite He. apply Rnot_le_lt. intros C.
    apply column_edge_le in C. rewrite plus_IZR in C. lra.
  - rewrite Hs. apply Rnot_le_lt. intros C.
    apply (row_edge_ge lat (x + 1) (y + 1) z Hlat') in C.
    rewrite plus_IZR in C. lra.
  - rewrite Hn. now apply row_edge_ge.
Qed.

(** The theorem at San Francisco, zoom 17. *)
Lemma tile_contains_point_example :
  let '(x, y) := lat_lon_to_tile 37.7749 (-122.4194) 17 in
  let '(lat_n, lon_w) := tile_to_lat_lon x y 17 in
  let '(lat_s, lon_e) := tile_to_lat_lon (x + 1) (y + 1) 17 in
  lon_w <= -122.4194 < lon_e /\ lat_s < 37.7749 <= lat_n.
Proof.
  apply (tile_contains_point 37.7749 (-122.4194) 17); lra.
Defined.

End TileGrid.

Section TileGrid2.
Local Open Scope R_scope.

Lemma pow2_succ (z : Z) : powerRZ 2 (z + 1) = 2 * powerRZ 2 z.
Proof.
  rewrite powerRZ_add by lra. simpl. lra.
Qed.

(** Doubling a non-negative coordinate: its integer part doubles, or doubles
    and gains one. *)
Lemma py_int_double (r : R) :
  0 <= r ->
  py_int (2 * r) = (2 * py_int r)%Z \/ py_int (2 * r) = (2 * py_int r + 1)%Z.
Proof.
  intros Hr.
  destruct (py_int_nonneg r Hr) as [_ [H1 H2]].
  destruct (py_int_nonneg (2 * r) ltac:(lra)) as [_ [H3 H4]].
  set (a := py_int r) in *. set (b := py_int (2 * r)) in *.
  assert (Hlo : (2 * a <= b)%Z).
  { apply Z.lt_succ_r. apply lt_IZR. rewrite succ_IZR, mult_IZR. lra. }
  assert (Hhi : (b < 2 * a + 2)%Z).
  { apply lt_IZR. rewrite plus_IZR, mult_IZR. lra. }
  lia.
Qed.

(** X3.  One zoom level deeper the tile of a point is one of the four children of
    its tile. *)
Theorem lat_lon_to_tile_child (lat lon : R) (z : Z) :
  -90 < lat <= 85.05 -> -180 <= lon ->
  let '(x, y) := lat_lon_to_tile lat lon z in
  let '(x', y') := lat_lon_to_tile lat lon (z + 1) in
  (x' = 2 * x \/ x' = 2 * x + 1)%Z /\ (y' = 2 * y \/ y' = 2 * y + 1)%Z.
Proof.
  intros Hlat Hlon. unfold lat_lon_to_tile. cbv zeta.
  rewrite pow2_succ. split.
  - replace ((lon + 180) / 360 * (2 * powerRZ 2 z))
      with (2 * ((lon + 180) / 360 * powerRZ 2 z)) by ring.
    apply py_int_double. now apply column_coordinate_nonneg.
  - replace ((1 - arcsinh (tan (radians lat)) / PI) / 2 * (2 * powerRZ 2 z))
      with (2 * ((1 - arcsinh (tan (radians lat)) / PI) / 2 * powerRZ 2 z))
      by ring.
    apply py_int_double. now apply row_coordinate_nonneg.
Qed.

(** The theorem at San Francisco, zooms 17 and 18. *)
Lemma lat_lon_to_tile_child_example :
  let '(x, y) := lat_lon_to_tile 37.7749 (-122.4194) 17 in
  let '(x', y') := lat_lon_to_tile 37.7749 (-122.4194) (17 + 1) in
  (x' = 2 * x \/ x' = 2 * x + 1)%Z /\ (y' = 2 * y \/ y' = 2 * y + 1)%Z.
Proof.
  apply (lat_lon_to_tile_child 37.7749 (-122.4194) 17); lra.
Defined.

Lemma row_edge_decreasing (x x' y y' z : Z) :
  (y < y')%Z -> fst (tile_to_lat_lon x' y' z) < fst (tile_to_lat_lon x y z).
Proof.
  intros H. rewrite !tile_to_lat_lon_fst.
  pose proof (pow2_pos z) as Hn. pose proof PI_RGT_0 as Hpi.
  apply degrees_lt, atan_increasing, sinh_lt.
  apply Rmult_lt_compat_l; [assumption |].
  apply Rplus_lt_compat_l, Ropp_lt_contravar.
  apply Rmult_lt_compat_r; [now apply Rinv_0_lt_compat |].
  apply IZR_lt in H. lra.
Qed.

Lemma column_edge_increasing (x x' y y' z : Z) :
  (x <= x')%Z -> snd (tile_to_lat_lon x y z) <= snd (tile_to_lat_lon x' y' z).
Proof.
  intros H. rewrite !tile_to_lat_lon_snd.
  pose proof (pow2_pos z) as Hn. apply IZR_le in H.
  apply Rplus_le_compat_r, Rmult_le_compat_r; [lra |].
  apply Rmult_le_compat_r; [| assumption].
  left. now apply Rinv_0_lt_compat.
Qed.

(** X4.  The grid of tile corners: columns are [360 / 2^zoom] degrees wide and
    start at longitude -180; the latitude of a row edge lies strictly between
    the poles, decreases with the row index and is mirrored at the equator
    (the row index [2^zoom / 2]). *)
Theorem tile_to_lat_lon_grid (x y z : Z) :
  snd (tile_to_lat_lon 0 y z) = -180 /\
  snd (tile_to_lat_lon (x + 1) y z) - snd (tile_to_lat_lon x y z)
    = 360 / powerRZ 2 z /\
  -90 < fst (tile_to_lat_lon x y z) < 90 /\
  fst (tile_to_lat_lon x (y + 1) z) < fst (tile_to_lat_lon x y z) /\
  ((0 <= z)%Z ->
     fst (tile_to_lat_lon x (2 ^ z - y) z) = - fst (tile_to_lat_lon x y z)).
Proof.
  pose proof (pow2_pos z) as Hn. pose proof PI_RGT_0 as Hpi.
  repeat split.
  - rewrite tile_to_lat_lon_snd. unfold Rdiv. lra.
  - rewrite !tile_to_lat_lon_snd, plus_IZR. field. lra.
  - rewrite tile_to_lat_lon_fst.
    replace (-90) with (degrees (- PI / 2)) by (unfold degrees; field; lra).
    apply degrees_lt. apply atan_bound.
  - rewrite tile_to_lat_lon_fst.
    replace 90 with (degrees (PI / 2)) by (unfold degrees; field; lra).
    apply degrees_lt. apply atan_bound.
  - apply row_edge_decreasing. lia.
  - intros Hz. rewrite !tile_to_lat_lon_fst.
    rewrite minus_IZR, <- (powerRZ_2_IZR z Hz).
    replace (PI * (1 - 2 * (powerRZ 2 z - IZR y) / powerRZ 2 z))
      with (- (PI * (1 - 2 * IZR y / powerRZ 2 z))) by (field; lra).
    rewrite sinh_opp, atan_opp. unfold degrees. ring.
Qed.

End TileGrid2.

Section TileOrder.
Local Open Scope R_scope.



End TileOrder.

Section Coverage.
Local Open Scope R_scope.

Lemma get_tile_bounds_of_box (clat clon w h : R) (z p : Z) (bbox : BoundingBox) :
  calculate_bounding_box clat clon w h = Ok bbox ->
  get_tile_bounds clat clon w h z p =
    Ok {| min_tile_x := fst (lat_lon_to_tile (min_lat bbox) (min_lon bbox) z) - p;
          max_tile_x := fst (lat_lon_to_tile (max_lat bbox) (max_lon bbox) z) + p;
          min_tile_y := snd (lat_lon_to_tile (max_lat bbox) (max_lon bbox) z) - p;
          max_tile_y := snd (lat_lon_to_tile (min_lat bbox) (min_lon bbox) z) + p;
          zoom := z |}.
Proof.
  intros H. unfold get_tile_bounds. rewrite H. cbn [bind].
  destruct (lat_lon_to_tile (min_lat bbox) (min_lon bbox) z) as [a b].
  destruct (lat_lon_to_tile (max_lat bbox) (max_lon bbox) z) as [c d].
  reflexivity.
Qed.

(** X5.  The tiles of the rectangle cover the bounding box: the north-west corner
    of its first tile and the south-east corner of its last tile enclose the
    box. *)
Theorem get_tile_bounds_covers (clat clon w h : R) (z p : Z)
  (bbox : BoundingBox) :
  calculate_bounding_box clat clon w h = Ok bbox ->
  (0 <= p)%Z ->
  -90 < min_lat bbox <= 85.05 -> -90 < max_lat bbox <= 85.05 ->
  -180 <= min_lon bbox -> -180 <= max_lon bbox ->
  exists tb,
    get_tile_bounds clat clon w h z p = Ok tb /\
    let '(lat_n, lon_w) := tile_to_lat_lon (min_tile_x tb) (min_tile_y tb) z in
    let '(lat_s, lon_e) :=
      tile_to_lat_lon (max_tile_x tb + 1) (max_tile_y tb + 1) z in
    lon_w <= min_lon bbox /\ max_lon bbox < lon_e /\
    lat_s < min_lat bbox /\ max_lat bbox <= lat_n.
Proof.
  intros Hbox Hp Hlat1 Hlat2 Hlon1 Hlon2.
  eexists. split; [apply (get_tile_bounds_of_box _ _ _ _ _ _ _ Hbox) |].
  cbn [min_tile_x max_tile_x min_tile_y max_tile_y].
  set (x1 := fst (lat_lon_to_tile (min_lat bbox) (min_lon bbox) z)).
  set (y1 := snd (lat_lon_to_tile (min_lat bbox) (min_lon bbox) z)).
  set (x2 := fst (lat_lon_to_tile (max_lat bbox) (max_lon bbox) z)).
  set (y2 := snd (lat_lon_to_tile (max_lat bbox) (max_lon bbox) z)).
  destruct (tile_to_lat_lon (x1 - p) (y2 - p) z) as [lat_n lon_w] eqn:E1.
  destruct (tile_to_lat_lon (x2 + p + 1) (y1 + p + 1) z) as [lat_s lon_e] eqn:E2.
  assert (Hw : lon_w = snd (tile_to_lat_lon (x1 - p) (y2 - p) z)) by now rewrite E1.
  assert (Hn : lat_n = fst (tile_to_lat_lon (x1 - p) (y2 - p) z)) by now rewrite E1.
  assert (He : lon_e = snd (tile_to_lat_lon (x2 + p + 1) (y1 + p + 1) z))
    by now rewrite E2.
  assert (Hs : lat_s = fst (tile_to_lat_lon (x2 + p + 1) (y1 + p + 1) z))
    by now rewrite E2.
  (* the unpadded edges *)
  destruct (py_int_nonneg _ (column_coordinate_nonneg (min_lon bbox) z Hlon1))
    as [_ [Hx1 _]].
  destruct (py_int_nonneg _ (column_coordinate_nonneg (max_lon bbox) z Hlon2))
    as [_ [_ Hx2]].
  destruct (py_int_nonneg _ (row_coordinate_nonneg (min_lat bbox) z Hlat1))
    as [_ [_ Hy1]].
  destruct (py_int_nonneg _ (row_coordinate_nonneg (max_lat bbox) z Hlat2))
    as [_ [Hy2 _]].
  rewrite <- lat_lon_to_tile_fst with (lat := min_lat bbox) in Hx1.
  rewrite <- lat_lon_to_tile_fst with (lat := max_lat bbox) in Hx2.
  rewrite <- lat_lon_to_tile_snd with (lon := min_lon bbox) in Hy1.
  rewrite <- lat_lon_to_tile_snd with (lon := max_lon bbox) in Hy2.
  fold x1 in Hx1. fold x2 in Hx2. fold y1 in Hy1. fold y2 in Hy2.
  repeat split.
  - rewrite Hw.
    apply Rle_trans with (snd (tile_to_lat_lon x1 (y2 - p) z)).
    + apply column_edge_increasing. lia.
    + now apply column_edge_le.
  - rewrite He.
    apply Rlt_le_trans with (snd (tile_to_lat_lon (x2 + 1) (y1 + p + 1) z)).
    + apply Rnot_le_lt. intros C. apply column_edge_le in C.
      rewrite plus_IZR in C. lra.
    + apply column_edge_increasing. lia.
  - rewrite Hs.
    assert (Hlat1' : -90 < min_lat bbox < 90) by lra.
    assert (B : fst (tile_to_lat_lon (x2 + p + 1) (y1 + 1) z) < min_lat bbox).
    { apply Rnot_le_lt. intros C.
      apply (row_edge_ge _ (x2 + p + 1) (y1 + 1) z Hlat1') in C.
      rewrite plus_IZR in C. lra. }
    destruct (Z.eq_dec p 0) as [-> | Hp0].
    + now replace (y1 + 0 + 1)%Z with (y1 + 1)%Z by lia.
    + apply Rlt_trans with (fst (tile_to_lat_lon (x2 + p + 1) (y1 + 1) z));
        [| assumption].
      apply row_edge_decreasing. lia.
  - rewrite Hn.
    assert (Hlat2' : -90 < max_lat bbox < 90) by lra.
    assert (B : max_lat bbox <= fst (tile_to_lat_lon (x1 - p) y2 z)).
    { now apply row_edge_ge. }
    destruct (Z.eq_dec p 0) as [-> | Hp0].
    + now replace (y2 - 0)%Z with y2 by lia.
    + apply Rle_trans with (fst (tile_to_lat_lon (x1 - p) y2 z)); [assumption |].
      left. apply row_edge_decreasing. lia.
Qed.

(** The theorem for 500 m around (0, 10) on the equator, zoom 17, padding 1. *)
Lemma get_tile_bounds_covers_example :
  exists bbox tb,
    calculate_bounding_box 0 10 500 500 = Ok bbox /\
    get_tile_bounds 0 10 500 500 17 1 = Ok tb /\
    let '(lat_n, lon_w) := tile_to_lat_lon (min_tile_x tb) (min_tile_y tb) 17 in
    let '(lat_s, lon_e) :=
      tile_to_lat_lon (max_tile_x tb + 1) (max_tile_y tb + 1) 17 in
    lon_w <= min_lon bbox /\ max_lon bbox < lon_e /\
    lat_s < min_lat bbox /\ max_lat bbox <= lat_n.
Proof.
  assert (A : Rabs 0 < 90) by (rewrite Rabs_R0; lra).
  destruct (get_tile_bounds_ok 0 10 500 500 17 1 A) as [Hbox _].
  cbv zeta in Hbox.
  assert (C : cos (radians 0) = 1).
  { replace (radians 0) with 0 by (unfold radians; lra). apply cos_0. }
  assert (D1 := degrees_le (500 / 2 / 6378137) ltac:(lra)).
  assert (D2 : 0 <= degrees (500 / 2 / (6378137 * cos (radians 0))) <= 1).
  { rewrite C.
    pose proof (degrees_le (500 / 2 / (6378137 * 1)) ltac:(lra)). lra. }
  assert (D3 : 0 <= degrees (500 / 2 / 6378137) <= 1) by lra.
  clear D1.
  eexists.
  destruct (get_tile_bounds_covers 0 10 500 500 17 1 _ Hbox) as [tb [Htb Hc]].
  - lia.
  - cbn [min_lat]. lra.
  - cbn [max_lat]. lra.
  - cbn [min_lon]. lra.
  - cbn [max_lon]. lra.
  - exists tb. split; [exact Hbox |]. split; [exact Htb | exact Hc].
Defined.

End Coverage.

(** ** The zoom level and the size of the rectangle *)

Section Zoom.
Local Open Scope R_scope.

(** [round] moves a number by at most one half. *)
Lemma py_round_near (r : R) :
  IZR (py_round r) - 1 / 2 <= r <= IZR (py_round r) + 1 / 2.
Proof.
  unfold py_round. pose proof (Zfloor_bound r) as [H1 H2].
  destruct (Rlt_dec (r - IZR (Zfloor r)) (1 / 2)).
  - lra.
  - destruct (Rlt_dec (1 / 2) (r - IZR (Zfloor r))).
    + rewrite plus_IZR. lra.
    + destruct (Z.even (Zfloor r)); [| rewrite plus_IZR]; lra.
Qed.

(** [2 ** (k + 1/2)] and [2 ** (k - 1/2)] in terms of the square root of 2. *)
Lemma exp_half_step (k : Z) :
  exp ((IZR k + 1 / 2) * ln 2) = powerRZ 2 k * sqrt 2 /\
  exp ((IZR k - 1 / 2) * ln 2) * sqrt 2 = powerRZ 2 k.
Proof.
  assert (H2 : 0 < 2) by lra.
  assert (Hs : exp (1 / 2 * ln 2) = sqrt 2).
  { rewrite <- (Rpower_sqrt 2 H2). unfold Rpower. f_equal. lra. }
  assert (Hk : exp (IZR k * ln 2) = powerRZ 2 k).
  { rewrite (powerRZ_Rpower 2 k H2). reflexivity. }
  split.
  - rewrite Rmult_plus_distr_r, exp_plus, Hs, Hk. reflexivity.
  - rewrite <- Hs, <- exp_plus, <- Hk. f_equal. lra.
Qed.

(** The resolution of the chosen zoom: unless the zoom is clamped, the ground
    size of a pixel at that zoom and the target [width_m / image_size] differ
    by a factor of at most the square root of 2. *)
Lemma optimal_zoom_resolution (w s lat : R) :
  0 < w -> 0 < s -> Rabs lat < 90 ->
  exists z : Z,
    calculate_optimal_zoom w s lat = Ok z /\
    let meters_per_pixel := 156543.03392 * cos (radians lat) / powerRZ 2 z in
    ((z < 19)%Z -> meters_per_pixel <= sqrt 2 * (w / s)) /\
    ((0 < z)%Z -> w / s <= sqrt 2 * meters_per_pixel).
Proof.
  intros Hw Hs Hlat.
  rewrite (calculate_optimal_zoom_ok w s lat Hw Hs Hlat).
  set (m0 := 156543.03392 * cos (radians lat)).
  set (t := w / s).
  set (L := ln (m0 / t) / ln 2).
  set (r := py_round L).
  eexists. split; [reflexivity |]. cbv zeta.
  set (z := Z.max 0 (Z.min 19 r)).
  assert (Hm0 : 0 < m0).
  { unfold m0. apply Rmult_lt_0_compat; [lra | now apply cos_radians_pos]. }
  assert (Ht : 0 < t) by (unfold t; now apply Rdiv_lt_0_compat).
  assert (Hratio : 0 < m0 / t) by now apply Rdiv_lt_0_compat.
  assert (Hn : 0 < powerRZ 2 z) by apply pow2_pos.
  assert (Hsq : 0 < sqrt 2) by apply Rlt_sqrt2_0.
  pose proof ln2_pos as Hln2.
  pose proof (py_round_near L) as [Hlo Hhi]. fold r in Hlo, Hhi.
  assert (HL : ln (m0 / t) = L * ln 2) by (unfold L; field; lra).
  destruct (exp_half_step z) as [Eup Edown].
  split; intros Hz.
  - assert (Hrz : (r <= z)%Z) by lia.
    apply IZR_le in Hrz.
    assert (B : m0 / t <= powerRZ 2 z * sqrt 2).
    { rewrite <- Eup, <- (exp_ln (m0 / t) Hratio), HL.
      destruct (Rle_lt_or_eq_dec (L * ln 2) ((IZR z + 1 / 2) * ln 2)) as [C | C].
      - apply Rmult_le_compat_r; lra.
      - left. now apply exp_increasing.
      - right. now rewrite C. }
    apply Rmult_le_reg_r with (powerRZ 2 z / t).
    { now apply Rdiv_lt_0_compat. }
    replace (m0 / powerRZ 2 z * (powerRZ 2 z / t)) with (m0 / t) by (field; lra).
    replace (sqrt 2 * t * (powerRZ 2 z / t)) with (powerRZ 2 z * sqrt 2)
      by (field; lra).
    exact B.
  - assert (Hrz : (z <= r)%Z) by lia.
    apply IZR_le in Hrz.
    assert (B : powerRZ 2 z <= m0 / t * sqrt 2).
    { rewrite <- Edown. apply Rmult_le_compat_r; [lra |].
      rewrite <- (exp_ln (m0 / t) Hratio), HL.
      destruct (Rle_lt_or_eq_dec ((IZR z - 1 / 2) * ln 2) (L * ln 2)) as [C | C].
      - apply Rmult_le_compat_r; lra.
      - left. now apply exp_increasing.
      - right. now rewrite C. }
    apply Rmult_le_reg_r with (powerRZ 2 z / t).
    { now apply Rdiv_lt_0_compat. }
    replace (t * (powerRZ 2 z / t)) with (powerRZ 2 z) by (field; lra).
    replace (sqrt 2 * (m0 / powerRZ 2 z) * (powerRZ 2 z / t))
      with (m0 / t * sqrt 2) by (field; lra).
    exact B.
Qed.

(** X7.  The chosen zoom is the nearest one: below the upper clamp a pixel at
    that zoom covers at most the square root of 2 times the target
    [width_m / image_size], above the lower clamp at least the target divided
    by the square root of 2. *)
Theorem calculate_optimal_zoom_resolution (w s lat : R) :
  0 < w -> 0 < s -> Rabs lat < 90 ->
  exists z : Z,
    calculate_optimal_zoom w s lat = Ok z /\
    let meters_per_pixel := 156543.03392 * cos (radians lat) / powerRZ 2 z in
    ((z < 19)%Z -> meters_per_pixel <= sqrt 2 * (w / s)) /\
    ((0 < z)%Z -> w / s <= sqrt 2 * meters_per_pixel).
Proof.
  exact (optimal_zoom_resolution w s lat).
Qed.

(** The theorem for 500 m, 1024 pixels, latitude 37.7749. *)
Lemma calculate_optimal_zoom_resolution_example :
  exists z : Z,
    calculate_optimal_zoom 500 1024 37.7749 = Ok z /\
    let meters_per_pixel :=
      156543.03392 * cos (radians 37.7749) / powerRZ 2 z in
    ((z < 19)%Z -> meters_per_pixel <= sqrt 2 * (500 / 1024)) /\
    ((0 < z)%Z -> 500 / 1024 <= sqrt 2 * meters_per_pixel).
Proof.
  apply (calculate_optimal_zoom_resolution 500 1024 37.7749);
    [lra | lra | rewrite Rabs_pos_eq; lra].
Defined.

(** X8.  The arguments for which [calculate_optimal_zoom] raises. *)
Theorem calculate_optimal_zoom_raises (w s lat : R) :
  calculate_optimal_zoom w 0 lat = Raise ZeroDivisionError /\
  (s <> 0 -> calculate_optimal_zoom 0 s lat = Raise ZeroDivisionError) /\
  (w < 0 -> 0 < s -> Rabs lat < 90 ->
     calculate_optimal_zoom w s lat = Raise ValueError).
Proof.
  unfold calculate_optimal_zoom, py_div. cbv zeta. repeat split.
  - destruct (Req_dec_T 0 0); [reflexivity | lra].
  - intros Hs. destruct (Req_dec_T s 0); [contradiction |]. cbn [bind].
    destruct (Req_dec_T (0 / s) 0) as [_ | C]; [reflexivity |].
    exfalso. apply C. unfold Rdiv. ring.
  - intros Hw Hs Hlat.
    destruct (Req_dec_T s 0); [lra |]. cbn [bind].
    assert (Ht : w / s < 0).
    { pose proof (Rinv_0_lt_compat s Hs). unfold Rdiv. nra. }
    destruct (Req_dec_T (w / s) 0); [lra |]. cbn [bind].
    unfold py_log2.
    assert (Hc := cos_radians_pos lat Hlat).
    assert (Hr : 156543.03392 * cos (radians lat) / (w / s) < 0).
    { pose proof (Rinv_lt_0_compat (w / s) Ht). unfold Rdiv at 1. nra. }
    destruct (Rlt_dec 0 (156543.03392 * cos (radians lat) / (w / s)));
      [lra | reflexivity].
Qed.

End Zoom.

Section ZoomAndProviders.
Local Open Scope R_scope.

Lemma py_round_IZR (k : Z) : py_round (IZR k) = k.
Proof.
  unfold py_round. rewrite ZfloorZ.
  destruct (Rlt_dec (IZR k - IZR k) (1 / 2)); [reflexivity | lra].
Qed.

Lemma cos_radians_60 (lat : R) : Rabs lat <= 60 -> 1 / 2 <= cos (radians lat).
Proof.
  intros H. pose proof PI_RGT_0 as Hpi.
  rewrite <- cos_PI3.
  assert (Hr : Rabs (radians lat) <= PI / 3).
  { unfold radians. rewrite Rabs_mult, (Rabs_pos_eq (PI / 180)) by lra. nra. }
  assert (Hcos : cos (radians lat) = cos (Rabs (radians lat))).
  { unfold Rabs. destruct (Rcase_abs (radians lat)); [| reflexivity].
    now rewrite cos_neg. }
  rewrite Hcos. pose proof (Rabs_pos (radians lat)).
  apply cos_decr_1; lra.
Qed.

(** X20.  The zoom is chosen without regard to the provider: for a width of at
    most 500 m, an image of at least 1024 pixels and a latitude within 60
    degrees of the equator, [calculate_optimal_zoom] returns at least 17,
    above the [max_zoom] of 16 that [PROVIDERS] records for [usgs]. *)
Theorem calculate_optimal_zoom_above_usgs (w s lat : R) :
  0 < w <= 500 -> 1024 <= s -> Rabs lat <= 60 ->
  exists z cfg,
    calculate_optimal_zoom w s lat = Ok z /\
    providers_get PROVIDERS "usgs" = Some cfg /\
    (max_zoom cfg < 17 <= z)%Z.
Proof.
  intros [Hw0 Hw] Hs Hlat.
  assert (Hlat' : Rabs lat < 90) by lra.
  rewrite (calculate_optimal_zoom_ok w s lat Hw0 ltac:(lra) Hlat').
  do 2 eexists. split; [reflexivity |]. split; [reflexivity |].
  cbn [max_zoom]. split; [lia |].
  pose proof (cos_radians_60 lat Hlat) as Hc.
  pose proof ln2_pos as Hln2.
  set (ratio := 156543.03392 * cos (radians lat) / (w / s)).
  assert (Hratio : powerRZ 2 17 <= ratio).
  { unfold ratio.
    replace (156543.03392 * cos (radians lat) / (w / s))
      with (156543.03392 * cos (radians lat) * s / w) by (field; lra).
    apply Rmult_le_reg_r with w; [lra |].
    replace (156543.03392 * cos (radians lat) * s / w * w)
      with (156543.03392 * cos (radians lat) * s) by (field; lra).
    rewrite (powerRZ_2_IZR 17) by lia.
    replace (IZR (2 ^ 17)) with 131072 by (simpl; lra).
    nra. }
  assert (HL : IZR 17 <= ln ratio / ln 2).
  { apply Rmult_le_reg_r with (ln 2); [assumption |].
    replace (ln ratio / ln 2 * ln 2) with (ln ratio) by (field; lra).
    assert (E : IZR 17 * ln 2 = ln (powerRZ 2 17)).
    { rewrite (powerRZ_Rpower 2 17) by lra. unfold Rpower. now rewrite ln_exp. }
    rewrite E.
    destruct Hratio as [Hlt | Heq].
    - left. apply ln_increasing; [apply pow2_pos | assumption].
    - right. now rewrite Heq. }
  apply py_round_le in HL. rewrite py_round_IZR in HL. lia.
Qed.

(** The theorem for the default parameters of the node at San Francisco. *)
Lemma calculate_optimal_zoom_above_usgs_example :
  exists z cfg,
    calculate_optimal_zoom 500 1024 37.7749 = Ok z /\
    providers_get PROVIDERS "usgs" = Some cfg /\
    (max_zoom cfg < 17 <= z)%Z.
Proof.
  apply (calculate_optimal_zoom_above_usgs 500 1024 37.7749);
    [lra | lra | rewrite Rabs_pos_eq; lra].
Defined.

End ZoomAndProviders.

Section Offsets.
Local Open Scope R_scope.

Lemma meters_to_lat_lon_offset_ok (lat dx dy : R) :
  Rabs lat < 90 ->
  meters_to_lat_lon_offset lat dx dy =
    Ok (degrees (dy / 6378137),
        degrees (dx / (6378137 * cos (radians lat)))).
Proof.
  intros Hlat. unfold meters_to_lat_lon_offset. cbv zeta.
  rewrite py_div_ok; [reflexivity |].
  pose proof (cos_radians_pos lat Hlat). nra.
Qed.

(** X10.  A north-south offset in metres, converted to degrees by
    [meters_to_lat_lon_offset], is the distance that [haversine_distance]
    measures between the two ends. *)
Theorem haversine_distance_north_south (lat lon dx dy : R) :
  Rabs lat < 90 -> Rabs dy <= PI * 6378137 ->
  exists dlat dlon,
    meters_to_lat_lon_offset lat dx dy = Ok (dlat, dlon) /\
    haversine_distance lat lon (lat + dlat) lon = Ok (Rabs dy).
Proof.
  intros Hlat Hdy. pose proof PI_RGT_0 as Hpi.
  do 2 eexists. split; [now apply meters_to_lat_lon_offset_ok |].
  set (d := degrees (dy / 6378137)).
  assert (Hd : Rabs (lat + d - lat) = degrees (Rabs dy / 6378137)).
  { replace (lat + d - lat) with d by lra. unfold d, degrees, Rdiv.
    rewrite !Rabs_mult.
    rewrite (Rabs_pos_eq (/ 6378137)) by lra.
    rewrite (Rabs_pos_eq 180) by lra.
    rewrite (Rabs_pos_eq (/ PI)); [reflexivity |].
    left. now apply Rinv_0_lt_compat. }
  rewrite haversine_meridian.
  - rewrite Hd, radians_degrees. f_equal. field.
  - rewrite Hd. unfold degrees.
    apply Rmult_le_reg_r with (PI / 180); [lra |].
    replace (Rabs dy / 6378137 * (180 / PI) * (PI / 180))
      with (Rabs dy / 6378137) by (field; lra).
    lra.
Qed.

(** The theorem for 250 m north of San Francisco. *)
Lemma haversine_distance_north_south_example :
  exists dlat dlon,
    meters_to_lat_lon_offset 37.7749 250 250 = Ok (dlat, dlon) /\
    haversine_distance 37.7749 (-122.4194) (37.7749 + dlat) (-122.4194)
      = Ok (Rabs 250).
Proof.
  apply (haversine_distance_north_south 37.7749 (-122.4194) 250 250).
  - rewrite Rabs_pos_eq; lra.
  - rewrite Rabs_pos_eq by lra. pose proof PI_gt_3. lra.
Defined.

End Offsets.

Section Columns.
Local Open Scope R_scope.

(** Truncation toward zero shortens a difference by less than one. *)
Lemma py_int_diff (a b : R) :
  a <= b -> IZR (py_int b) - IZR (py_int a) < b - a + 1.
Proof.
  intros Hab. unfold py_int.
  pose proof (Zfloor_bound a) as [Fa1 Fa2].
  pose proof (Zfloor_bound b) as [Fb1 Fb2].
  assert (Ca : forall r, r <= IZR (Zceil r) < r + 1).
  { intros r. unfold Zceil. rewrite opp_IZR.
    pose proof (Zfloor_bound (- r)). lra. }
  pose proof (Ca a) as [Ca1 Ca2]. pose proof (Ca b) as [Cb1 Cb2].
  destruct (Rle_dec 0 b), (Rle_dec 0 a); lra.
Qed.

End Columns.

Section Columns2.
Local Open Scope R_scope.

(** X6.  The number of columns that [get_tile_bounds] returns for a square of
    [width_m] metres at the zoom that [calculate_optimal_zoom] chooses for
    it: when the zoom is not clamped at 0, the columns are at most
    about 1.42 times [image_size] pixels wide, plus two tiles and the
    padding. *)
Theorem get_tile_bounds_columns (w s lat lon : R) (p : Z) :
  0 < w -> 0 < s -> Rabs lat < 90 ->
  exists z tb,
    calculate_optimal_zoom w s lat = Ok z /\
    get_tile_bounds lat lon w w z p = Ok tb /\
    ((0 < z)%Z ->
       256 * IZR (max_tile_x tb - min_tile_x tb + 1)
         < 1.000001 * sqrt 2 * s + 512 * (1 + IZR p)).
Proof.
  intros Hw Hs Hlat.
  destruct (optimal_zoom_resolution w s lat Hw Hs Hlat) as [z [Hz [_ Hres]]].
  destruct (get_tile_bounds_ok lat lon w w z p Hlat) as [_ Htb].
  cbv zeta in Htb, Hres.
  exists z. eexists. split; [exact Hz |]. split; [exact Htb |].
  intros Hz0. specialize (Hres Hz0).
  cbn [max_tile_x min_tile_x].
  rewrite !lat_lon_to_tile_fst.
  set (c := cos (radians lat)) in *.
  set (n := powerRZ 2 z) in *.
  set (dlon := degrees (w / 2 / (6378137 * c))).
  assert (Hc : 0 < c) by now apply cos_radians_pos.
  assert (Hn : 0 < n) by apply pow2_pos.
  assert (Hsq : 0 < sqrt 2) by apply Rlt_sqrt2_0.
  pose proof PI_lower as Hpi.
  assert (Hdlon : dlon = w * 90 / (6378137 * c * PI)).
  { unfold dlon, degrees. field. lra. }
  assert (Hdpos : 0 < dlon).
  { rewrite Hdlon. apply Rdiv_lt_0_compat; [lra |].
    apply Rmult_lt_0_compat; [nra | lra]. }
  set (a := (lon - dlon + 180) / 360 * n).
  set (b := (lon + dlon + 180) / 360 * n).
  assert (Hab : a <= b).
  { unfold a, b. apply Rmult_le_compat_r; lra. }
  pose proof (py_int_diff a b Hab) as Hdiff.
  assert (Hspan : b - a = w * n / (2 * PI * 6378137 * c)).
  { unfold a, b. rewrite Hdlon. field. lra. }
  (* the zoom is at most half a level finer than the target *)
  assert (Hzoom : w * n <= sqrt 2 * 156543.03392 * c * s).
  { apply Rmult_le_reg_r with (/ (s * n)).
    { apply Rinv_0_lt_compat. now apply Rmult_lt_0_compat. }
    replace (w * n * / (s * n)) with (w / s) by (field; lra).
    replace (sqrt 2 * 156543.03392 * c * s * / (s * n))
      with (sqrt 2 * (156543.03392 * c / n)) by (field; lra).
    exact Hres. }
  assert (Hden : 0 < 2 * PI * 6378137 * c) by nra.
  assert (HS : 256 * (b - a) <= 1.000001 * sqrt 2 * s).
  { rewrite Hspan.
    apply Rmult_le_reg_r with (2 * PI * 6378137 * c); [assumption |].
    replace (256 * (w * n / (2 * PI * 6378137 * c)) * (2 * PI * 6378137 * c))
      with (256 * (w * n)) by (field; lra).
    apply Rle_trans with (256 * (sqrt 2 * 156543.03392 * c * s)); [lra |].
    assert (Hk : 256 * 156543.03392 <= 1.000001 * (2 * PI * 6378137)) by lra.
    assert (Hpos : 0 <= sqrt 2 * c * s).
    { apply Rmult_le_pos; [apply Rmult_le_pos |]; lra. }
    replace (256 * (sqrt 2 * 156543.03392 * c * s))
      with (256 * 156543.03392 * (sqrt 2 * c * s)) by ring.
    replace (1.000001 * sqrt 2 * s * (2 * PI * 6378137 * c))
      with (1.000001 * (2 * PI * 6378137) * (sqrt 2 * c * s)) by ring.
    now apply Rmult_le_compat_r. }
  fold a b.
  replace (py_int b + p - (py_int a - p) + 1)%Z
    with (py_int b - py_int a + (2 * p + 1))%Z by lia.
  rewrite plus_IZR, minus_IZR, plus_IZR, mult_IZR. lra.
Qed.

(** The theorem for 500 m at San Francisco and an image of 1024 pixels: at most 9 columns. *)
Lemma get_tile_bounds_columns_example :
  exists z tb,
    calculate_optimal_zoom 500 1024 37.7749 = Ok z /\
    get_tile_bounds 37.7749 (-122.4194) 500 500 z 1 = Ok tb /\
    ((0 < z)%Z ->
       256 * IZR (max_tile_x tb - min_tile_x tb + 1)
         < 1.000001 * sqrt 2 * 1024 + 512 * (1 + IZR 1)).
Proof.
  apply (get_tile_bounds_columns 500 1024 37.7749 (-122.4194) 1);
    [lra | lra | rewrite Rabs_pos_eq; lra].
Defined.

End Columns2.

(** ** One tile *)

Section OneTile.
Context {blob : Type} (w : World blob) (f : TileFetcher).

Lemma fetch_from_provider_requests (st : State blob) (key : TileKey) (c : bool) :
  requests (fst (fetch_from_provider w f st key c)) = requests st ++ [key].
Proof.
  unfold fetch_from_provider.
  destruct (http_get w (url (provider_config f)) key) as [code content| |];
    try reflexivity.
  destruct (code =? 200); [| reflexivity].
  destruct (image_open (pil w) content) as [img|]; [| reflexivity].
  destruct c; [| reflexivity].
  cbn [fst]. unfold save_png.
  destruct (png_encode (pil w) img); [destruct (write_ok w key) |]; reflexivity.
Qed.

Lemma fetch_tile_requests (st : State blob) (z x y : Z) :
  makedirs_tile w z x = true ->
  requests (fst (fetch_tile w f st z x y true)) =
  requests st ++
  (if served_from_cache w st z (x, y) then [] else [(z, x, y)]).
Proof.
  intros Hd. unfold fetch_tile, _get_cache_path, served_from_cache.
  rewrite Hd. cbv zeta. cbn [fst snd].
  destruct (files st (z, x, y)) as [b|].
  - destruct (load_cached w b).
    + cbn. now rewrite app_nil_r.
    + apply fetch_from_provider_requests.
  - apply fetch_from_provider_requests.
Qed.

Lemma fetch_from_provider_files_local (st1 st2 : State blob) (key : TileKey)
  (c : bool) :
  files st1 key = files st2 key ->
  files (fst (fetch_from_provider w f st1 key c)) key =
  files (fst (fetch_from_provider w f st2 key c)) key.
Proof.
  intros E. unfold fetch_from_provider.
  destruct (http_get w (url (provider_config f)) key) as [code content| |];
    try exact E.
  destruct (code =? 200); [| exact E].
  destruct (image_open (pil w) content) as [img|]; [| exact E].
  destruct c; [| exact E].
  cbn [fst]. unfold save_png.
  destruct (png_encode (pil w) img); [destruct (write_ok w key) |];
    unfold write_file; cbn [files]; now rewrite key_eqb_refl.
Qed.

Lemma fetch_tile_files_local (st1 st2 : State blob) (z x y : Z) (c : bool) :
  files st1 (z, x, y) = files st2 (z, x, y) ->
  files (fst (fetch_tile w f st1 z x y c)) (z, x, y) =
  files (fst (fetch_tile w f st2 z x y c)) (z, x, y).
Proof.
  intros E. unfold fetch_tile, _get_cache_path.
  destruct (makedirs_tile w z x); [| exact E].
  cbv zeta. rewrite E.
  destruct (if c then _ else _) as [img|]; [exact E |].
  now apply fetch_from_provider_files_local.
Qed.

(** X11.  Without the cache, [fetch_tile] neither reads nor writes a cache file: it
    sends one request, whatever the cache holds, and returns what the download
    gives. *)
Theorem fetch_tile_no_cache (st : State blob) (z x y : Z) :
  makedirs_tile w z x = true ->
  exists o,
    fetch_tile w f st z x y false = (log_request st (z, x, y), Ok o) /\
    forall st2 : State blob,
      snd (fetch_tile w f st2 z x y false) = Ok o.
Proof.
  intros Hd. unfold fetch_tile, _get_cache_path. rewrite Hd. cbv zeta.
  unfold fetch_from_provider.
  destruct (http_get w (url (provider_config f)) (z, x, y))
    as [code content| |].
  - destruct (code =? 200).
    + destruct (image_open (pil w) content) as [img|];
        eexists; split; reflexivity.
    + eexists; split; reflexivity.
  - eexists; split; reflexivity.
  - eexists; split; reflexivity.
Qed.

(** X12.  A call that returns no image leaves every cache file as it was and has
    sent exactly one request. *)
Theorem fetch_tile_failure (st st' : State blob) (z x y : Z) (c : bool) :
  fetch_tile w f st z x y c = (st', Ok None) ->
  st' = log_request st (z, x, y).
Proof.
  unfold fetch_tile, _get_cache_path.
  destruct (makedirs_tile w z x); [| discriminate].
  cbv zeta.
  destruct (if c then _ else _) as [img|]; [discriminate |].
  unfold fetch_from_provider.
  destruct (http_get w (url (provider_config f)) (z, x, y))
    as [code content| |].
  - destruct (code =? 200).
    + destruct (image_open (pil w) content) as [img|]; [discriminate |].
      now intros [= <-].
    + now intros [= <-].
  - now intros [= <-].
  - now intros [= <-].
Qed.

End OneTile.

(** The theorem for the tile (4, 5, 7) and an empty cache. *)
Lemma fetch_tile_no_cache_example :
  exists o,
    fetch_tile online_world esri_fetcher empty_cache 4 5 7 false
      = (log_request empty_cache (4, 5, 7), Ok o) /\
    forall st2 : State Image,
      snd (fetch_tile online_world esri_fetcher st2 4 5 7 false) = Ok o.
Proof.
  apply (fetch_tile_no_cache online_world esri_fetcher empty_cache 4 5 7).
  reflexivity.
Defined.

(** The theorem for a request that times out. *)
Lemma fetch_tile_failure_example :
  fst (fetch_tile offline_world esri_fetcher empty_cache 4 5 7 true)
    = log_request empty_cache (4, 5, 7).
Proof.
  apply (fetch_tile_failure offline_world esri_fetcher empty_cache _ 4 5 7 true).
  reflexivity.
Defined.

(** ** A batch of tiles *)

Section BatchState.
Context {blob : Type} (w : World blob) (f : TileFetcher) (z : Z)
        (st0 : State blob).

Lemma served_from_cache_local (st1 st2 : State blob) (xy : Z * Z) :
  files st1 (tile_key z xy) = files st2 (tile_key z xy) ->
  served_from_cache w st1 z xy = served_from_cache w st2 z xy.
Proof.
  unfold served_from_cache, tile_key. now intros ->.
Qed.

(** The state after the inner loop. *)
Lemma fetch_ys_state (x : Z) (ys : list Z) :
  forall (st : State blob) (tiles : TileDict),
    NoDup ys -> makedirs_tile w z x = true ->
    (forall y, In y ys -> files st (z, x, y) = files st0 (z, x, y)) ->
    let st' := fst (fetch_ys w f z x ys st tiles) in
    requests st' =
      requests st ++
      map (tile_key z)
          (filter (fun xy => negb (served_from_cache w st0 z xy))
                  (map (pair x) ys)) /\
    (forall y, In y ys ->
       files st' (z, x, y) =
       files (fst (fetch_tile w f st0 z x y true)) (z, x, y)) /\
    (forall k, (forall y, In y ys -> k <> (z, x, y)) -> files st' k = files st k).
Proof.
  induction ys as [|y rest IH]; intros st tiles Hnd Hdir Hfiles.
  - cbn. rewrite app_nil_r. split; [reflexivity |].
    split; [intros ? [] | reflexivity].
  - inversion Hnd as [|? ? Hy Hrest]; subst.
    cbn [fetch_ys map filter].
    assert (Hreq := fetch_tile_requests w f st z x y Hdir).
    assert (Hloc := fetch_tile_files_local w f st st0 z x y true
                      (Hfiles y (or_introl eq_refl))).
    rewrite (served_from_cache_local st st0 (x, y)) in Hreq
      by (apply Hfiles; now left).
    destruct (fetch_tile w f st z x y true) as [st1 r] eqn:E.
    assert (Hframe := fetch_tile_frame w f st st1 z x y true r E).
    destruct (fetch_tile_returns w f st z x y true Hdir) as [o Ho].
    rewrite E in Ho. cbn in Ho. subst r. cbn [fst] in Hreq, Hloc.
    assert (Hfiles1 : forall y', In y' rest ->
                        files st1 (z, x, y') = files st0 (z, x, y')).
    { intros y' Hy'. rewrite Hframe.
      - apply Hfiles. now right.
      - intros [= ->]. contradiction. }
    assert (Hgoal : forall tiles1,
      let st' := fst (fetch_ys w f z x rest st1 tiles1) in
      requests st' =
        requests st ++
        map (tile_key z)
            ((if negb (served_from_cache w st0 z (x, y)) then [(x, y)] else [])
             ++ filter (fun xy => negb (served_from_cache w st0 z xy))
                       (map (pair x) rest)) /\
      (forall y0, y = y0 \/ In y0 rest ->
         files st' (z, x, y0) =
         files (fst (fetch_tile w f st0 z x y0 true)) (z, x, y0)) /\
      (forall k, (forall y0, y = y0 \/ In y0 rest -> k <> (z, x, y0)) ->
         files st' k = files st k)).
    { intros tiles1.
      destruct (IH st1 tiles1 Hrest Hdir Hfiles1) as [Hr [Hf Hfr]].
      cbv zeta. repeat split.
      - rewrite Hr, Hreq, map_app, <- app_assoc. f_equal. f_equal.
        destruct (served_from_cache w st0 z (x, y)); reflexivity.
      - intros y0 [<- | Hin].
        + rewrite Hfr; [exact Hloc |].
          intros y' Hy' [= ->]. contradiction.
        + now apply Hf.
      - intros k Hk. rewrite Hfr by (intros; apply Hk; now right).
        apply Hframe, Hk. now left. }
    destruct (negb (served_from_cache w st0 z (x, y))) eqn:Em;
      destruct o as [img|]; apply Hgoal.
Qed.

Lemma fetch_ys_returns (x : Z) (ys : list Z) :
  forall (st : State blob) (tiles : TileDict),
    makedirs_tile w z x = true ->
    exists tiles', snd (fetch_ys w f z x ys st tiles) = Ok tiles'.
Proof.
  induction ys as [|y rest IH]; intros st tiles Hdir.
  - eexists. reflexivity.
  - cbn [fetch_ys].
    destruct (fetch_tile_returns w f st z x y true Hdir) as [o Ho].
    destruct (fetch_tile w f st z x y true) as [st1 r].
    cbn in Ho. subst r. destruct o; now apply IH.
Qed.

(** The state after the outer loop. *)
Lemma fetch_xs_state (ys : list Z) (Hys : NoDup ys) (xs : list Z) :
  forall (st : State blob) (tiles : TileDict),
    NoDup xs ->
    (forall x, In x xs -> makedirs_tile w z x = true) ->
    (forall x y, In x xs -> In y ys -> files st (z, x, y) = files st0 (z, x, y)) ->
    let st' := fst (fetch_xs w f z xs ys st tiles) in
    requests st' =
      requests st ++
      map (tile_key z)
          (filter (fun xy => negb (served_from_cache w st0 z xy))
                  (flat_map (fun x => map (pair x) ys) xs)) /\
    (forall x y, In x xs -> In y ys ->
       files st' (z, x, y) =
       files (fst (fetch_tile w f st0 z x y true)) (z, x, y)) /\
    (forall k, (forall x y, In x xs -> In y ys -> k <> (z, x, y)) ->
       files st' k = files st k).
Proof.
  induction xs as [|x rest IH]; intros st tiles Hnd Hdir Hfiles.
  - cbn. rewrite app_nil_r. split; [reflexivity |].
    split; [intros ? ? [] | reflexivity].
  - inversion Hnd as [|? ? Hx Hrest]; subst.
    cbn [fetch_xs flat_map].
    destruct (fetch_ys_state x ys st tiles Hys (Hdir x (or_introl eq_refl)))
      as [Hr1 [Hf1 Hfr1]].
    { intros y Hy. apply Hfiles; [now left | assumption]. }
    destruct (fetch_ys_returns x ys st tiles (Hdir x (or_introl eq_refl)))
      as [tiles1 Hret].
    destruct (fetch_ys w f z x ys st tiles) as [st1 r].
    cbn [fst snd] in Hr1, Hf1, Hfr1, Hret. subst r.
    assert (Hfiles1 : forall x' y, In x' rest -> In y ys ->
                        files st1 (z, x', y) = files st0 (z, x', y)).
    { intros x' y Hx' Hy. rewrite Hfr1.
      - apply Hfiles; [now right | assumption].
      - intros y' _ [= -> _]. contradiction. }
    destruct (IH st1 tiles1 Hrest (fun x' H => Hdir x' (or_intror H)) Hfiles1)
      as [Hr [Hf Hfr]].
    cbv zeta. split; [| split].
    + rewrite Hr, Hr1, filter_app, map_app, <- app_assoc. reflexivity.
    + intros x' y [<- | Hin] Hy.
      * rewrite Hfr; [now apply Hf1 |].
        intros x' y' Hx' _ [= -> _]. contradiction.
      * now apply Hf.
    + intros k Hk. rewrite Hfr by (intros; apply Hk; [now right | assumption]).
      apply Hfr1. intros y Hy. apply Hk; [now left | assumption].
Qed.

End BatchState.

Section BatchTheorems.
Context {blob : Type} (w : World blob) (f : TileFetcher).




Lemma rect_keys_dir (tb : TileBounds) :
  (forall x, min_tile_x tb <= x <= max_tile_x tb ->
             makedirs_tile w (zoom tb) x = true) ->
  forall x, In x (py_range (min_tile_x tb) (max_tile_x tb + 1)) ->
            makedirs_tile w (zoom tb) x = true.
Proof.
  intros Hdir x Hin. apply Hdir. apply py_range_In in Hin. lia.
Qed.

(** X14.  The requests of a batch: one for each tile of the rectangle that is not
    served from the cache, in the order of the loops; cache files of other
    tiles are left alone. *)
Theorem fetch_tiles_requests (st : State blob) (tb : TileBounds) :
  (forall x, min_tile_x tb <= x <= max_tile_x tb ->
             makedirs_tile w (zoom tb) x = true) ->
  let st' := fst (fetch_tiles w f st tb) in
  requests st' =
    requests st ++
    map (tile_key (zoom tb))
        (filter (fun xy => negb (served_from_cache w st (zoom tb) xy))
                (rect_keys tb)) /\
  (List.length (requests st') <=
     List.length (requests st) + List.length (rect_keys tb))%nat /\
  (forall k, ~ In k (map (tile_key (zoom tb)) (rect_keys tb)) ->
             files st' k = files st k).
Proof.
  intros Hdir. unfold fetch_tiles. cbv zeta.
  destruct (fetch_xs_state w f (zoom tb) st
              (py_range (min_tile_y tb) (max_tile_y tb + 1))
              (py_range_NoDup _ _)
              (py_range (min_tile_x tb) (max_tile_x tb + 1)) st []
              (py_range_NoDup _ _) (rect_keys_dir tb Hdir)
              (fun _ _ _ _ => eq_refl)) as [Hr [_ Hfr]].
  split; [exact Hr |]. split.
  - rewrite Hr, length_app, length_map.
    apply Nat.add_le_mono_l. apply filter_length_le.
  - intros k Hk. apply Hfr. intros x y Hx Hy ->. apply Hk.
    apply in_map_iff. exists (x, y). split; [reflexivity |].
    unfold rect_keys. apply in_flat_map. exists x. split; [assumption |].
    now apply in_map.
Qed.

End BatchTheorems.


(** The theorem for a rectangle of three by three tiles and an empty cache. *)
Lemma fetch_tiles_requests_example :
  let st' := fst (fetch_tiles online_world esri_fetcher empty_cache
                    three_by_three) in
  requests st' =
    requests empty_cache ++
    map (tile_key (zoom three_by_three))
        (filter (fun xy => negb (served_from_cache online_world empty_cache
                                   (zoom three_by_three) xy))
                (rect_keys three_by_three)) /\
  (List.length (requests st') <=
     List.length (requests empty_cache) +
     List.length (rect_keys three_by_three))%nat /\
  (forall k, ~ In k (map (tile_key (zoom three_by_three))
                         (rect_keys three_by_three)) ->
             files st' k = files empty_cache k).
Proof.
  apply (fetch_tiles_requests online_world esri_fetcher empty_cache
           three_by_three).
  reflexivity.
Defined.

Section Twice.
Context {blob : Type} (w : World blob) (f : TileFetcher).

(** A tile is returned when it is served from the cache or downloaded. *)
Lemma fetch_succeeds_cases (st : State blob) (z : Z) (xy : Z * Z) :
  makedirs_tile w z (fst xy) = true ->
  fetch_succeeds w f st z xy =
  served_from_cache w st z xy ||
  match snd (fetch_from_provider w f st (tile_key z xy) true) with
  | Ok (Some _) => true
  | _ => false
  end.
Proof.
  intros Hd. unfold fetch_succeeds, fetch_tile, _get_cache_path,
    served_from_cache, tile_key.
  rewrite Hd. cbv zeta.
  destruct (files st (z, fst xy, snd xy)) as [b|]; [| reflexivity].
  destruct (load_cached w b); reflexivity.
Qed.

Lemma pixel_identical_loaded (a b : Image) :
  pixel_identical a b -> exists d, img_data b = Some d.
Proof.
  intros [_ [_ [da [db [_ [H _]]]]]]. now exists db.
Qed.

(** After a download, the tile is in the cache when the download returned
    it, and the cache file is as before when it did not. *)
Lemma served_after_download (st : State blob) (z : Z) (xy : Z * Z) :
  png_lossless (pil w) ->
  write_ok w (tile_key z xy) = true ->
  (forall code content img,
     http_get w (url (provider_config f)) (tile_key z xy)
       = HttpResponse code content ->
     image_open (pil w) content = Some img ->
     png_encode (pil w) img <> None) ->
  served_from_cache w (fst (fetch_from_provider w f st (tile_key z xy) true))
                    z xy
  = match snd (fetch_from_provider w f st (tile_key z xy) true) with
    | Ok (Some _) => true
    | _ => served_from_cache w st z xy
    end.
Proof.
  intros Hpng Hw Henc. unfold fetch_from_provider.
  destruct (http_get w (url (provider_config f)) (tile_key z xy))
    as [code content| |]; try reflexivity.
  destruct (code =? 200); [| reflexivity].
  destruct (image_open (pil w) content) as [img|] eqn:Eo; [| reflexivity].
  cbn [fst snd]. unfold save_png.
  destruct (png_encode (pil w) img) as [b'|] eqn:Ee;
    [| exfalso; exact (Henc code content img eq_refl Eo Ee)].
  rewrite Hw. unfold served_from_cache, write_file. cbn [files].
  fold (tile_key z xy). rewrite key_eqb_refl.
  destruct (Hpng img b' Ee) as [img' [Ho' Hid]].
  destruct (pixel_identical_loaded _ _ Hid) as [d Hdta].
  unfold load_cached. now rewrite Ho', Hdta.
Qed.

(** After a call, the tile is in the cache exactly when the call returned
    it. *)
Lemma served_after_fetch (st : State blob) (z : Z) (xy : Z * Z) :
  png_lossless (pil w) ->
  makedirs_tile w z (fst xy) = true ->
  write_ok w (tile_key z xy) = true ->
  (forall code content img,
     http_get w (url (provider_config f)) (tile_key z xy)
       = HttpResponse code content ->
     image_open (pil w) content = Some img ->
     png_encode (pil w) img <> None) ->
  served_from_cache w (fst (fetch_tile w f st z (fst xy) (snd xy) true)) z xy
  = fetch_succeeds w f st z xy.
Proof.
  intros Hpng Hd Hw Henc.
  rewrite (fetch_succeeds_cases st z xy Hd).
  assert (Hdl := served_after_download st z xy Hpng Hw Henc).
  unfold fetch_tile, _get_cache_path. rewrite Hd. cbv zeta.
  fold (tile_key z xy).
  destruct (served_from_cache w st z xy) eqn:Es.
  - unfold served_from_cache in Es. fold (tile_key z xy) in Es.
    destruct (files st (tile_key z xy)) as [b|] eqn:Ef; [| discriminate].
    destruct (load_cached w b) eqn:El; [| discriminate].
    cbn [fst]. unfold served_from_cache. fold (tile_key z xy).
    now rewrite Ef, El.
  - assert (Hmiss : match files st (tile_key z xy) with
                    | Some b => load_cached w b
                    | None => None
                    end = None).
    { unfold served_from_cache in Es. fold (tile_key z xy) in Es.
      destruct (files st (tile_key z xy)) as [b|]; [| reflexivity].
      destruct (load_cached w b); [discriminate | reflexivity]. }
    rewrite Hmiss, Hdl. cbn [orb].
    destruct (snd (fetch_from_provider w f st (tile_key z xy) true))
      as [[img|]|]; reflexivity.
Qed.

(** X15.  The same rectangle fetched twice: the second batch returns the same
    tiles and sends a request only for the tiles that the first batch did
    not get. *)
Theorem fetch_tiles_twice (st : State blob) (tb : TileBounds) :
  png_lossless (pil w) ->
  (forall x, min_tile_x tb <= x <= max_tile_x tb ->
             makedirs_tile w (zoom tb) x = true) ->
  cache_writable w f tb ->
  exists st1 tiles1 st2 tiles2,
    fetch_tiles w f st tb = (st1, Ok tiles1) /\
    fetch_tiles w f st1 tb = (st2, Ok tiles2) /\
    map fst tiles2 = map fst tiles1 /\
    requests st2 =
      requests st1 ++
      map (tile_key (zoom tb))
          (filter (fun xy => negb (fetch_succeeds w f st (zoom tb) xy))
                  (rect_keys tb)).
Proof.
  intros Hpng Hdir Hcw.
  set (z := zoom tb).
  set (xs := py_range (min_tile_x tb) (max_tile_x tb + 1)).
  set (ys := py_range (min_tile_y tb) (max_tile_y tb + 1)).
  assert (Hxs : NoDup xs) by apply py_range_NoDup.
  assert (Hys : NoDup ys) by apply py_range_NoDup.
  assert (Hdir' : forall x, In x xs -> makedirs_tile w z x = true)
    by (apply rect_keys_dir; exact Hdir).
  (* first batch *)
  destruct (fetch_xs_spec w f z st ys Hys xs st [] Hxs Hdir')
    as [st1 [tiles1 [Hrun1 Hkeys1]]];
    [intros ? ? _ _ [] | reflexivity |].
  destruct (fetch_xs_state w f z st ys Hys xs st [] Hxs Hdir'
              (fun _ _ _ _ => eq_refl)) as [_ [Hf1 _]].
  rewrite Hrun1 in Hf1. cbn [fst] in Hf1.
  (* second batch *)
  destruct (fetch_xs_spec w f z st1 ys Hys xs st1 [] Hxs Hdir')
    as [st2 [tiles2 [Hrun2 Hkeys2]]];
    [intros ? ? _ _ [] | reflexivity |].
  destruct (fetch_xs_state w f z st1 ys Hys xs st1 [] Hxs Hdir'
              (fun _ _ _ _ => eq_refl)) as [Hr2 _].
  rewrite Hrun2 in Hr2. cbn [fst] in Hr2.
  (* what the cache holds after the first batch *)
  assert (Hserved : forall xy, In xy (rect_keys tb) ->
            served_from_cache w st1 z xy = fetch_succeeds w f st z xy).
  { intros [x y] Hin.
    assert (Hin' := Hin). unfold rect_keys in Hin'.
    apply in_flat_map in Hin' as [x' [Hx Hy]].
    apply in_map_iff in Hy as [y' [[= -> ->] Hy]].
    destruct (Hcw (x, y) Hin) as [Hw Henc].
    rewrite <- (served_after_fetch st z (x, y) Hpng (Hdir' x Hx) Hw Henc).
    apply served_from_cache_local. unfold tile_key. cbn [fst snd].
    now apply Hf1. }
  assert (Hsucc : forall xy, In xy (rect_keys tb) ->
            fetch_succeeds w f st1 z xy = fetch_succeeds w f st z xy).
  { intros [x y] Hin.
    assert (Hin' := Hin). unfold rect_keys in Hin'.
    apply in_flat_map in Hin' as [x' [Hx Hy]].
    apply in_map_iff in Hy as [y' [[= -> ->] Hy]].
    rewrite (fetch_succeeds_cases st1 z (x, y) (Hdir' x Hx)).
    rewrite (Hserved (x, y) Hin).
    rewrite (fetch_from_provider_local w f st1 st).
    rewrite (fetch_succeeds_cases st z (x, y) (Hdir' x Hx)).
    now rewrite <- orb_assoc, orb_diag. }
  exists st1, tiles1, st2, tiles2.
  split; [exact Hrun1 |]. split; [exact Hrun2 |]. split.
  - rewrite Hkeys2, Hkeys1. cbn [map app].
    apply filter_ext_in. exact Hsucc.
  - rewrite Hr2. f_equal. f_equal.
    apply filter_ext_in. intros xy Hin. f_equal. now apply Hserved.
Qed.

End Twice.

Lemma online_world_cache_writable :
  cache_writable online_world esri_fetcher three_by_three.
Proof.
  intros xy _. split; [reflexivity |].
  intros code content img [= _ <-] [= <-]. discriminate.
Qed.

(** The theorem for a rectangle of three by three tiles. *)
Lemma fetch_tiles_twice_example :
  exists st1 tiles1 st2 tiles2,
    fetch_tiles online_world esri_fetcher empty_cache three_by_three
      = (st1, Ok tiles1) /\
    fetch_tiles online_world esri_fetcher st1 three_by_three
      = (st2, Ok tiles2) /\
    map fst tiles2 = map fst tiles1 /\
    requests st2 =
      requests st1 ++
      map (tile_key (zoom three_by_three))
          (filter (fun xy => negb (fetch_succeeds online_world esri_fetcher
                                     empty_cache (zoom three_by_three) xy))
                  (rect_keys three_by_three)).
Proof.
  apply (fetch_tiles_twice online_world esri_fetcher empty_cache
           three_by_three).
  - exact plain_pil_lossless.
  - reflexivity.
  - exact online_world_cache_writable.
Defined.

(** ** Cache paths and URLs *)

Section Strings.
Local Open Scope string_scope.

Lemma string_app_assoc (a b c : string) : (a ++ b) ++ c = a ++ (b ++ c).
Proof.
  induction a as [|d a IH]; [reflexivity | cbn; now rewrite IH].
Qed.

Lemma string_app_inv_head (a b c : string) : a ++ b = a ++ c -> b = c.
Proof.
  induction a as [|d a IH]; [trivial | cbn; intros [= H]; auto].
Qed.

Lemma occurs_app (c : ascii) (a b : string) :
  occurs c (a ++ b) = occurs c a || occurs c b.
Proof.
  induction a as [|d a IH]; [reflexivity |].
  cbn. now rewrite IH, orb_assoc.
Qed.

Lemma string_app_length (a b : string) :
  String.length (a ++ b) = (String.length a + String.length b)%nat.
Proof.
  induction a as [|d a IH]; [reflexivity | cbn; now rewrite IH].
Qed.

Lemma string_app_inv_tail (a b c : string) : a ++ c = b ++ c -> a = b.
Proof.
  revert b. induction a as [|d a IH]; intros [|d' b] E; cbn in E.
  - reflexivity.
  - apply (f_equal String.length) in E. cbn in E.
    rewrite string_app_length in E. lia.
  - apply (f_equal String.length) in E. cbn in E.
    rewrite string_app_length in E. lia.
  - injection E as -> E. f_equal. now apply IH.
Qed.

(** A string is split in one way only at the first occurrence of a
    character. *)
Lemma app_sep_inj (c : ascii) (a a' b b' : string) :
  occurs c a = false -> occurs c a' = false ->
  a ++ String c b = a' ++ String c b' -> a = a' /\ b = b'.
Proof.
  revert a'. induction a as [|d a IH]; intros [|d' a'] Ha Ha' H; cbn in *.
  - injection H as ->. auto.
  - injection H as <- _. now rewrite Ascii.eqb_refl in Ha'.
  - injection H as -> _. now rewrite Ascii.eqb_refl in Ha.
  - injection H as -> H.
    apply orb_false_iff in Ha as [_ Ha]. apply orb_false_iff in Ha' as [_ Ha'].
    destruct (IH a' Ha Ha' H) as [-> ->]. auto.
Qed.

(** *** Decimal numerals *)

Lemma string_of_uint_occurs (c : ascii) (d : Decimal.uint) :
  occurs c "0123456789" = false ->
  occurs c (DecimalString.NilEmpty.string_of_uint d) = false.
Proof.
  intros H. cbn in H. repeat (apply orb_false_iff in H as [? H]).
  induction d; cbn; rewrite ?IHd, ?orb_false_r; assumption || reflexivity.
Qed.

Lemma py_str_occurs (c : ascii) (i : Z) :
  occurs c "-0123456789" = false -> occurs c (py_str i) = false.
Proof.
  intros H. cbn [occurs] in H. apply orb_false_iff in H as [Hm H].
  assert (Hu : forall d, occurs c (DecimalString.NilZero.string_of_uint d) = false).
  { intros d. unfold DecimalString.NilZero.string_of_uint.
    destruct d; try now apply string_of_uint_occurs.
    cbn. cbn in H. apply orb_false_iff in H as [-> _]. reflexivity. }
  unfold py_str, DecimalString.NilZero.string_of_int.
  destruct (Z.to_int i); [apply Hu |].
  cbn [occurs]. now rewrite Hm, Hu.
Qed.

Lemma to_int_norm (i : Z) : Decimal.norm (Z.to_int i) = Z.to_int i.
Proof.
  rewrite <- (DecimalZ.to_of (Z.to_int i)). now rewrite DecimalZ.of_to.
Qed.

Lemma py_str_inj (i j : Z) : py_str i = py_str j -> i = j.
Proof.
  unfold py_str. intros H.
  assert (Hn : forall k, Z.to_int k <> Decimal.Pos Decimal.Nil /\
                         Z.to_int k <> Decimal.Neg Decimal.Nil).
  { intros k. rewrite <- (to_int_norm k).
    destruct (Z.to_int k) as [d | d]; cbn.
    - split; [| discriminate].
      intros [= E]. now apply (DecimalFacts.unorm_nonnil d).
    - destruct (Decimal.nzhead d); split; discriminate. }
  apply DecimalZ.to_int_inj.
  assert (E : Some (Z.to_int i) = Some (Z.to_int j)).
  { rewrite <- (DecimalString.NilZero.isi (Z.to_int i)) by apply Hn.
    rewrite <- (DecimalString.NilZero.isi (Z.to_int j)) by apply Hn.
    now rewrite H. }
  now injection E.
Qed.

Lemma py_str_nonempty (i : Z) : py_str i <> "".
Proof.
  unfold py_str, DecimalString.NilZero.string_of_int, DecimalString.NilZero.string_of_uint.
  destruct (Z.to_int i) as [d | d]; destruct d; discriminate.
Qed.

End Strings.

Section Urls.
Local Open Scope string_scope.

Lemma esri_url (z x y : Z) :
  format_zxy "https://server.arcgisonline.com/ArcGIS/rest/services/World_Imagery/MapServer/tile/{z}/{y}/{x}" None z x y
  = Some ("https://server.arcgisonline.com/ArcGIS/rest/services/World_Imagery/MapServer/tile/"
          ++ py_str z ++ "/" ++ py_str y ++ "/" ++ py_str x ++ "").
Proof. reflexivity. Qed.

Lemma osm_url (z x y : Z) :
  format_zxy "https://tile.openstreetmap.org/{z}/{x}/{y}.png" None z x y
  = Some ("https://tile.openstreetmap.org/"
          ++ py_str z ++ "/" ++ py_str x ++ "/" ++ py_str y ++ ".png").
Proof. reflexivity. Qed.

Lemma usgs_url (z x y : Z) :
  format_zxy "https://basemap.nationalmap.gov/arcgis/rest/services/USGSImageryOnly/MapServer/tile/{z}/{y}/{x}" None z x y
  = Some ("https://basemap.nationalmap.gov/arcgis/rest/services/USGSImageryOnly/MapServer/tile/"
          ++ py_str z ++ "/" ++ py_str y ++ "/" ++ py_str x ++ "").
Proof. reflexivity. Qed.

Lemma digits_no_slash : occurs "/" "-0123456789" = false.
Proof. reflexivity. Qed.

Lemma digits_no_dot : occurs "." "-0123456789" = false.
Proof. reflexivity. Qed.

(** Three numerals separated by slashes determine the three numbers. *)
Lemma numerals_inj (a b c a' b' c' : Z) (tail : string) :
  py_str a ++ "/" ++ py_str b ++ "/" ++ py_str c ++ tail
  = py_str a' ++ "/" ++ py_str b' ++ "/" ++ py_str c' ++ tail ->
  a = a' /\ b = b' /\ c = c'.
Proof.
  intros H.
  apply app_sep_inj in H as [Ha H];
    try (apply py_str_occurs; exact digits_no_slash).
  apply app_sep_inj in H as [Hb H];
    try (apply py_str_occurs; exact digits_no_slash).
  apply string_app_inv_tail in H.
  repeat split; now apply py_str_inj.
Qed.

(** X16.  Every provider of the table has a URL for every tile, and the URLs of
    two tiles differ. *)
Theorem tile_url_injective (self : TileFetcher) (z x y z' x' y' : Z) :
  In (provider_config self) (map snd PROVIDERS) ->
  (exists u, _get_tile_url self z x y = Some u) /\
  (_get_tile_url self z x y = _get_tile_url self z' x' y' ->
   z = z' /\ x = x' /\ y = y').
Proof.
  unfold _get_tile_url. cbv zeta.
  intros [<- | [<- | [<- | []]]]; cbn [url snd].
  - rewrite !esri_url. split; [eexists; reflexivity |].
    intros [= H]. apply numerals_inj in H. tauto.
  - rewrite !osm_url. split; [eexists; reflexivity |].
    intros [= H]. apply numerals_inj in H. tauto.
  - rewrite !usgs_url. split; [eexists; reflexivity |].
    intros [= H]. apply numerals_inj in H. tauto.
Qed.

(** The theorem for the tiles (4, 5, 7) and (4, 7, 5) of Esri. *)
Lemma tile_url_injective_example :
  (exists u, _get_tile_url esri_fetcher 4 5 7 = Some u) /\
  (_get_tile_url esri_fetcher 4 5 7 = _get_tile_url esri_fetcher 4 7 5 ->
   4 = 4 /\ 5 = 7 /\ 7 = 5).
Proof.
  apply (tile_url_injective esri_fetcher 4 5 7 4 7 5).
  left. reflexivity.
Defined.

End Urls.

Section Paths.
Local Open Scope string_scope.

Lemma prefix_sep_occurs (s : string) :
  occurs "/" s = false -> String.prefix "/" s = false.
Proof.
  destruct s as [|c s]; [reflexivity |].
  cbn [occurs String.prefix]. intros H. apply orb_false_iff in H as [H _].
  destruct (ascii_dec "/" c) as [<- | Hne]; [discriminate | reflexivity].
Qed.

Lemma endswith_sep_app (a b : string) :
  b <> "" -> endswith_sep (a ++ b) = endswith_sep b.
Proof.
  intros Hb. induction a as [|c a IH]; [reflexivity |].
  cbn [append endswith_sep]. rewrite IH.
  destruct (a ++ b) eqn:E; [| reflexivity].
  destruct a; [cbn in E; contradiction | discriminate].
Qed.

Lemma endswith_sep_occurs (s : string) :
  occurs "/" s = false -> endswith_sep s = false.
Proof.
  induction s as [|c s IH]; [reflexivity |].
  cbn [occurs endswith_sep]. intros H. apply orb_false_iff in H as [Hc Hs].
  destruct s; [exact Hc | now apply IH].
Qed.

Lemma eqb_app_empty (a b : string) : b <> "" -> String.eqb (a ++ b) "" = false.
Proof.
  intros Hb. destruct a; [| reflexivity].
  destruct b; [contradiction | reflexivity].
Qed.

(** Joining a component without a slash: the path gains the component,
    after a separator that depends on the path alone. *)
Lemma path_join_component (path b : string) :
  b <> "" -> occurs "/" b = false ->
  path_join path b =
  path ++ (if String.eqb path "" || endswith_sep path then "" else "/") ++ b.
Proof.
  intros Hb Ho. unfold path_join. rewrite (prefix_sep_occurs b Ho).
  destruct (String.eqb path "" || endswith_sep path); reflexivity.
Qed.

Lemma path_join_after_component (a b c : string) :
  b <> "" -> occurs "/" b = false ->
  c <> "" -> occurs "/" c = false ->
  path_join (a ++ b) c = a ++ b ++ "/" ++ c.
Proof.
  intros Hb Hob Hc Hoc. rewrite path_join_component by assumption.
  rewrite eqb_app_empty by assumption.
  rewrite endswith_sep_app by assumption.
  rewrite (endswith_sep_occurs b Hob). cbn [orb].
  now rewrite string_app_assoc.
Qed.

Lemma provider_name_plain (p : string) :
  In p provider_names -> p <> "" /\ occurs "/" p = false.
Proof.
  intros [<- | [<- | [<- | []]]]; split; (discriminate || reflexivity).
Qed.

Lemma occurs_app_false (c : ascii) (a b : string) :
  occurs c a = false -> occurs c b = false -> occurs c (a ++ b) = false.
Proof.
  intros Ha Hb. now rewrite occurs_app, Ha, Hb.
Qed.

Lemma app_nonempty_r (a b : string) : b <> "" -> a ++ b <> "".
Proof.
  intros Hb. destruct a; [exact Hb | discriminate].
Qed.

(** The cache path, spelled out. *)
Lemma cache_path_string_eq (self : TileFetcher) (z x y : Z) :
  In (provider self) provider_names ->
  cache_path_string self z x y =
  (cache_dir self ++
   (if String.eqb (cache_dir self) "" || endswith_sep (cache_dir self)
    then "" else "/")) ++
  provider self ++ "/" ++ py_str z ++ "/" ++ py_str x ++ "/" ++
  py_str y ++ ".png".
Proof.
  intros Hp. destruct (provider_name_plain _ Hp) as [Hne Hns].
  unfold cache_path_string. cbv zeta.
  rewrite (path_join_component (cache_dir self)) by assumption.
  set (sep := if String.eqb (cache_dir self) "" || endswith_sep (cache_dir self)
              then "" else "/").
  rewrite <- string_app_assoc.
  pose proof (py_str_occurs "/" z digits_no_slash) as Hz.
  pose proof (py_str_occurs "/" x digits_no_slash) as Hx.
  pose proof (py_str_occurs "/" y digits_no_slash) as Hy.
  rewrite path_join_after_component
    by (assumption || apply py_str_nonempty).
  (* the zoom component *)
  replace ((cache_dir self ++ sep) ++ provider self ++ "/" ++ py_str z)
    with (((cache_dir self ++ sep) ++ provider self ++ "/") ++ py_str z)
    by (now rewrite !string_app_assoc).
  rewrite path_join_after_component
    by (assumption || apply py_str_nonempty).
  replace (((cache_dir self ++ sep) ++ provider self ++ "/") ++
           py_str z ++ "/" ++ py_str x)
    with ((((cache_dir self ++ sep) ++ provider self ++ "/") ++
           py_str z ++ "/") ++ py_str x)
    by (now rewrite !string_app_assoc).
  rewrite path_join_after_component.
  - now rewrite !string_app_assoc.
  - apply py_str_nonempty.
  - assumption.
  - apply app_nonempty_r. discriminate.
  - apply occurs_app_false; [assumption | reflexivity].
Qed.

(** X17.  Two tiles never share a cache file, and neither do two providers that
    use the same cache directory. *)
Theorem cache_path_injective (self self' : TileFetcher) (z x y z' x' y' : Z) :
  In (provider self) provider_names ->
  In (provider self') provider_names ->
  cache_dir self = cache_dir self' ->
  cache_path_string self z x y = cache_path_string self' z' x' y' ->
  provider self = provider self' /\ z = z' /\ x = x' /\ y = y'.
Proof.
  intros Hp Hp' Hdir H.
  rewrite !cache_path_string_eq in H by assumption.
  rewrite Hdir in H. apply string_app_inv_head in H.
  destruct (provider_name_plain _ Hp) as [_ Hns].
  destruct (provider_name_plain _ Hp') as [_ Hns'].
  apply app_sep_inj in H as [Hprov H]; try assumption.
  split; [exact Hprov |].
  now apply numerals_inj in H.
Qed.

(** The theorem for the tile (4, 5, 7) below /tmp/map_tiles. *)
Lemma cache_path_injective_example :
  provider esri_fetcher = provider esri_fetcher /\ 4 = 4 /\ 5 = 5 /\ 7 = 7.
Proof.
  apply (cache_path_injective esri_fetcher esri_fetcher 4 5 7 4 5 7).
  - left. reflexivity.
  - left. reflexivity.
  - reflexivity.
  - reflexivity.
Defined.

End Paths.

(** ** The grid overlay and the canvas *)

Section Grid.
Context {blob : Type} (p : Pil blob).

(** [range(0, stop, step)] for a step that is not zero: the multiples of a
    positive step below [stop], nothing for a negative step. *)
Lemma py_range_step_multiples (stop step : Z) :
  0 <= stop -> step <> 0 ->
  exists l,
    py_range_step 0 stop step = Ok l /\
    forall v, In v l <-> 0 < step /\ 0 <= v < stop /\ v mod step = 0.
Proof.
  intros Hstop Hstep. unfold py_range_step.
  destruct (Z.eqb_spec step 0) as [E | _]; [contradiction |].
  eexists. split; [reflexivity |].
  intros v. rewrite in_map_iff.
  destruct (Z.ltb_spec 0 step) as [Hpos | Hneg].
  - split.
    + intros [i [<- Hi]]. apply in_seq in Hi.
      assert (Hq : Z.of_nat i < (stop - 0 + step - 1) / step) by lia.
      assert (Hlt : Z.of_nat i * step < stop).
      { destruct (Z_lt_le_dec (Z.of_nat i * step) stop) as [L | G]; [assumption |].
        exfalso.
        assert ((stop - 0 + step - 1) / step < Z.of_nat i + 1); [| lia].
        apply Z.div_lt_upper_bound; [assumption | nia]. }
      repeat split; try nia.
      rewrite Z.add_0_l. now apply Z_mod_mult.
    + intros [_ [[Hv0 Hv1] Hmod]].
      exists (Z.to_nat (v / step)).
      assert (Hv : v = step * (v / step)).
      { apply Z_div_exact_full_2; lia. }
      assert (Hq0 : 0 <= v / step) by (apply Z.div_pos; lia).
      split; [rewrite Z2Nat.id by assumption; lia |].
      apply in_seq. split; [lia |]. cbn [plus].
      apply Nat2Z.inj_lt. rewrite !Z2Nat.id; try assumption.
      * apply Z.div_lt_upper_bound; [assumption |].
        assert (step * ((stop - 0 + step - 1) / step) > stop - 0 + step - 1 - step).
        { pose proof (Z.mul_succ_div_gt (stop - 0 + step - 1) step Hpos). lia. }
        nia.
      * apply Z.div_pos; lia.
  - assert (Hlen : Z.to_nat ((0 - stop - step - 1) / - step) = 0%nat).
    { assert ((0 - stop - step - 1) / - step <= 0); [| lia].
      assert (0 - stop - step - 1 < - step) by lia.
      destruct (Z_lt_le_dec (0 - stop - step - 1) 0) as [N | P].
      - assert ((0 - stop - step - 1) / - step < 0); [| lia].
        apply Z.div_lt_upper_bound; lia.
      - rewrite Z.div_small; lia. }
    rewrite Hlen. cbn. split; [intros [i [_ []]] | lia].
Qed.

Lemma fold_vlines (h : Z) (fill : Pixel) (xs : list Z) :
  forall (o : Image) (d0 : Z -> Z -> Pixel),
    img_data o = Some d0 ->
    let o' := fold_left (fun o x => draw_vline o x 0 h fill) xs o in
    img_mode o' = img_mode o /\ img_size o' = img_size o /\
    exists d, img_data o' = Some d /\
      forall px py,
        d px py = if existsb (Z.eqb px) xs && (0 <=? py) && (py <=? h)
                  then fill else d0 px py.
Proof.
  induction xs as [|x rest IH]; intros o d0 Hd.
  - cbn. repeat split. exists d0. split; [assumption | reflexivity].
  - cbn [fold_left].
    destruct (IH (draw_vline o x 0 h fill)
                 (fun px py => if (px =? x) && (0 <=? py) && (py <=? h)
                               then fill else d0 px py))
      as [Hm [Hs [d [Hd' Hpix]]]].
    { cbn. now rewrite Hd. }
    cbv zeta. split; [exact Hm |]. split; [exact Hs |].
    exists d. split; [exact Hd' |].
    intros px py. rewrite Hpix. cbn [existsb].
    destruct (existsb (Z.eqb px) rest), (px =? x), (0 <=? py), (py <=? h);
      reflexivity.
Qed.

Lemma fold_hlines (w : Z) (fill : Pixel) (ys : list Z) :
  forall (o : Image) (d0 : Z -> Z -> Pixel),
    img_data o = Some d0 ->
    let o' := fold_left (fun o y => draw_hline o y 0 w fill) ys o in
    img_mode o' = img_mode o /\ img_size o' = img_size o /\
    exists d, img_data o' = Some d /\
      forall px py,
        d px py = if existsb (Z.eqb py) ys && (0 <=? px) && (px <=? w)
                  then fill else d0 px py.
Proof.
  induction ys as [|y rest IH]; intros o d0 Hd.
  - cbn. repeat split. exists d0. split; [assumption | reflexivity].
  - cbn [fold_left].
    destruct (IH (draw_hline o y 0 w fill)
                 (fun px py => if (py =? y) && (0 <=? px) && (px <=? w)
                               then fill else d0 px py))
      as [Hm [Hs [d [Hd' Hpix]]]].
    { cbn. now rewrite Hd. }
    cbv zeta. split; [exact Hm |]. split; [exact Hs |].
    exists d. split; [exact Hd' |].
    intros px py. rewrite Hpix. cbn [existsb].
    destruct (existsb (Z.eqb py) rest), (py =? y), (0 <=? px), (px <=? w);
      reflexivity.
Qed.

Lemma existsb_eqb_In (v : Z) (l : list Z) :
  existsb (Z.eqb v) l = true <-> In v l.
Proof.
  rewrite existsb_exists. split.
  - intros [x [Hin E]]. apply Z.eqb_eq in E. now subst.
  - intros Hin. exists v. split; [assumption | apply Z.eqb_refl].
Qed.

(** X19.  The overlay that [add_grid_overlay] composes onto the image: inside the
    image, the pixels whose column or row is a multiple of the spacing carry
    the line colour and all others are transparent; a negative spacing draws
    no line at all. *)
Theorem add_grid_overlay_lines (image : Image)
  (grid_spacing_m meters_per_pixel : R) (color : Pixel) (alpha : Z) :
  0 <= fst (img_size image) -> 0 <= snd (img_size image) ->
  meters_per_pixel <> 0%R ->
  let s := py_int (grid_spacing_m / meters_per_pixel) in
  s <> 0 ->
  exists overlay d,
    img_mode overlay = "RGBA"%string /\
    img_size overlay = img_size image /\
    img_data overlay = Some d /\
    (forall px py,
       0 <= px < fst (img_size image) -> 0 <= py < snd (img_size image) ->
       d px py = if (0 <? s) && ((px mod s =? 0) || (py mod s =? 0))
                 then color ++ [alpha] else [0; 0; 0; 0]) /\
    add_grid_overlay p image grid_spacing_m meters_per_pixel color alpha =
      (image' <- (if negb (String.eqb (img_mode image) "RGBA")
                  then convert p image "RGBA" else Ok image) ;;
       alpha_composite p image' overlay).
Proof.
  intros Hw Hh Hm s Hs.
  destruct (py_range_step_multiples (fst (img_size image)) s Hw Hs)
    as [xs [Hxs Hinx]].
  destruct (py_range_step_multiples (snd (img_size image)) s Hh Hs)
    as [ys [Hys Hiny]].
  set (blank := {| img_mode := "RGBA"; img_size := img_size image;
                   img_data := Some (fun _ _ => [0; 0; 0; 0]) |}).
  destruct (fold_vlines (snd (img_size image)) (color ++ [alpha]) xs blank
              (fun _ _ => [0; 0; 0; 0]) eq_refl) as [Hm1 [Hs1 [d1 [Hd1 Hp1]]]].
  set (o1 := fold_left (fun o x => draw_vline o x 0 (snd (img_size image))
                                     (color ++ [alpha])) xs blank) in *.
  destruct (fold_hlines (fst (img_size image)) (color ++ [alpha]) ys o1 d1 Hd1)
    as [Hm2 [Hs2 [d2 [Hd2 Hp2]]]].
  set (o2 := fold_left (fun o y => draw_hline o y 0 (fst (img_size image))
                                     (color ++ [alpha])) ys o1) in *.
  exists o2, d2.
  split; [now rewrite Hm2, Hm1 |]. split; [now rewrite Hs2, Hs1 |].
  split; [exact Hd2 |]. split.
  - intros px py Hpx Hpy. rewrite Hp2, Hp1.
    assert (Ex : existsb (Z.eqb px) xs = (0 <? s) && (px mod s =? 0)).
    { apply eq_true_iff_eq. rewrite existsb_eqb_In, Hinx, andb_true_iff,
        Z.ltb_lt, Z.eqb_eq. tauto. }
    assert (Ey : existsb (Z.eqb py) ys = (0 <? s) && (py mod s =? 0)).
    { apply eq_true_iff_eq. rewrite existsb_eqb_In, Hiny, andb_true_iff,
        Z.ltb_lt, Z.eqb_eq. tauto. }
    rewrite Ex, Ey.
    replace (0 <=? py) with true by (symmetry; apply Z.leb_le; lia).
    replace (py <=? snd (img_size image)) with true
      by (symmetry; apply Z.leb_le; lia).
    replace (0 <=? px) with true by (symmetry; apply Z.leb_le; lia).
    replace (px <=? fst (img_size image)) with true
      by (symmetry; apply Z.leb_le; lia).
    destruct (0 <? s), (px mod s =? 0), (py mod s =? 0); reflexivity.
  - unfold add_grid_overlay.
    rewrite Image_new_ok by assumption. cbn [bind]. fold blank.
    destruct (img_size image) as [width height] eqn:Esz.
    rewrite py_div_ok by assumption. cbn [bind].
    cbn [fst snd] in *. fold s. rewrite Hxs. cbn [bind]. rewrite Hys.
    reflexivity.
Qed.

End Grid.

(** The theorem for a tile of 256 pixels and a line every 64 pixels. *)
Lemma add_grid_overlay_lines_example :
  exists overlay d,
    img_mode overlay = "RGBA"%string /\
    img_size overlay = img_size sample_tile /\
    img_data overlay = Some d /\
    (forall px py,
       0 <= px < fst (img_size sample_tile) ->
       0 <= py < snd (img_size sample_tile) ->
       d px py = if (0 <? py_int (64 / 1)) &&
                    ((px mod py_int (64 / 1) =? 0) ||
                     (py mod py_int (64 / 1) =? 0))
                 then [255; 0; 0] ++ [128] else [0; 0; 0; 0]) /\
    add_grid_overlay plain_pil sample_tile 64 1 [255; 0; 0] 128 =
      (image' <- (if negb (String.eqb (img_mode sample_tile) "RGBA")
                  then convert plain_pil sample_tile "RGBA"
                  else Ok sample_tile) ;;
       alpha_composite plain_pil image' overlay).
Proof.
  apply (add_grid_overlay_lines plain_pil sample_tile 64 1 [255; 0; 0] 128).
  - cbn. lia.
  - cbn. lia.
  - lra.
  - replace (64 / 1)%R with (IZR 64) by lra. rewrite py_int_IZR. lia.
Defined.

Section Inverted.
Context {blob : Type} (p : Pil blob).

(** X18.  A rectangle whose upper bound lies more than one tile below its lower
    bound has a canvas with a negative side: [Image.new] raises, outside any
    [try], whatever the tiles are. *)
Theorem stitch_tiles_inverted (self : t) (tiles : TileDict) (tb : TileBounds)
  (output_size : Z * Z) :
  0 < tile_size self ->
  max_tile_x tb + 1 < min_tile_x tb \/ max_tile_y tb + 1 < min_tile_y tb ->
  stitch_tiles p self tiles tb output_size = Raise ValueError.
Proof.
  intros Hts Hinv. unfold stitch_tiles, stitch_canvas, Image_new, canvas_size.
  cbv zeta. cbn [fst snd].
  assert (Hneg : ((max_tile_x tb - min_tile_x tb + 1) * tile_size self <? 0)
                 || ((max_tile_y tb - min_tile_y tb + 1) * tile_size self <? 0)
                 = true).
  { apply orb_true_iff. destruct Hinv; [left | right]; apply Z.ltb_lt; nia. }
  now rewrite Hneg.
Qed.

End Inverted.

(** The theorem for a rectangle whose rows are inverted by two. *)
Lemma stitch_tiles_inverted_example :
  stitch_tiles plain_pil init [((5, 7), sample_tile)]
    {| min_tile_x := 0; max_tile_x := 2; min_tile_y := 2; max_tile_y := 0;
       zoom := 1 |} (1024, 1024)
  = Raise ValueError.
Proof.
  apply (stitch_tiles_inverted plain_pil init).
  - cbn. lia.
  - right. cbn. lia.
Defined.

Section Order.
Context {blob : Type} (p : Pil blob) (self : t) (tb : TileBounds).
Hypothesis tile_size_256 : tile_size self = 256.

(** One tile on a loaded canvas: inside its square the pasted pixels, or the
    canvas when the paste raises; outside its square the canvas. *)
Lemma place_tile_pixels (canvas : Image) (k : Z * Z) (img : Image)
  (dst : Z -> Z -> Pixel) :
  img_data canvas = Some dst -> img_size img = (256, 256) ->
  exists d1,
    img_data (place_tile p self tb canvas (k, img)) = Some d1 /\
    (forall x y, ~ in_tile_region self tb k x y -> d1 x y = dst x y) /\
    (forall x y, in_tile_region self tb k x y ->
       d1 x y = match pasted_pixels p img with
                | Some src => src (x - fst (canvas_offset self tb k))
                                  (y - snd (canvas_offset self tb k))
                | None => dst x y
                end).
Proof.
  intros Hd Hsz. cbn [place_tile]. unfold try_paste, pasted_pixels.
  destruct (tile_rgb p img) as [rgb|e] eqn:Ergb; cbn [bind].
  - assert (Hrsz := tile_rgb_size p img rgb Ergb). rewrite Hsz in Hrsz.
    destruct (img_data rgb) as [src|] eqn:Es.
    + destruct (paste_ok canvas rgb (canvas_offset self tb k) src dst Es Hd)
        as [c [-> [_ [_ Hdata]]]].
      eexists. split; [exact Hdata |]. rewrite Hrsz. cbn [fst snd].
      unfold in_tile_region.
      destruct (canvas_offset self tb k) as [ox oy]. cbn [fst snd].
      rewrite tile_size_256. split.
      * intros x y Hout.
        destruct (_ && _) eqn:E; [| reflexivity].
        exfalso. apply Hout. rewrite !andb_true_iff in E. lia.
      * intros x y Hin.
        destruct (_ && _) eqn:E; [reflexivity |].
        exfalso. rewrite !andb_false_iff in E. lia.
    + rewrite (paste_raises _ _ _ Es). exists dst. split; [assumption |].
      split; reflexivity.
  - exists dst. split; [assumption |]. split; reflexivity.
Qed.

(** All tiles of a dictionary with distinct keys, each of 256 by 256
    pixels. *)
Lemma fold_place_tile_complete (tiles : TileDict) :
  forall (canvas : Image) (d0 : Z -> Z -> Pixel),
    img_data canvas = Some d0 ->
    NoDup (map fst tiles) ->
    (forall k img, In (k, img) tiles -> img_size img = (256, 256)) ->
    let c := fold_left (place_tile p self tb) tiles canvas in
    img_mode c = img_mode canvas /\ img_size c = img_size canvas /\
    exists d,
      img_data c = Some d /\
      (forall k img x y,
         In (k, img) tiles -> in_tile_region self tb k x y ->
         d x y = match pasted_pixels p img with
                 | Some src => src (x - fst (canvas_offset self tb k))
                                   (y - snd (canvas_offset self tb k))
                 | None => d0 x y
                 end) /\
      (forall x y,
         (forall k img, In (k, img) tiles -> ~ in_tile_region self tb k x y) ->
         d x y = d0 x y).
Proof.
  induction tiles as [|[k0 img0] rest IH]; intros canvas d0 Hd Hnd Hsz.
  - cbn. repeat split. exists d0. split; [assumption |].
    split; [intros ? ? ? ? [] | reflexivity].
  - cbn [map fst] in Hnd. inversion Hnd as [|? ? Hk0 Hrest]; subst.
    cbn [fold_left].
    destruct (place_tile_pixels canvas k0 img0 d0 Hd) as [d1 [Hd1 [Hout Hin]]].
    { apply (Hsz k0 img0). now left. }
    destruct (place_tile_shape p self tb canvas (k0, img0) d0 Hd)
      as [Hm1 [Hs1 _]].
    destruct (IH (place_tile p self tb canvas (k0, img0)) d1 Hd1 Hrest)
      as [Hm [Hs [d [Hdata [Hpix Hframe]]]]].
    { intros k img Hi. apply (Hsz k img). now right. }
    cbv zeta. split; [now rewrite Hm |]. split; [now rewrite Hs |].
    exists d. split; [exact Hdata |]. split.
    + intros k img x y [[= <- <-] | Hmem] Hreg.
      * rewrite Hframe; [now apply Hin |].
        intros k' img' Hmem'. apply in_tile_region_disjoint with (k := k0);
          try assumption.
        intros ->. apply Hk0. apply in_map_iff. now exists (k', img').
      * rewrite (Hpix k img x y Hmem Hreg).
        destruct (pasted_pixels p img); [reflexivity |].
        apply Hout. intros Hreg0.
        apply (in_tile_region_disjoint self tb tile_size_256 k0 k x y);
          try assumption.
        intros <-. apply Hk0. apply in_map_iff. now exists (k0, img).
    + intros x y Hall. rewrite Hframe.
      * apply Hout. apply (Hall k0 img0). now left.
      * intros k img Hmem. apply (Hall k img). now right.
Qed.

(** A pixel lies in the square of some tile of the dictionary or of none. *)
Lemma covered_or_not (tiles : TileDict) (x y : Z) :
  (exists k img, In (k, img) tiles /\ in_tile_region self tb k x y) \/
  (forall k img, In (k, img) tiles -> ~ in_tile_region self tb k x y).
Proof.
  induction tiles as [|[k0 img0] rest IH].
  - right. intros ? ? [].
  - assert (Hdec : in_tile_region self tb k0 x y \/
                   ~ in_tile_region self tb k0 x y).
    { unfold in_tile_region. destruct (canvas_offset self tb k0) as [ox oy].
      lia. }
    destruct Hdec as [Hin | Hout].
    + left. exists k0, img0. split; [now left | assumption].
    + destruct IH as [[k [img [Hmem Hreg]]] | Hnone].
      * left. exists k, img. split; [now right | assumption].
      * right. intros k img [[= <- <-] | Hmem]; [assumption |].
        exact (Hnone k img Hmem).
Qed.

(** X26.  The canvas does not depend on the order of the dictionary: two
    dictionaries with the same entries, distinct keys and tiles of 256 by 256
    pixels give canvases with the same mode, size and pixels. *)
Theorem stitch_canvas_order (tiles1 tiles2 : TileDict) :
  min_tile_x tb <= max_tile_x tb -> min_tile_y tb <= max_tile_y tb ->
  Permutation tiles1 tiles2 ->
  NoDup (map fst tiles1) ->
  (forall k img, In (k, img) tiles1 -> img_size img = (256, 256)) ->
  exists c1 c2 d1 d2,
    stitch_canvas p self tiles1 tb = Ok c1 /\
    stitch_canvas p self tiles2 tb = Ok c2 /\
    img_mode c1 = img_mode c2 /\ img_size c1 = img_size c2 /\
    img_data c1 = Some d1 /\ img_data c2 = Some d2 /\
    forall x y, d1 x y = d2 x y.
Proof.
  intros Hx Hy Hperm Hnd Hsz.
  assert (Hts : 0 < tile_size self) by (rewrite tile_size_256; lia).
  destruct (canvas_size_pos self tb Hts Hx Hy) as [Cw Ch].
  unfold stitch_canvas.
  rewrite Image_new_ok by lia. cbn [bind].
  set (blank := {| img_mode := "RGB"; img_size := canvas_size self tb;
                   img_data := Some (fun _ _ => fill_color) |}).
  assert (Hnd2 : NoDup (map fst tiles2)).
  { apply (Permutation_NoDup (l := map fst tiles1)); [| assumption].
    now apply Permutation_map. }
  assert (Hsz2 : forall k img, In (k, img) tiles2 -> img_size img = (256, 256)).
  { intros k img Hin. apply (Hsz k img).
    apply (Permutation_in (l := tiles2)); [now apply Permutation_sym |
                                           assumption]. }
  destruct (fold_place_tile_complete tiles1 blank (fun _ _ => fill_color)
              eq_refl Hnd Hsz) as [Hm1 [Hs1 [d1 [Hd1 [Hin1 Hout1]]]]].
  destruct (fold_place_tile_complete tiles2 blank (fun _ _ => fill_color)
              eq_refl Hnd2 Hsz2) as [Hm2 [Hs2 [d2 [Hd2 [Hin2 Hout2]]]]].
  do 2 eexists. exists d1, d2.
  split; [reflexivity |]. split; [reflexivity |].
  split; [now rewrite Hm1, Hm2 |]. split; [now rewrite Hs1, Hs2 |].
  split; [exact Hd1 |]. split; [exact Hd2 |].
  intros x y.
  destruct (covered_or_not tiles1 x y) as [[k [img [Hmem Hreg]]] | Hnone].
  - rewrite (Hin1 k img x y Hmem Hreg).
    rewrite (Hin2 k img x y); [reflexivity | | assumption].
    now apply (Permutation_in (l := tiles1)).
  - rewrite Hout1 by assumption. rewrite Hout2; [reflexivity |].
    intros k img Hmem. apply (Hnone k img).
    apply (Permutation_in (l := tiles2)); [now apply Permutation_sym |
                                           assumption].
Qed.

End Order.

(** The theorem for two tiles in either order. *)
Lemma stitch_canvas_order_example :
  exists c1 c2 d1 d2,
    stitch_canvas plain_pil init
      [((4, 6), sample_tile); ((5, 7), sample_tile)] three_by_three = Ok c1 /\
    stitch_canvas plain_pil init
      [((5, 7), sample_tile); ((4, 6), sample_tile)] three_by_three = Ok c2 /\
    img_mode c1 = img_mode c2 /\ img_size c1 = img_size c2 /\
    img_data c1 = Some d1 /\ img_data c2 = Some d2 /\
    forall x y, d1 x y = d2 x y.
Proof.
  apply (stitch_canvas_order plain_pil init three_by_three eq_refl).
  - cbn. lia.
  - cbn. lia.
  - apply perm_swap.
  - cbn. repeat constructor; cbn; intuition congruence.
  - intros k img [[= <- <-] | [[= <- <-] | []]]; reflexivity.
Defined.

(** ** The node *)

Import MapPublisherNode.

Section Node.
Context {blob arr msg : Type} (nw : NodeWorld blob arr msg) (self : MapPublisherNode.t).

(** X21.  A message without a fix (negative status) and a fix at (0, 0) change
    nothing: the centre is not moved, no tile is requested and nothing is
    published. *)
Theorem gps_callback_invalid_fix (s : NodeState blob arr msg) (m : NavSatFix) :
  status m < 0 \/ (latitude m = 0%R /\ longitude m = 0%R) ->
  gps_callback nw self s m = (s, Ok tt).
Proof.
  intros H. unfold gps_callback.
  destruct (Z.ltb_spec (status m) 0) as [_ | Hst]; [reflexivity |].
  destruct H as [H | [Hlat Hlon]]; [lia |].
  cbv zeta. unfold py_float_eq. rewrite Hlat, Hlon.
  destruct (Req_dec_T 0 0) as [_ | C]; [reflexivity | now contradiction C].
Qed.

Lemma publish_image_and_metadata_fields (s : NodeState blob arr msg) :
  let s' := publish_image_and_metadata nw s in
  fetcher_state s' = fetcher_state s /\
  last_published_image s' = last_published_image s /\
  last_published_position s' = last_published_position s /\
  map_metadata s' = map_metadata s /\
  map_fetched s' = map_fetched s /\
  center_lat s' = center_lat s /\ center_lon s' = center_lon s.
Proof.
  unfold publish_image_and_metadata.
  destruct (last_published_image s) as [img|] eqn:Ei; [| cbn; now rewrite Ei].
  destruct (cv2_to_imgmsg nw img) as [r|]; [| cbn; now rewrite Ei].
  cbn [map_metadata publish].
  destruct (map_metadata s) as [md|] eqn:Em; cbn; rewrite ?Ei, ?Em; tauto.
Qed.

(** X22.  With [fetch_once_at_origin], once the map was fetched no fix and no timer
    tick sends a request, touches the cache or replaces the stored image, its
    position or its metadata; no callback raises. *)
Theorem spin_fetch_once (events : list Event) :
  forall s : NodeState blob arr msg,
    fetch_once_at_origin self = true -> map_fetched s = true ->
    exists s',
      spin nw self s events = (s', Ok tt) /\
      fetcher_state s' = fetcher_state s /\
      last_published_image s' = last_published_image s /\
      last_published_position s' = last_published_position s /\
      map_metadata s' = map_metadata s /\
      map_fetched s' = true.
Proof.
  induction events as [|e rest IH]; intros s Honce Hf.
  - exists s. cbn. tauto.
  - cbn [spin].
    assert (Hstep : exists s1,
              handle nw self s e = (s1, Ok tt) /\
              fetcher_state s1 = fetcher_state s /\
              last_published_image s1 = last_published_image s /\
              last_published_position s1 = last_published_position s /\
              map_metadata s1 = map_metadata s /\
              map_fetched s1 = true).
    { destruct e as [m |]; cbn [handle].
      - unfold gps_callback.
        destruct (status m <? 0); [exists s; tauto |].
        cbv zeta.
        destruct (py_float_eq (latitude m) 0 && py_float_eq (longitude m) 0);
          [exists s; tauto |].
        unfold should_update_map. rewrite Honce. cbn [map_fetched set_center].
        rewrite Hf. eexists. split; [reflexivity |]. cbn. tauto.
      - eexists. split; [reflexivity |].
        unfold publish_timer_callback.
        destruct (last_published_image s) eqn:Ei; [| rewrite Ei; tauto].
        destruct (publish_image_and_metadata_fields s) as [A [B [C [D [E _]]]]].
        rewrite A, B, C, D, E, Ei. tauto. }
    destruct Hstep as [s1 [-> [A [B [C [D E]]]]]].
    destruct (IH s1 Honce E) as [s' [Hrun [A' [B' [C' [D' E']]]]]].
    exists s'. rewrite Hrun, A', B', C', D', A, B, C, D. tauto.
Qed.

End Node.

Section NodePipeline.
Context {blob arr msg : Type} (nw : NodeWorld blob arr msg)
        (self : MapPublisherNode.t).

(** The rectangle that the node asks for is not empty when the bounding box
    stays between the poles. *)
Lemma get_tile_bounds_ordered (lat lon c : R) (z p : Z) :
  (Rabs lat < 90)%R -> (0 < c)%R -> 0 <= p ->
  (-90 < lat - degrees (c / 2 / 6378137))%R ->
  (lat + degrees (c / 2 / 6378137) < 90)%R ->
  exists tb,
    get_tile_bounds lat lon c c z p = Ok tb /\
    zoom tb = z /\
    min_tile_x tb <= max_tile_x tb /\ min_tile_y tb <= max_tile_y tb.
Proof.
  intros Hlat Hc Hp Hs Hn.
  destruct (get_tile_bounds_ok lat lon c c z p Hlat) as [_ Htb].
  cbv zeta in Htb. eexists. split; [exact Htb |].
  cbn [zoom min_tile_x max_tile_x min_tile_y max_tile_y].
  split; [reflexivity |].
  assert (Hdlat : (0 <= degrees (c / 2 / 6378137))%R)
    by (apply degrees_nonneg; lra).
  assert (Hdlon : (0 <= degrees (c / 2 / (6378137 * cos (radians lat))))%R).
  { apply degrees_nonneg. pose proof (cos_radians_pos lat Hlat).
    apply Rmult_le_pos; [lra |].
    left. apply Rinv_0_lt_compat. nra. }
  split.
  - pose proof (tile_x_mono
                  (lat - degrees (c / 2 / 6378137))
                  (lat + degrees (c / 2 / 6378137))
                  (lon - degrees (c / 2 / (6378137 * cos (radians lat))))
                  (lon + degrees (c / 2 / (6378137 * cos (radians lat))))
                  z ltac:(lra)).
    lia.
  - pose proof (tile_y_antimono
                  (lat - degrees (c / 2 / 6378137))
                  (lat + degrees (c / 2 / 6378137))
                  (lon - degrees (c / 2 / (6378137 * cos (radians lat))))
                  (lon + degrees (c / 2 / (6378137 * cos (radians lat))))
                  z Hs ltac:(lra) Hn).
    lia.
Qed.

Lemma rect_keys_nonempty (tb : TileBounds) :
  min_tile_x tb <= max_tile_x tb -> min_tile_y tb <= max_tile_y tb ->
  rect_keys tb <> [].
Proof.
  intros Hx Hy E.
  assert (Hin : In (min_tile_x tb, min_tile_y tb) (rect_keys tb))
    by (apply rect_keys_In; lia).
  rewrite E in Hin. destruct Hin.
Qed.

(** The dictionary of a batch, when the tile directories can be created. *)
Lemma fetch_tiles_keys (w : World blob) (f : TileFetcher) (st : State blob)
  (tb : TileBounds) :
  (forall z x, makedirs_tile w z x = true) ->
  exists st' tiles,
    fetch_tiles w f st tb = (st', Ok tiles) /\
    map fst tiles = filter (fetch_succeeds w f st (zoom tb)) (rect_keys tb).
Proof.
  intros Hdir. unfold fetch_tiles. cbv zeta.
  destruct (fetch_xs_spec w f (zoom tb) st
              (py_range (min_tile_y tb) (max_tile_y tb + 1))
              (py_range_NoDup _ _)
              (py_range (min_tile_x tb) (max_tile_x tb + 1)) st []
              (py_range_NoDup _ _))
    as [st' [tiles [Hrun Hkeys]]].
  - intros x _. apply Hdir.
  - intros x y _ _ [].
  - reflexivity.
  - exists st', tiles. split; [exact Hrun | exact Hkeys].
Qed.

Lemma stitch_tiles_returns (p : Pil blob) (st : ImageStitcher.t)
  (tiles : TileDict) (tb : TileBounds) (out_w out_h : Z) :
  resize_contract p -> 0 < tile_size st ->
  min_tile_x tb <= max_tile_x tb -> min_tile_y tb <= max_tile_y tb ->
  0 < out_w -> 0 < out_h ->
  exists img, stitch_tiles p st tiles tb (out_w, out_h) = Ok img.
Proof.
  intros Hres Ht Hx Hy Hw Hh. unfold stitch_tiles.
  destruct (stitch_canvas_shape p st tiles tb Ht Hx Hy)
    as [canvas [d [-> [Hm [Hs Hd]]]]].
  cbn [bind].
  destruct (size_eqb (canvas_size st tb) (out_w, out_h)); cbn [negb].
  - now exists canvas.
  - destruct (canvas_size_pos st tb Ht Hx Hy) as [Cw Ch].
    destruct (Hres canvas (out_w, out_h)) as [r [Hr _]];
      cbn [fst snd]; rewrite ?Hs; try assumption.
    + rewrite Hd. discriminate.
    + now exists r.
Qed.

(** X23.  The first valid fix, when no tile can be fetched: the node stores
    nothing and publishes nothing, the map stays unfetched, and the next fix
    tries again. *)
Theorem gps_callback_no_tiles (s : NodeState blob arr msg) (m : NavSatFix) :
  fetch_once_at_origin self = true -> map_fetched s = false ->
  0 <= status m ->
  latitude m <> 0%R \/ longitude m <> 0%R ->
  (Rabs (latitude m) < 90)%R ->
  (0 < coverage_meters self)%R -> 0 < image_size self ->
  (forall z x, makedirs_tile (world nw) z x = true) ->
  (forall z xy,
     fetch_succeeds (world nw) (tile_fetcher self) (fetcher_state s) z xy
       = false) ->
  exists s',
    gps_callback nw self s m = (s', Ok tt) /\
    map_fetched s' = false /\
    last_published_image s' = last_published_image s /\
    map_metadata s' = map_metadata s /\
    published s' = published s /\
    should_update_map self s' (latitude m) (longitude m) = Ok true.
Proof.
  intros Honce Hf Hst Hpos Hlat Hcov Hsize Hdir Hfail.
  unfold gps_callback.
  destruct (Z.ltb_spec (status m) 0) as [C | _]; [lia |].
  cbv zeta.
  assert (Hz : py_float_eq (latitude m) 0 && py_float_eq (longitude m) 0
               = false).
  { unfold py_float_eq.
    destruct (Req_dec_T (latitude m) 0), (Req_dec_T (longitude m) 0);
      try reflexivity.
    destruct Hpos; contradiction. }
  rewrite Hz.
  unfold should_update_map at 1. rewrite Honce. cbn [map_fetched set_center].
  rewrite Hf.
  unfold fetch_and_publish_map.
  rewrite (calculate_optimal_zoom_ok _ _ (latitude m) Hcov
             (IZR_lt 0 _ Hsize) Hlat).
  destruct (get_tile_bounds_ok (latitude m) (longitude m)
              (coverage_meters self) (coverage_meters self)
              (Z.max 0 (Z.min 19 (py_round
                 (ln (156543.03392 * cos (radians (latitude m)) /
                      (coverage_meters self / IZR (image_size self))) / ln 2))))
              1 Hlat) as [_ Htb].
  cbv zeta in Htb. rewrite Htb. clear Htb.
  cbn [fetcher_state set_center].
  match goal with
  | |- context [fetch_tiles _ _ _ ?tb] =>
      destruct (fetch_tiles_keys (world nw) (tile_fetcher self)
                  (fetcher_state s) tb Hdir) as [st' [tiles [Hrun Hkeys]]]
  end.
  rewrite Hrun.
  assert (Hnil : tiles = []).
  { destruct tiles as [|t0 rest]; [reflexivity | exfalso].
    assert (Hin : In (fst t0) (map fst (t0 :: rest))) by now left.
    rewrite Hkeys in Hin. apply filter_In in Hin as [_ Hs].
    now rewrite Hfail in Hs. }
  subst tiles.
  eexists. split; [reflexivity |].
  cbn [map_fetched last_published_image map_metadata published
       with_fetcher_state set_center].
  repeat split; try assumption.
  unfold should_update_map. rewrite Honce.
  cbn [map_fetched with_fetcher_state set_center]. now rewrite Hf.
Qed.

End NodePipeline.

Section NodeSuccess.
Context {blob arr msg : Type} (nw : NodeWorld blob arr msg)
        (self : MapPublisherNode.t).

(** X24.  The first valid fix, when every tile can be fetched and the conversions
    succeed: the node stores the image with the position of the fix, marks
    the map as fetched, and publishes one image message followed by one
    metadata message that carries the zoom of [calculate_optimal_zoom] and
    the box of [calculate_bounding_box]. *)
Theorem gps_callback_first_fix (s : NodeState blob arr msg) (m : NavSatFix) :
  fetch_once_at_origin self = true -> map_fetched s = false ->
  0 <= status m ->
  latitude m <> 0%R \/ longitude m <> 0%R ->
  (Rabs (latitude m) < 90)%R ->
  (0 < coverage_meters self)%R -> 0 < image_size self ->
  (-90 < latitude m - degrees (coverage_meters self / 2 / 6378137))%R ->
  (latitude m + degrees (coverage_meters self / 2 / 6378137) < 90)%R ->
  (forall z x, makedirs_tile (world nw) z x = true) ->
  (forall z xy,
     fetch_succeeds (world nw) (tile_fetcher self) (fetcher_state s) z xy
       = true) ->
  resize_contract (pil (world nw)) ->
  0 < tile_size (image_stitcher self) ->
  (forall img, exists a, to_bgr_array nw self img = Ok a) ->
  (forall a, exists r, cv2_to_imgmsg nw a = Some r) ->
  exists s' z bbox a r,
    gps_callback nw self s m = (s', Ok tt) /\
    calculate_optimal_zoom (coverage_meters self) (IZR (image_size self))
      (latitude m) = Ok z /\
    calculate_bounding_box (latitude m) (longitude m) (coverage_meters self)
      (coverage_meters self) = Ok bbox /\
    cv2_to_imgmsg nw a = Some r /\
    map_fetched s' = true /\
    last_published_position s' = Some (latitude m, longitude m) /\
    last_published_image s' = Some a /\
    map_metadata s' =
      Some {| md_center_lat := latitude m;
              md_center_lon := longitude m;
              md_coverage_meters := coverage_meters self;
              md_image_size := image_size self;
              md_zoom := z;
              md_bbox := bbox;
              md_provider := tile_provider self |} /\
    published s' =
      published s ++
      [ImageMsg r;
       MetadataMsg {| md_center_lat := latitude m;
                      md_center_lon := longitude m;
                      md_coverage_meters := coverage_meters self;
                      md_image_size := image_size self;
                      md_zoom := z;
                      md_bbox := bbox;
                      md_provider := tile_provider self |}].
Proof.
  intros Honce Hf Hst Hpos Hlat Hcov Hsize Hsouth Hnorth Hdir Hall Hres Hts
         Hbgr Hcv.
  unfold gps_callback.
  destruct (Z.ltb_spec (status m) 0) as [C | _]; [lia |].
  cbv zeta.
  assert (Hz : py_float_eq (latitude m) 0 && py_float_eq (longitude m) 0
               = false).
  { unfold py_float_eq.
    destruct (Req_dec_T (latitude m) 0), (Req_dec_T (longitude m) 0);
      try reflexivity.
    destruct Hpos; contradiction. }
  rewrite Hz.
  unfold should_update_map. rewrite Honce. cbn [map_fetched set_center].
  rewrite Hf.
  unfold fetch_and_publish_map.
  pose proof (calculate_optimal_zoom_ok _ _ (latitude m) Hcov
                (IZR_lt 0 _ Hsize) Hlat) as Hzoom.
  rewrite Hzoom.
  set (z := Z.max 0 (Z.min 19 (py_round
              (ln (156543.03392 * cos (radians (latitude m)) /
                   (coverage_meters self / IZR (image_size self))) / ln 2)))).
  destruct (get_tile_bounds_ordered (latitude m) (longitude m)
              (coverage_meters self) z 1 Hlat Hcov ltac:(lia) Hsouth Hnorth)
    as [tb [Htb [Hzb [Hx Hy]]]].
  rewrite Htb.
  destruct (get_tile_bounds_ok (latitude m) (longitude m)
              (coverage_meters self) (coverage_meters self) z 1 Hlat)
    as [Hbox _].
  cbv zeta in Hbox.
  cbn [fetcher_state set_center].
  destruct (fetch_tiles_keys (world nw) (tile_fetcher self)
              (fetcher_state s) tb Hdir) as [st' [tiles [Hrun Hkeys]]].
  rewrite Hrun.
  assert (Hall' : filter (fetch_succeeds (world nw) (tile_fetcher self)
                            (fetcher_state s) (zoom tb)) (rect_keys tb)
                  = rect_keys tb).
  { apply forallb_filter_id. apply forallb_forall. intros xy _. apply Hall. }
  rewrite Hall' in Hkeys.
  destruct tiles as [|t0 rest].
  { exfalso. apply (rect_keys_nonempty tb Hx Hy). now rewrite <- Hkeys. }
  destruct (stitch_tiles_returns (pil (world nw)) (image_stitcher self)
              (t0 :: rest) tb (image_size self) (image_size self)
              Hres Hts Hx Hy Hsize Hsize) as [img Himg].
  rewrite Himg. cbn [bind].
  destruct (Hbgr img) as [a Ha]. rewrite Ha.
  destruct (Hcv a) as [r Hr].
  unfold store_and_publish. rewrite Hbox.
  unfold publish_image_and_metadata.
  cbn [last_published_image set_metadata store_image]. rewrite Hr.
  cbn [map_metadata publish set_metadata store_image].
  eexists. exists z. eexists. exists a, r.
  split; [reflexivity |]. split; [reflexivity |]. split; [reflexivity |].
  split; [exact Hr |].
  cbn [map_fetched last_published_position last_published_image map_metadata
       published publish set_metadata store_image with_fetcher_state
       set_center].
  repeat split. now rewrite <- app_assoc.
Qed.

(** X25.  In the mode that follows the movement, a fix straight north or south of
    the last published position updates the map exactly when the offset in
    metres exceeds the threshold. *)
Theorem should_update_map_north_south (s : NodeState blob arr msg)
  (lat lon dy : R) :
  fetch_once_at_origin self = false -> update_on_movement self = true ->
  last_published_position s = Some (lat, lon) ->
  (Rabs dy <= PI * 6378137)%R ->
  should_update_map self s (lat + degrees (dy / 6378137)) lon =
  Ok (if Rlt_dec (movement_threshold self) (Rabs dy) then true else false).
Proof.
  intros Honce Hmove Hpos Hdy.
  unfold should_update_map. rewrite Honce, Hpos, Hmove. cbn [negb].
  pose proof PI_RGT_0 as Hpi.
  set (d := degrees (dy / 6378137)).
  assert (Hd : Rabs (lat + d - lat) = degrees (Rabs dy / 6378137)).
  { replace (lat + d - lat)%R with d by lra. unfold d, degrees, Rdiv.
    rewrite !Rabs_mult.
    rewrite (Rabs_pos_eq (/ 6378137)) by lra.
    rewrite (Rabs_pos_eq 180) by lra.
    rewrite (Rabs_pos_eq (/ PI)); [reflexivity |].
    left. now apply Rinv_0_lt_compat. }
  rewrite haversine_meridian.
  - cbn [bind]. rewrite Hd, radians_degrees.
    replace (6378137 * (Rabs dy / 6378137))%R with (Rabs dy) by (field; lra).
    destruct (Rlt_dec (movement_threshold self) (Rabs dy)); reflexivity.
  - rewrite Hd. unfold degrees.
    apply Rmult_le_reg_r with (PI / 180)%R; [lra |].
    replace (Rabs dy / 6378137 * (180 / PI) * (PI / 180))%R
      with (Rabs dy / 6378137)%R by (field; lra).
    lra.
Qed.

End NodeSuccess.

(** The theorem for a message with status -1. *)
Lemma gps_callback_invalid_fix_example :
  gps_callback online_node_world default_node initial_state no_fix
  = (initial_state, Ok tt).
Proof.
  apply (gps_callback_invalid_fix online_node_world default_node
           initial_state no_fix).
  left. cbn. lia.
Defined.

(** The theorem for a fix followed by a timer tick. *)
Lemma spin_fetch_once_example :
  exists s',
    spin online_node_world default_node fetched_state
      [GpsFix sf_fix; TimerTick] = (s', Ok tt) /\
    fetcher_state s' = fetcher_state fetched_state /\
    last_published_image s' = last_published_image fetched_state /\
    last_published_position s' = last_published_position fetched_state /\
    map_metadata s' = map_metadata fetched_state /\
    map_fetched s' = true.
Proof.
  apply (spin_fetch_once online_node_world default_node
           [GpsFix sf_fix; TimerTick] fetched_state); reflexivity.
Defined.

Lemma sf_between_poles :
  (Rabs 37.7749 < 90)%R /\
  (-90 < 37.7749 - degrees (500 / 2 / 6378137))%R /\
  (37.7749 + degrees (500 / 2 / 6378137) < 90)%R.
Proof.
  pose proof (degrees_le (500 / 2 / 6378137) ltac:(lra)).
  rewrite Rabs_pos_eq by lra. repeat split; lra.
Qed.

(** The theorem for the default node and a network that does not answer. *)
Lemma gps_callback_no_tiles_example :
  exists s',
    gps_callback offline_node_world default_node initial_state sf_fix
      = (s', Ok tt) /\
    map_fetched s' = false /\
    last_published_image s' = last_published_image initial_state /\
    map_metadata s' = map_metadata initial_state /\
    published s' = published initial_state /\
    should_update_map default_node s' (latitude sf_fix) (longitude sf_fix)
      = Ok true.
Proof.
  apply (gps_callback_no_tiles offline_node_world default_node initial_state
           sf_fix).
  - reflexivity.
  - reflexivity.
  - cbn. lia.
  - left. cbn. lra.
  - apply sf_between_poles.
  - cbn. lra.
  - cbn. lia.
  - reflexivity.
  - reflexivity.
Defined.

(** The theorem for the default node at San Francisco. *)
Lemma gps_callback_first_fix_example :
  exists s' z bbox a r,
    gps_callback online_node_world default_node initial_state sf_fix
      = (s', Ok tt) /\
    calculate_optimal_zoom (coverage_meters default_node)
      (IZR (image_size default_node)) (latitude sf_fix) = Ok z /\
    calculate_bounding_box (latitude sf_fix) (longitude sf_fix)
      (coverage_meters default_node) (coverage_meters default_node)
      = Ok bbox /\
    cv2_to_imgmsg online_node_world a = Some r /\
    map_fetched s' = true /\
    last_published_position s' = Some (latitude sf_fix, longitude sf_fix) /\
    last_published_image s' = Some a /\
    map_metadata s' =
      Some {| md_center_lat := latitude sf_fix;
              md_center_lon := longitude sf_fix;
              md_coverage_meters := coverage_meters default_node;
              md_image_size := image_size default_node;
              md_zoom := z;
              md_bbox := bbox;
              md_provider := tile_provider default_node |} /\
    published s' =
      published initial_state ++
      [ImageMsg r;
       MetadataMsg {| md_center_lat := latitude sf_fix;
                      md_center_lon := longitude sf_fix;
                      md_coverage_meters := coverage_meters default_node;
                      md_image_size := image_size default_node;
                      md_zoom := z;
                      md_bbox := bbox;
                      md_provider := tile_provider default_node |}].
Proof.
  apply (gps_callback_first_fix online_node_world default_node initial_state
           sf_fix).
  - reflexivity.
  - reflexivity.
  - cbn. lia.
  - left. cbn. lra.
  - apply sf_between_poles.
  - cbn. lra.
  - cbn. lia.
  - apply sf_between_poles.
  - apply sf_between_poles.
  - reflexivity.
  - reflexivity.
  - exact plain_pil_resize.
  - cbn. lia.
  - intros img. eexists. reflexivity.
  - intros a. eexists. reflexivity.
Defined.

(** The theorem for a move of 150 m to the north, threshold 100 m. *)
Lemma should_update_map_north_south_example :
  should_update_map moving_node fetched_state
    (37.7749 + degrees (150 / 6378137)) (-122.4194) =
  Ok (if Rlt_dec (movement_threshold moving_node) (Rabs 150)
      then true else false).
Proof.
  apply (should_update_map_north_south moving_node fetched_state
           37.7749 (-122.4194) 150).
  - reflexivity.
  - reflexivity.
  - reflexivity.
  - rewrite Rabs_pos_eq by lra. pose proof PI_gt_3. lra.
Defined.

